(** * The movie-search and help-center front end, embedded in Rocq

    The development follows the TypeScript sources of the front end:

    - [JS]: the fragment of JavaScript the components rely on (strings as
      sequences of UTF-16 code units, [trim], truthiness, numbers,
      [toFixed], the members [JSON.stringify] writes);
    - [Double]: numbers as IEEE 754 doubles, with subtraction and
      multiplication rounded to the nearest double;
    - [Runtime]: event handlers as trees of effects (state setter calls,
      [fetch], [Date.now], [setTimeout]) with [try]/[catch]/[finally], and
      the event loop that runs them;
    - [Api]: the API client ([fetchApi] and the five search functions);
    - [SearchBar], [SearchTypeTabs], [FilterPanel], [MovieCard], [App]:
      the movie page;
    - [HelpChat], [HelpCenter]: the help page.

    Numbers: a JavaScript number is an IEEE double.  Where the code
    computes with numbers and shows the result (the similarity threshold
    of the help page) they are doubles ([Double]: every operation rounds
    to the nearest double).  Elsewhere a number is the exact rational
    ([Q]) it stands for: slider values, scores and counts are passed on
    or compared, and what is proved of them is their order, their bounds
    and whether they are shown, none of which rests on the last digit of
    a floating-point result. *)

From Stdlib Require Import ZArith QArith NArith List String Ascii Bool Lia Lqa.
From Stdlib Require Import Qabs Qround Qpower DecimalString.
From ExtLib Require Import Structures.Monad.
Import ListNotations.
Import MonadNotation.

Set Implicit Arguments.

Local Open Scope string_scope.
Local Open Scope list_scope.
Local Open Scope Q_scope.
Local Open Scope monad_scope.

(* ===================================================================== *)
(** * JavaScript values *)
(* ===================================================================== *)

Module JS.

(** A string is a sequence of UTF-16 code units. *)
Definition jsstring := list N.

(** A string literal of the source (ASCII). *)
Definition lit (s : string) : jsstring :=
  List.map N_of_ascii (list_ascii_of_string s).

(** [WhiteSpace] and [LineTerminator] code points of ECMAScript, the
    ones [String.prototype.trim] strips; all lie in the basic plane. *)
Definition isWhiteSpace (c : N) : bool :=
  (N.eqb c 0x9 || N.eqb c 0xA || N.eqb c 0xB || N.eqb c 0xC || N.eqb c 0xD
   || N.eqb c 0x20 || N.eqb c 0xA0 || N.eqb c 0x1680
   || (N.leb 0x2000 c && N.leb c 0x200A)
   || N.eqb c 0x2028 || N.eqb c 0x2029 || N.eqb c 0x202F
   || N.eqb c 0x205F || N.eqb c 0x3000 || N.eqb c 0xFEFF)%bool.

Fixpoint trimStart (s : jsstring) : jsstring :=
  match s with
  | [] => []
  | c :: s' => if isWhiteSpace c then trimStart s' else s
  end.

Definition trimEnd (s : jsstring) : jsstring := rev (trimStart (rev s)).

(** [s.trim()] *)
Definition trim (s : jsstring) : jsstring := trimEnd (trimStart s).

Coercion lit : string >-> jsstring.

(** Truthiness of a string: every string but the empty one. *)
Definition truthy_string (s : jsstring) : bool :=
  match s with [] => false | _ :: _ => true end.

(** Truthiness of a number (no NaN among the rationals): every number
    but zero. *)
Definition truthy_number (x : Q) : bool := negb (Qeq_bool x 0).

(** [x > y] on numbers. *)
Definition gt (x y : Q) : bool := negb (Qle_bool x y).

Fixpoint string_eqb (s t : jsstring) : bool :=
  match s, t with
  | [], [] => true
  | c :: s', d :: t' => N.eqb c d && string_eqb s' t'
  | _, _ => false
  end.

(** The decimal digits of a natural number. *)
Definition digits (n : N) : string := NilZero.string_of_uint (N.to_uint n).

(** [String(n)] and [n.toString()] for an integer [n]. *)
Definition Z_toString (n : Z) : jsstring :=
  lit (NilZero.string_of_int (Z.to_int n)).

Fixpoint zeros (k : nat) : string :=
  match k with O => EmptyString | S k' => String "0" (zeros k') end.

(** [x.toFixed(f)], after ECMAScript's Number.prototype.toFixed: the
    sign is split off, [n] is the integer closest to [|x| * 10^f] (the
    larger one on a tie), its digits are padded to [f + 1] places and the
    point is put before the last [f].  (From 10^21 on the standard
    switches to exponent notation; the digits are used throughout.) *)
Definition toFixed_n (f : nat) (x : Q) : N :=
  Z.to_N (Qfloor (Qabs x * inject_Z (10 ^ Z.of_nat f) + (1 # 2))).

Definition toFixed_digits (f : nat) (n : N) : string :=
  let m := digits n in
  match f with
  | O => m
  | S _ =>
      let k := String.length m in
      let m := if Nat.leb k f then (zeros (f + 1 - k) ++ m)%string else m in
      let k := String.length m in
      (substring 0 (k - f) m ++ "." ++ substring (k - f) f m)%string
  end.

Definition toFixed (f : nat) (x : Q) : string :=
  ((if Qlt_le_dec x 0 then "-" else "") ++ toFixed_digits f (toFixed_n f x))%string.

(** Values that are put in a request object. *)
Inductive value : Type :=
| Undefined
| Bool (b : bool)
| Num (x : Q)
| Str (s : jsstring).

Definition object := list (string * value).

Definition is_undefined (v : value) : bool :=
  match v with Undefined => true | _ => false end.

(** [JSON.stringify(o)] for an object of such values: the members of the
    text, in order.  A member whose value is [undefined] is left out. *)
Definition JSON_stringify (o : object) : object :=
  List.filter (fun kv => negb (is_undefined (snd kv))) o.

(** The text has a member with this key. *)
Definition has_key (k : string) (o : object) : Prop :=
  List.In k (List.map fst o).

Fixpoint lookup (k : string) (o : object) : option value :=
  match o with
  | [] => None
  | (k', v) :: o' => if String.eqb k k' then Some v else lookup k o'
  end.

(** What can be thrown: an [Error] object with its message, or any other
    value. *)
Inductive exn : Type :=
| Error (message : jsstring)
| Thrown.

End JS.

(* ===================================================================== *)
(** * Numbers as IEEE 754 doubles *)
(* ===================================================================== *)

Module Double.

(** A Number value: NaN, an infinity, or a finite double, given as the
    rational number it is.  The sign of zero is not kept: the modelled
    code has no operation that tells [+0] from [-0]. *)
Inductive double : Type :=
| NaN
| Infinity (negative : bool)
| Finite (x : Q).

(** [floor (log2 x)] for a positive [x]. *)
Definition ilog2 (x : Q) : Z :=
  let l := (Z.log2 (Qnum x) - Z.log2 (Z.pos (Qden x)))%Z in
  if Qle_bool (2 ^ l) x then l else (l - 1)%Z.

(** The closest integer, the even one of two that are equally close. *)
Definition rne (y : Q) : Z :=
  let f := Qfloor y in
  match Qcompare (y - inject_Z f) (1 # 2) with
  | Lt => f
  | Gt => (f + 1)%Z
  | Eq => if Z.even f then f else (f + 1)%Z
  end.

(** The exponent of the last place of the doubles around a positive
    [x]: 52 binary places below its leading one, and not below the
    exponent of the subnormal numbers. *)
Definition exponent (x : Q) : Z := Z.max (-1074) (ilog2 x - 52).

(** A positive [x] rounded to that place. *)
Definition nearest (x : Q) : Q :=
  inject_Z (rne (x / 2 ^ exponent x)) * 2 ^ exponent x.

Definition is_negative (x : Q) : bool := negb (Qle_bool 0 x).

(** The double of a sign and a rounded magnitude: an infinity when the
    magnitude reaches [2^1024]. *)
Definition pack (negative : bool) (r : Q) : double :=
  if Qle_bool (2 ^ 1024) r then Infinity negative
  else Finite (Qred (if negative then - r else r)).

(** The Number value of a real number (IEEE 754 binary64,
    roundTiesToEven): the nearest double, or an infinity. *)
Definition round (x : Q) : double :=
  if Qeq_bool x 0 then Finite 0
  else pack (is_negative x) (nearest (Qabs x)).

(** [a - b] *)
Definition sub (a b : double) : double :=
  match a, b with
  | NaN, _ => NaN
  | _, NaN => NaN
  | Infinity s, Infinity t => if Bool.eqb s t then NaN else Infinity s
  | Infinity s, Finite _ => Infinity s
  | Finite _, Infinity t => Infinity (negb t)
  | Finite x, Finite y => round (x - y)
  end.

(** [a * b] *)
Definition mul (a b : double) : double :=
  match a, b with
  | NaN, _ => NaN
  | _, NaN => NaN
  | Infinity s, Infinity t => Infinity (xorb s t)
  | Infinity s, Finite y =>
      if Qeq_bool y 0 then NaN else Infinity (xorb s (is_negative y))
  | Finite x, Infinity t =>
      if Qeq_bool x 0 then NaN else Infinity (xorb (is_negative x) t)
  | Finite x, Finite y => round (x * y)
  end.

(** Truthiness of a number: every number but [NaN] and zero. *)
Definition truthy (a : double) : bool :=
  match a with
  | NaN => false
  | Infinity _ => true
  | Finite x => negb (Qeq_bool x 0)
  end.

(** The order of the values; [NaN] is not compared. *)
Definition le (a b : double) : Prop :=
  match a, b with
  | NaN, _ => False
  | _, NaN => False
  | Infinity true, _ => True
  | _, Infinity false => True
  | Finite x, Finite y => x <= y
  | _, _ => False
  end.

End Double.


(* ===================================================================== *)
(** * Handlers as effect trees, and the event loop *)
(* ===================================================================== *)

Module Runtime.
Import JS.

(** What [fetch(url, {method, headers, body})] sends. [body] holds the
    members of the JSON text. *)
Record Request : Type := {
  url : jsstring;
  method : string;
  headers : list (string * string);
  body : object
}.

(** The response: [response.ok], [response.status], and what
    [response.json()] settles with, read at the payload type [P] the
    caller expects. *)
Record Response (P : Type) : Type := {
  ok : bool;
  status : Z;
  json : exn + P
}.

(** [fetch] rejects (network failure) or resolves with a response. *)
Inductive FetchOutcome (P : Type) : Type :=
| Rejected (e : exn)
| Resolved (r : Response P).

Arguments Rejected {P} e.

(** A handler over component state [S]: what it does, in order.
    - [SetState f k]: a state setter call, [f] the queued update;
    - [Fetch r k]: [await fetch(...)], the handler is suspended until the
      request settles;
    - [DateNow k]: a reading of the clock ([Date.now()], [new Date()]);
    - [SetTimeout cb k]: [setTimeout(cb, 0)]. *)
Inductive Async (S P A : Type) : Type :=
| Return (a : A)
| Throw (e : exn)
| SetState (f : S -> S) (k : Async S P A)
| Fetch (r : Request) (k : FetchOutcome P -> Async S P A)
| DateNow (k : Z -> Async S P A)
| SetTimeout (callback : Async S P unit) (k : Async S P A).

Arguments Return {S P A} a.
Arguments Throw {S P A} e.
Arguments SetState {S P A} f k.
Arguments Fetch {S P A} r k.
Arguments DateNow {S P A} k.
Arguments SetTimeout {S P A} callback k.

Fixpoint bind {S P A B : Type} (m : Async S P A) (f : A -> Async S P B) : Async S P B :=
  match m with
  | Return a => f a
  | Throw e => Throw e
  | SetState g k => SetState g (bind k f)
  | Fetch r k => Fetch r (fun o => bind (k o) f)
  | DateNow k => DateNow (fun t => bind (k t) f)
  | SetTimeout cb k => SetTimeout cb (bind k f)
  end.

#[export] Instance Monad_Async {S P} : Monad (Async S P) :=
  {| ret := fun A => @Return S P A; Monad.bind := fun A B => @bind S P A B |}.

(** [try { m } catch (e) { h e }] *)
Fixpoint try_catch {S P A : Type} (m : Async S P A) (h : exn -> Async S P A) : Async S P A :=
  match m with
  | Return a => Return a
  | Throw e => h e
  | SetState g k => SetState g (try_catch k h)
  | Fetch r k => Fetch r (fun o => try_catch (k o) h)
  | DateNow k => DateNow (fun t => try_catch (k t) h)
  | SetTimeout cb k => SetTimeout cb (try_catch k h)
  end.

(** [try { m } finally { fin }]: [fin] runs on both exits, and the
    outcome of [m] is kept unless [fin] throws. *)
Fixpoint try_finally {S P A : Type} (m : Async S P A) (fin : Async S P unit) : Async S P A :=
  match m with
  | Return a => bind fin (fun _ => Return a)
  | Throw e => bind fin (fun _ => Throw e)
  | SetState g k => SetState g (try_finally k fin)
  | Fetch r k => Fetch r (fun o => try_finally (k o) fin)
  | DateNow k => DateNow (fun t => try_finally (k t) fin)
  | SetTimeout cb k => SetTimeout cb (try_finally k fin)
  end.

(** A state setter called with a value or with an updater. *)
Definition set {S P} (f : S -> S) : Async S P unit := SetState f (Return tt).

(** [await fetch(...)]: a rejection is thrown at the await. *)
Definition fetch {S P} (r : Request) : Async S P (Response P) :=
  Fetch r (fun o => match o with
                    | Rejected e => Throw e
                    | Resolved resp => Return resp
                    end).

(** [await response.json()] *)
Definition response_json {S P} (resp : Response P) : Async S P P :=
  match json resp with
  | inl e => Throw e
  | inr data => Return data
  end.

Definition Date_now {S P} : Async S P Z := DateNow (fun t => Return t).

(** [new Date()], as the instant it holds. *)
Definition new_Date {S P} : Async S P Z := DateNow (fun t => Return t).

(** An async function called without [await]: its effects happen in
    place, a rejection stays in the promise nobody looks at. *)
Definition detach {S P} (m : Async S P unit) : Async S P unit :=
  try_catch m (fun _ => Return tt).

Definition setTimeout {S P} (cb : Async S P unit) : Async S P unit :=
  SetTimeout cb (Return tt).

Section Loop.
Variables S P : Type.

(** ** Sequential run: every request settles before anything else
    happens.  [net r] is the moment the request settles and its
    outcome.  The result: the final state, the requests sent, the
    timers left to fire, and how the handler ended. *)
Fixpoint perform {A} (net : Request -> Z * FetchOutcome P) (now : Z)
         (m : Async S P A) (s : S)
  : S * list Request * list (Async S P unit) * (exn + A) :=
  match m with
  | Return a => (s, [], [], inr a)
  | Throw e => (s, [], [], inl e)
  | SetState f k => perform net now k (f s)
  | Fetch r k =>
      let '(s', reqs, ts, res) := perform net (fst (net r)) (k (snd (net r))) s in
      (s', r :: reqs, ts, res)
  | DateNow k => perform net now (k now) s
  | SetTimeout cb k =>
      let '(s', reqs, ts, res) := perform net now k s in
      (s', reqs, cb :: ts, res)
  end.

Definition final_state {A} (out : S * list Request * list (Async S P unit) * (exn + A))
  : S := fst (fst (fst out)).

Definition sent {A} (out : S * list Request * list (Async S P unit) * (exn + A))
  : list Request := snd (fst (fst out)).

Definition timers_set {A} (out : S * list Request * list (Async S P unit) * (exn + A))
  : list (Async S P unit) := snd (fst out).

Definition outcome {A} (out : S * list Request * list (Async S P unit) * (exn + A))
  : exn + A := snd out.

(** ** The event loop.  The world: the component state, the timers
    waiting to fire, the handlers suspended at a [fetch]. *)
Record World : Type := {
  state : S;
  timers : list (Async S P unit);
  pending : list (FetchOutcome P -> Async S P unit)
}.

(** A handler runs until it ends or suspends at a [fetch]; the
    requests it sent are returned. *)
Fixpoint run (now : Z) (m : Async S P unit) (w : World) : World * list Request :=
  match m with
  | Return _ => (w, [])
  | Throw _ => (w, [])
  | SetState f k =>
      run now k {| state := f (state w); timers := timers w; pending := pending w |}
  | Fetch r k =>
      ({| state := state w; timers := timers w; pending := pending w ++ [k] |}, [r])
  | DateNow k => run now (k now) w
  | SetTimeout cb k =>
      run now k {| state := state w; timers := timers w ++ [cb]; pending := pending w |}
  end.

Fixpoint remove_nth {X} (i : nat) (l : list X) : list X :=
  match l, i with
  | [], _ => []
  | _ :: l', O => l'
  | x :: l', Datatypes.S i' => x :: remove_nth i' l'
  end.

(** What can happen next: a user event (the handler attached by the
    tree rendered from the current state runs), a timer fires, a
    request settles. *)
Variable Ev : Type.
Variable handler : S -> Ev -> Async S P unit.

Inductive Action : Type :=
| Event (e : Ev)
| TimerFires (i : nat)
| FetchSettles (i : nat) (o : FetchOutcome P).

Definition step (now : Z) (w : World) (a : Action) : World * list Request :=
  match a with
  | Event e => run now (handler (state w) e) w
  | TimerFires i =>
      match nth_error (timers w) i with
      | Some cb =>
          run now cb {| state := state w; timers := remove_nth i (timers w);
                        pending := pending w |}
      | None => (w, [])
      end
  | FetchSettles i o =>
      match nth_error (pending w) i with
      | Some k =>
          run now (k o) {| state := state w; timers := timers w;
                           pending := remove_nth i (pending w) |}
      | None => (w, [])
      end
  end.

(** The events the rendered tree can deliver in a state (controls
    that are rendered, values their attributes permit). *)
Variable permitted : S -> Ev -> Prop.

(** The worlds reachable from [w0], with the requests sent on the way. *)
Inductive reachable (w0 : World) : World -> list Request -> Prop :=
| reach_start : reachable w0 w0 []
| reach_event w reqs now e :
    reachable w0 w reqs -> permitted (state w) e ->
    reachable w0 (fst (step now w (Event e))) (reqs ++ snd (step now w (Event e)))
| reach_timer w reqs now i :
    reachable w0 w reqs ->
    reachable w0 (fst (step now w (TimerFires i))) (reqs ++ snd (step now w (TimerFires i)))
| reach_settle w reqs now i o :
    reachable w0 w reqs ->
    reachable w0 (fst (step now w (FetchSettles i o)))
              (reqs ++ snd (step now w (FetchSettles i o))).

(** ** Safety of a handler: every queued update keeps [Inv], every
    request is [Good], on every path and in every timer it sets. *)
Variable Inv : S -> Prop.
Variable Good : Request -> Prop.

Fixpoint Safe {A : Type} (m : Async S P A) : Prop :=
  match m with
  | Return _ => True
  | Throw _ => True
  | SetState f k => (forall s, Inv s -> Inv (f s)) /\ Safe k
  | Fetch r k => Good r /\ forall o, Safe (k o)
  | DateNow k => forall t, Safe (k t)
  | SetTimeout cb k => Safe cb /\ Safe k
  end.

Definition SafeWorld (w : World) : Prop :=
  Inv (state w)
  /\ Forall (fun cb => Safe cb) (timers w)
  /\ Forall (fun k => forall o, Safe (k o)) (pending w).

End Loop.

Arguments Event {P Ev} e.
Arguments TimerFires {P Ev} i.
Arguments FetchSettles {P Ev} i o.

End Runtime.

(* ===================================================================== *)
(** * api/searchApi.ts *)
(* ===================================================================== *)

Module Api.
Import JS Runtime.

Record MovieResult : Type := {
  title : jsstring;
  genre : jsstring;
  rating : Q + jsstring;
  description : jsstring;
  distance : option Q;
  similarity : option Q;
  score : option Q;
  hybrid_score : option Q;
  vector_similarity : option Q;
  text_score : option Q
}.

Record SearchResponse : Type := {
  results : list MovieResult;
  count : Q;
  search_type : jsstring
}.

Inductive SearchType : Type := vector | filtered | keyword | hybrid | range.

(** The string each member of the union is. *)
Definition SearchType_string (t : SearchType) : string :=
  match t with
  | vector => "vector"
  | filtered => "filtered"
  | keyword => "keyword"
  | hybrid => "hybrid"
  | range => "range"
  end.

Record HelpArticleSource : Type := {
  source_id : jsstring;
  source_title : jsstring;
  source_category : jsstring;
  source_content : jsstring;
  source_similarity : option Q
}.

Record TokenUsage : Type := {
  prompt_tokens : Q;
  completion_tokens : Q;
  total_tokens : Q
}.

Inductive Role : Type := user | assistant.

(** [timestamp] is the instant (milliseconds); the source keeps its ISO
    text. An optional member that is missing (or [null]) is [None]. *)
Record HelpChatMessage : Type := {
  id : jsstring;
  role : Role;
  content : jsstring;
  timestamp : Z;
  sources : option (list HelpArticleSource);
  fromCache : option bool;
  cacheSimilarity : option Q;
  responseTimeMs : option Q;
  tokenUsage : option TokenUsage;
  blocked : option bool
}.

Record HelpChatResponse : Type := {
  answer : jsstring;
  resp_sources : list HelpArticleSource;
  from_cache : bool;
  cache_similarity : option Q;
  response_time_ms : Q;
  token_usage : option TokenUsage;
  resp_blocked : option bool
}.

Section Client.
(** [import.meta.env.VITE_API_URL] *)
Variable VITE_API_URL : option jsstring.

(** [VITE_API_URL || '/api'] *)
Definition API_BASE : jsstring :=
  match VITE_API_URL with
  | Some u => if truthy_string u then u else lit "/api"
  | None => lit "/api"
  end.

Definition fetchApi {S P} (endpoint : jsstring) (body : object) : Async S P P :=
  response <- fetch {| url := API_BASE ++ endpoint;
                       method := "POST";
                       headers := [("Content-Type", "application/json")];
                       body := JSON_stringify body |} ;;
  if negb (ok response)
  then Throw (Error (lit "API error: " ++ Z_toString (status response)))
  else response_json response.

Definition vectorSearch {S} (params : object) : Async S SearchResponse SearchResponse :=
  fetchApi "/search/vector" params.

Definition filteredSearch {S} (params : object) : Async S SearchResponse SearchResponse :=
  fetchApi "/search/filtered" params.

Definition keywordSearch {S} (params : object) : Async S SearchResponse SearchResponse :=
  fetchApi "/search/keyword" params.

Definition hybridSearch {S} (params : object) : Async S SearchResponse SearchResponse :=
  fetchApi "/search/hybrid" params.

Definition rangeSearch {S} (params : object) : Async S SearchResponse SearchResponse :=
  fetchApi "/search/range" params.

End Client.

End Api.

(* ===================================================================== *)
(** * What a component renders *)
(* ===================================================================== *)

Module Html.
Import JS.

#[local] Unset Elimination Schemes.

(** A rendered child: a string, a number (shown by its default
    conversion), or an element with its class and children. *)
Inductive node : Type :=
| text (s : jsstring)
| number (x : Q)
| elem (tag : string) (className : string) (children : list node).

#[local] Set Elimination Schemes.

Definition span (className : string) (children : list node) : node :=
  elem "span" className children.

Definition div (className : string) (children : list node) : node :=
  elem "div" className children.

Definition class_of (n : node) : option string :=
  match n with
  | elem _ c _ => Some c
  | _ => None
  end.

Definition has_class (c : string) (n : node) : bool :=
  match class_of n with
  | Some c' => String.eqb c c'
  | None => false
  end.

End Html.

(* ===================================================================== *)
(** * components/SearchBar.tsx *)
(* ===================================================================== *)

Module SearchBar.
Import JS Runtime.

(** [handleSubmit], with [query] the text in the box at the rendering
    the form was submitted from. *)
Definition handleSubmit {S P} (query : jsstring) (onSearch : jsstring -> Async S P unit)
  : Async S P unit :=
  if truthy_string (trim query) then detach (onSearch (trim query)) else Return tt.

End SearchBar.

(* ===================================================================== *)
(** * components/SearchTypeTabs.tsx *)
(* ===================================================================== *)

Module SearchTypeTabs.
Import Api.

(** The tabs; a click on one calls [onTypeChange] with its type. *)
Definition searchTypes : list SearchType := [vector; filtered; keyword; hybrid; range].

End SearchTypeTabs.

(* ===================================================================== *)
(** * components/FilterPanel.tsx *)
(* ===================================================================== *)

Module FilterPanel.
Import JS Api.

Definition genres : list jsstring :=
  [lit "all"; lit "action"; lit "comedy"; lit "romance"].

(** The attributes of an [<input type="range">]. *)
Record RangeInput : Type := { min : Q; max : Q; step : Q }.

Inductive Control : Type :=
| GenreSelect
| MinRatingSlider
| AlphaSlider
| DistanceThresholdSlider
| NumResultsSlider.

Definition showGenreFilter (searchType : SearchType) : bool :=
  match searchType with filtered => true | _ => false end.

Definition showRatingFilter (searchType : SearchType) : bool :=
  match searchType with filtered => true | _ => false end.

Definition showAlphaSlider (searchType : SearchType) : bool :=
  match searchType with hybrid => true | _ => false end.

Definition showDistanceSlider (searchType : SearchType) : bool :=
  match searchType with range => true | _ => false end.

(** The controls the panel renders. *)
Definition FilterPanel (searchType : SearchType) : list Control :=
  if (negb (showGenreFilter searchType) && negb (showRatingFilter searchType)
      && negb (showAlphaSlider searchType) && negb (showDistanceSlider searchType))%bool
  then []
  else (if showGenreFilter searchType then [GenreSelect] else [])
       ++ (if showRatingFilter searchType then [MinRatingSlider] else [])
       ++ (if showAlphaSlider searchType then [AlphaSlider] else [])
       ++ (if showDistanceSlider searchType then [DistanceThresholdSlider] else [])
       ++ [NumResultsSlider].

(** [min], [max] and [step] of each slider ([step] is 1 when the
    attribute is not given). *)
Definition slider (c : Control) : option RangeInput :=
  match c with
  | GenreSelect => None
  | MinRatingSlider => Some {| min := 1; max := 10; step := 1 |}
  | AlphaSlider => Some {| min := 0; max := 1; step := 0.05 |}
  | DistanceThresholdSlider => Some {| min := 0.1; max := 1; step := 0.05 |}
  | NumResultsSlider => Some {| min := 1; max := 20; step := 1 |}
  end.

(** The values a range input delivers (HTML's value sanitization): on a
    step from [min], not above [max]. *)
Definition emits (r : RangeInput) (v : Q) : bool :=
  (Qle_bool (min r) v && Qle_bool v (max r)
   && Pos.eqb (Qden (Qred ((v - min r) / step r))) 1)%bool.

End FilterPanel.

(* ===================================================================== *)
(** * components/MovieCard.tsx *)
(* ===================================================================== *)

Module MovieCard.
Import JS Api Html.

Record ScoreDisplay : Type := { label : string; value : string }.

(** [movie.similarity != null] and [movie.score != null] hold for a
    member that is there ([Some]); a first test that fails falls through
    to the second. *)
Definition getScoreDisplay (movie : MovieResult) (searchType : jsstring)
  : option ScoreDisplay :=
  match (string_eqb searchType "vector" || string_eqb searchType "filtered"
         || string_eqb searchType "range")%bool,
        similarity movie with
  | true, Some sim =>
      Some {| label := "Similarity";
              value := (toFixed 1 (sim * 100) ++ "%")%string |}
  | _, _ =>
      match string_eqb searchType "keyword", score movie with
      | true, Some sc =>
          Some {| label := "BM25 Score"; value := toFixed 2 sc |}
      | _, _ =>
          (* Hybrid scores are shown in the breakdown section *)
          None
      end
  end.

(** [x?.toFixed(f) ?? 'N/A'] *)
Definition fixed_or_NA (f : nat) (x : option Q) : string :=
  match x with
  | Some v => toFixed f v
  | None => "N/A"
  end.

(** The score part of the card: the [movie-score] row and the
    [hybrid-breakdown] block, as far as they are rendered. *)
Definition MovieCard_scores (movie : MovieResult) (searchType : jsstring) : list node :=
  let scoreDisplay := getScoreDisplay movie searchType in
  (match scoreDisplay with
   | Some d =>
       [div "movie-score"
            [span "score-label" [text (label d); text ":"];
             span "score-value" [text (value d)]]]
   | None => []
   end)
  ++ (if string_eqb searchType "hybrid"
      then [div "hybrid-breakdown"
                [div "breakdown-item"
                     [span "" [text "Vector Similarity:"];
                      span "" [text (fixed_or_NA 3 (vector_similarity movie))]];
                 div "breakdown-item"
                     [span "" [text "Text Score:"];
                      span "" [text (fixed_or_NA 2 (text_score movie))]];
                 div "breakdown-item"
                     [span "" [text "Hybrid Score:"];
                      span "" [text (fixed_or_NA 3 (hybrid_score movie))]]]]
      else []).

End MovieCard.

(* ===================================================================== *)
(** * App.tsx *)
(* ===================================================================== *)

Module App.
Import JS Runtime Api.

Inductive AppPage : Type := movies | help.

(** The state hooks of [App], and [query], the one of the [SearchBar]
    it mounts. *)
Record State : Type := {
  currentPage : AppPage;
  searchType : SearchType;
  results : list MovieResult;
  isLoading : bool;
  hasSearched : bool;
  error : option jsstring;
  lastQuery : jsstring;
  genre : jsstring;
  minRating : Q;
  alpha : Q;
  distanceThreshold : Q;
  numResults : Q;
  query : jsstring
}.

Definition initial : State :=
  {| currentPage := movies; searchType := vector; results := [];
     isLoading := false; hasSearched := false; error := None;
     lastQuery := lit ""; genre := lit "all"; minRating := 1; alpha := 0.5;
     distanceThreshold := 0.5; numResults := 5; query := lit "" |}.

Definition setCurrentPage (v : AppPage) (s : State) : State :=
  {| currentPage := v; searchType := searchType s; results := results s;
     isLoading := isLoading s; hasSearched := hasSearched s; error := error s;
     lastQuery := lastQuery s; genre := genre s; minRating := minRating s;
     alpha := alpha s; distanceThreshold := distanceThreshold s;
     numResults := numResults s; query := query s |}.

Definition setSearchType (v : SearchType) (s : State) : State :=
  {| currentPage := currentPage s; searchType := v; results := results s;
     isLoading := isLoading s; hasSearched := hasSearched s; error := error s;
     lastQuery := lastQuery s; genre := genre s; minRating := minRating s;
     alpha := alpha s; distanceThreshold := distanceThreshold s;
     numResults := numResults s; query := query s |}.

Definition setResults (v : list MovieResult) (s : State) : State :=
  {| currentPage := currentPage s; searchType := searchType s; results := v;
     isLoading := isLoading s; hasSearched := hasSearched s; error := error s;
     lastQuery := lastQuery s; genre := genre s; minRating := minRating s;
     alpha := alpha s; distanceThreshold := distanceThreshold s;
     numResults := numResults s; query := query s |}.

Definition setIsLoading (v : bool) (s : State) : State :=
  {| currentPage := currentPage s; searchType := searchType s; results := results s;
     isLoading := v; hasSearched := hasSearched s; error := error s;
     lastQuery := lastQuery s; genre := genre s; minRating := minRating s;
     alpha := alpha s; distanceThreshold := distanceThreshold s;
     numResults := numResults s; query := query s |}.

Definition setHasSearched (v : bool) (s : State) : State :=
  {| currentPage := currentPage s; searchType := searchType s; results := results s;
     isLoading := isLoading s; hasSearched := v; error := error s;
     lastQuery := lastQuery s; genre := genre s; minRating := minRating s;
     alpha := alpha s; distanceThreshold := distanceThreshold s;
     numResults := numResults s; query := query s |}.

Definition setError (v : option jsstring) (s : State) : State :=
  {| currentPage := currentPage s; searchType := searchType s; results := results s;
     isLoading := isLoading s; hasSearched := hasSearched s; error := v;
     lastQuery := lastQuery s; genre := genre s; minRating := minRating s;
     alpha := alpha s; distanceThreshold := distanceThreshold s;
     numResults := numResults s; query := query s |}.

Definition setLastQuery (v : jsstring) (s : State) : State :=
  {| currentPage := currentPage s; searchType := searchType s; results := results s;
     isLoading := isLoading s; hasSearched := hasSearched s; error := error s;
     lastQuery := v; genre := genre s; minRating := minRating s; alpha := alpha s;
     distanceThreshold := distanceThreshold s; numResults := numResults s;
     query := query s |}.

Definition setGenre (v : jsstring) (s : State) : State :=
  {| currentPage := currentPage s; searchType := searchType s; results := results s;
     isLoading := isLoading s; hasSearched := hasSearched s; error := error s;
     lastQuery := lastQuery s; genre := v; minRating := minRating s;
     alpha := alpha s; distanceThreshold := distanceThreshold s;
     numResults := numResults s; query := query s |}.

Definition setMinRating (v : Q) (s : State) : State :=
  {| currentPage := currentPage s; searchType := searchType s; results := results s;
     isLoading := isLoading s; hasSearched := hasSearched s; error := error s;
     lastQuery := lastQuery s; genre := genre s; minRating := v; alpha := alpha s;
     distanceThreshold := distanceThreshold s; numResults := numResults s;
     query := query s |}.

Definition setAlpha (v : Q) (s : State) : State :=
  {| currentPage := currentPage s; searchType := searchType s; results := results s;
     isLoading := isLoading s; hasSearched := hasSearched s; error := error s;
     lastQuery := lastQuery s; genre := genre s; minRating := minRating s;
     alpha := v; distanceThreshold := distanceThreshold s;
     numResults := numResults s; query := query s |}.

Definition setDistanceThreshold (v : Q) (s : State) : State :=
  {| currentPage := currentPage s; searchType := searchType s; results := results s;
     isLoading := isLoading s; hasSearched := hasSearched s; error := error s;
     lastQuery := lastQuery s; genre := genre s; minRating := minRating s;
     alpha := alpha s; distanceThreshold := v; numResults := numResults s;
     query := query s |}.

Definition setNumResults (v : Q) (s : State) : State :=
  {| currentPage := currentPage s; searchType := searchType s; results := results s;
     isLoading := isLoading s; hasSearched := hasSearched s; error := error s;
     lastQuery := lastQuery s; genre := genre s; minRating := minRating s;
     alpha := alpha s; distanceThreshold := distanceThreshold s; numResults := v;
     query := query s |}.

Definition setQuery (v : jsstring) (s : State) : State :=
  {| currentPage := currentPage s; searchType := searchType s; results := results s;
     isLoading := isLoading s; hasSearched := hasSearched s; error := error s;
     lastQuery := lastQuery s; genre := genre s; minRating := minRating s;
     alpha := alpha s; distanceThreshold := distanceThreshold s;
     numResults := numResults s; query := v |}.

Section WithEnv.
Variable VITE_API_URL : option jsstring.

(** The path each search type is sent to ([vectorSearch],
    [filteredSearch], [keywordSearch], [hybridSearch], [rangeSearch]). *)
Definition endpoint (t : SearchType) : string :=
  match t with
  | vector => "/search/vector"
  | filtered => "/search/filtered"
  | keyword => "/search/keyword"
  | hybrid => "/search/hybrid"
  | range => "/search/range"
  end.

(** [handleSearch] of the rendering with state [r]: the values it
    reads are the ones [r] had.  ([useCallback] lists every value the
    body reads among its dependencies, so the memoised function is the
    one of the current rendering.)  [SearchType] has five members, the
    [default] branch of the [switch] is never taken. *)
Definition handleSearch (r : State) (query : jsstring)
  : Async State SearchResponse unit :=
  set (setIsLoading true) ;;
  set (setError None) ;;
  set (setHasSearched true) ;;
  set (setLastQuery query) ;;
  try_finally
    (try_catch
       (response <-
          match searchType r with
          | vector =>
              vectorSearch VITE_API_URL
                [("query", Str query); ("num_results", Num (numResults r))]
          | filtered =>
              filteredSearch VITE_API_URL
                [("query", Str query);
                 ("num_results", Num (numResults r));
                 ("genre", if negb (string_eqb (genre r) "all")
                           then Str (genre r) else Undefined);
                 ("min_rating", if gt (minRating r) 1
                                then Num (minRating r) else Undefined)]
          | keyword =>
              keywordSearch VITE_API_URL
                [("query", Str query); ("num_results", Num (numResults r))]
          | hybrid =>
              hybridSearch VITE_API_URL
                [("query", Str query); ("num_results", Num (numResults r));
                 ("alpha", Num (alpha r))]
          | range =>
              rangeSearch VITE_API_URL
                [("query", Str query); ("num_results", Num (numResults r));
                 ("distance_threshold", Num (distanceThreshold r))]
          end ;;
        set (setResults (Api.results response)))
       (fun err =>
          set (setError (Some match err with
                              | Error message => message
                              | Thrown => lit "An error occurred while searching"
                              end)) ;;
          set (setResults [])))
    (set (setIsLoading false)).

(** Re-run search when search type or filters change (if we have a
    query). *)
Definition handleSearchTypeChange (r : State) (type : SearchType)
  : Async State SearchResponse unit :=
  set (setSearchType type) ;;
  if (truthy_string (lastQuery r) && hasSearched r)%bool
  then setTimeout (detach (handleSearch r (lastQuery r)))
  else Return tt.

(** The members of the request text of a search for [q] from the
    rendering [r], by mode, and the request itself ([handleSearch] is
    proved to send exactly this one). *)
Definition searchParams (r : State) (q : jsstring) : object :=
  [("query", Str q); ("num_results", Num (numResults r))]
  ++ match searchType r with
     | vector => []
     | filtered =>
         (if string_eqb (genre r) "all" then [] else [("genre", Str (genre r))])
         ++ (if gt (minRating r) 1 then [("min_rating", Num (minRating r))] else [])
     | keyword => []
     | hybrid => [("alpha", Num (alpha r))]
     | range => [("distance_threshold", Num (distanceThreshold r))]
     end.

Definition searchRequest (r : State) (q : jsstring) : Request :=
  {| url := API_BASE VITE_API_URL ++ lit (endpoint (searchType r));
     method := "POST";
     headers := [("Content-Type", "application/json")];
     body := searchParams r q |}.

(** ** The events of the movie page: the navigation buttons, the text
    box and the form of the search bar, the tabs, and the controls of the
    filter panel (a slider delivers [Number(e.target.value)]). *)
Inductive Event : Type :=
| Navigate (p : AppPage)
| TypeQuery (v : jsstring)
| SubmitSearch
| ClickTab (t : SearchType)
| ChangeGenre (v : jsstring)
| ChangeMinRating (v : Q)
| ChangeAlpha (v : Q)
| ChangeDistanceThreshold (v : Q)
| ChangeNumResults (v : Q).

(** The handler the tree rendered from [r] attaches to each event.
    Leaving the movie page unmounts the search bar, whose text starts
    empty again. *)
Definition handler (r : State) (e : Event) : Async State SearchResponse unit :=
  match e with
  | Navigate p =>
      set (setCurrentPage p) ;;
      match p with
      | help => set (setQuery (lit ""))
      | movies => Return tt
      end
  | TypeQuery v => set (setQuery v)
  | SubmitSearch => SearchBar.handleSubmit (query r) (handleSearch r)
  | ClickTab t => handleSearchTypeChange r t
  | ChangeGenre v => set (setGenre v)
  | ChangeMinRating v => set (setMinRating v)
  | ChangeAlpha v => set (setAlpha v)
  | ChangeDistanceThreshold v => set (setDistanceThreshold v)
  | ChangeNumResults v => set (setNumResults v)
  end.

Definition slides (c : FilterPanel.Control) (r : State) (v : Q) : Prop :=
  In c (FilterPanel.FilterPanel (searchType r))
  /\ exists sl, FilterPanel.slider c = Some sl /\ FilterPanel.emits sl v = true.

(** The events a rendering can deliver: the control is on the page
    and the value is one it offers.  The [disabled] attributes are not
    relied on: a submit is let through whatever the text and the
    loading flag are, and the handlers' own guards decide. *)
Definition permitted (r : State) (e : Event) : Prop :=
  match e with
  | Navigate _ => True
  | TypeQuery _ | SubmitSearch => currentPage r = movies
  | ClickTab t => currentPage r = movies /\ In t SearchTypeTabs.searchTypes
  | ChangeGenre v =>
      currentPage r = movies
      /\ In FilterPanel.GenreSelect (FilterPanel.FilterPanel (searchType r))
      /\ In v FilterPanel.genres
  | ChangeMinRating v =>
      currentPage r = movies /\ slides FilterPanel.MinRatingSlider r v
  | ChangeAlpha v =>
      currentPage r = movies /\ slides FilterPanel.AlphaSlider r v
  | ChangeDistanceThreshold v =>
      currentPage r = movies /\ slides FilterPanel.DistanceThresholdSlider r v
  | ChangeNumResults v =>
      currentPage r = movies /\ slides FilterPanel.NumResultsSlider r v
  end.

Definition start : World State SearchResponse :=
  {| state := initial; timers := []; pending := [] |}.

(** ** What is claimed of the requests *)

(** The option values of a rendering lie in the ranges of their
    sliders. *)
Definition options_in_range (r : State) : Prop :=
  (1 <= numResults r /\ numResults r <= 20)
  /\ (0 <= alpha r /\ alpha r <= 1)
  /\ (0.1 <= distanceThreshold r /\ distanceThreshold r <= 1)
  /\ (1 <= minRating r /\ minRating r <= 10).

(** The request carries a query, and it is not the empty string. *)
Definition query_nonempty (req : Request) : Prop :=
  exists q, lookup "query" (body req) = Some (Str q) /\ q <> [].

(** The request carries [num_results] within 1..20, and [alpha],
    [distance_threshold], [min_rating], where present, within their
    ranges. *)
Definition ranges_ok (req : Request) : Prop :=
  (exists n, lookup "num_results" (body req) = Some (Num n) /\ 1 <= n /\ n <= 20)
  /\ (forall v, lookup "alpha" (body req) = Some v ->
                exists a, v = Num a /\ 0 <= a /\ a <= 1)
  /\ (forall v, lookup "distance_threshold" (body req) = Some v ->
                exists d, v = Num d /\ 0.1 <= d /\ d <= 1)
  /\ (forall v, lookup "min_rating" (body req) = Some v ->
                exists m, v = Num m /\ 1 <= m /\ m <= 10).

(** A request of the movie page: the search request of some rendering
    with options in range, for some non-empty query. *)
Definition good_request (req : Request) : Prop :=
  exists r q, options_in_range r /\ q <> [] /\ req = searchRequest r q.

End WithEnv.

End App.

(* ===================================================================== *)
(** * components/HelpChat.tsx *)
(* ===================================================================== *)

Module HelpChat.
Import JS Runtime Api Html.

Record State : Type := {
  messages : list HelpChatMessage;
  input : jsstring;
  isLoading : bool
}.

Definition initial : State :=
  {| messages := []; input := lit ""; isLoading := false |}.

(** [setMessages] is always called with an updater. *)
Definition setMessages (f : list HelpChatMessage -> list HelpChatMessage) (s : State)
  : State :=
  {| messages := f (messages s); input := input s; isLoading := isLoading s |}.

Definition setInput (v : jsstring) (s : State) : State :=
  {| messages := messages s; input := v; isLoading := isLoading s |}.

Definition setIsLoading (v : bool) (s : State) : State :=
  {| messages := messages s; input := input s; isLoading := v |}.

Definition userMessage (now date : Z) (text : jsstring) : HelpChatMessage :=
  {| id := Z_toString now; role := user; content := text; timestamp := date;
     sources := None; fromCache := None; cacheSimilarity := None;
     responseTimeMs := None; tokenUsage := None; blocked := None |}.

Definition botMessage (now date : Z) (data : HelpChatResponse) : HelpChatMessage :=
  {| id := Z_toString (now + 1); role := assistant; content := answer data;
     timestamp := date;
     sources := Some (resp_sources data);
     fromCache := Some (from_cache data);
     cacheSimilarity := cache_similarity data;
     responseTimeMs := Some (response_time_ms data);
     tokenUsage := token_usage data;
     blocked := resp_blocked data |}.

Definition errorMessage (now date : Z) : HelpChatMessage :=
  {| id := Z_toString (now + 1); role := assistant;
     content := lit "Sorry, I encountered an error. Please try again.";
     timestamp := date;
     sources := None; fromCache := None; cacheSimilarity := None;
     responseTimeMs := None; tokenUsage := None; blocked := None |}.

(** The request of one chat turn. *)
Definition chatRequest (text : jsstring) : Request :=
  {| url := lit "/api/help/chat";
     method := "POST";
     headers := [("Content-Type", "application/json")];
     body := JSON_stringify [("message", Str text); ("use_cache", Bool true)] |}.

(** [sendMessage] of the rendering with state [r] ([isLoading] is the
    value that rendering had). *)
Definition sendMessage (r : State) (text : jsstring)
  : Async State HelpChatResponse unit :=
  if (negb (truthy_string (trim text)) || isLoading r)%bool then Return tt
  else
    (* Add user message *)
    now <- Date_now ;;
    date <- new_Date ;;
    set (setMessages (fun prev => prev ++ [userMessage now date text])) ;;
    set (setInput (lit "")) ;;
    set (setIsLoading true) ;;
    try_finally
      (try_catch
         (response <- fetch (chatRequest text) ;;
          if negb (ok response)
          then Throw (Error (lit "Failed to get response"))
          else
            data <- response_json response ;;
            (* Add bot message *)
            now <- Date_now ;;
            date <- new_Date ;;
            set (setMessages (fun prev => prev ++ [botMessage now date data])))
         (fun _ =>
            (* Add error message *)
            now <- Date_now ;;
            date <- new_Date ;;
            set (setMessages (fun prev => prev ++ [errorMessage now date]))))
      (set (setIsLoading false)).

Definition handleSubmit (r : State) : Async State HelpChatResponse unit :=
  detach (sendMessage r (input r)).

Definition handleSuggestionClick (r : State) (suggestion : jsstring)
  : Async State HelpChatResponse unit :=
  detach (sendMessage r suggestion).

(** ** The events of the chat: the text box, the form, and the
    suggestion buttons. *)
Inductive Event : Type :=
| TypeInput (v : jsstring)
| SubmitForm
| ClickSuggestion (suggestion : jsstring).

Definition handler (r : State) (e : Event) : Async State HelpChatResponse unit :=
  match e with
  | TypeInput v => set (setInput v)
  | SubmitForm => handleSubmit r
  | ClickSuggestion suggestion => handleSuggestionClick r suggestion
  end.

(** The suggestion buttons show the first four suggestions before the
    chat starts and the first three after.  As on the movie page, the
    [disabled] attributes are not relied on. *)
Definition permitted (suggestions : list jsstring) (r : State) (e : Event) : Prop :=
  match e with
  | TypeInput _ => True
  | SubmitForm => True
  | ClickSuggestion suggestion =>
      In suggestion
         (firstn (match messages r with [] => 4 | _ :: _ => 3 end) suggestions)
  end.

Definition start : World State HelpChatResponse :=
  {| state := initial; timers := []; pending := [] |}.

(** ** What is claimed of the requests *)

(** A request of the chat: the request of a turn whose text is not
    white space only. *)
Definition good_request (req : Request) : Prop :=
  exists text, trim text <> [] /\ req = chatRequest text.

(** The request carries a message, and it is not the empty string. *)
Definition message_nonempty (req : Request) : Prop :=
  exists text, lookup "message" (body req) = Some (Str text) /\ text <> [].

(** The request failed: [fetch] threw, or the status is not OK. *)
Definition fetch_failed (o : FetchOutcome HelpChatResponse) : Prop :=
  match o with
  | Rejected _ => True
  | Resolved resp => ok resp = false
  end.

(** ** [MessageBubble]: the [response-info] line *)

(** Truthiness of an optional boolean member. *)
Definition truthy_flag (b : option bool) : bool :=
  match b with Some true => true | _ => false end.

Definition statusBadge (message : HelpChatMessage) : node :=
  if truthy_flag (blocked message) then span "blocked-badge" [text "Off-topic"]
  else if truthy_flag (fromCache message) then span "cache-badge" [text "Cached"]
  else span "llm-badge" [text "LLM"].

(** [{a && b && <span/>}] renders the span when both are truthy, and
    the number itself when [b] is the first falsy operand and is 0. *)
Definition responseInfo (message : HelpChatMessage) : list node :=
  match role message with
  | assistant =>
      [div "response-info"
           ([statusBadge message]
            ++ match responseTimeMs message with
               | Some ms => [span "response-time" [number ms; text "ms"]]
               | None => []
               end
            ++ match tokenUsage message with
               | Some usage =>
                   [span "token-usage" [number (total_tokens usage); text " tokens"]]
               | None => []
               end
            ++ (if truthy_flag (fromCache message)
                then match cacheSimilarity message with
                     | Some sim =>
                         if truthy_number sim
                         then [span "cache-similarity"
                                    [text (toFixed 0 (sim * 100)); text "% match"]]
                         else [number sim]
                     | None => []
                     end
                else []))]
  | user => []
  end.

(** The children of the [response-info] line of a message. *)
Definition infoItems (message : HelpChatMessage) : list node :=
  match responseInfo message with
  | [elem _ _ items] => items
  | _ => []
  end.

Definition is_badge (n : node) : bool :=
  (has_class "blocked-badge" n || has_class "cache-badge" n || has_class "llm-badge" n)%bool.

End HelpChat.

(* ===================================================================== *)
(** * pages/HelpCenter.tsx *)
(* ===================================================================== *)

Module HelpCenter.
Import JS Html.

(** The statistics as the text of the response has them: a number is the
    number written there, and reading it gives its Number value
    ([Double.round]).  The members the page reads with [?.] and [||] may
    be missing or [null]. *)
Record CacheStats : Type := {
  name : jsstring;
  ttl : option Q;
  distance_threshold : option Q;
  num_entries : option Q;
  status : option jsstring
}.

Record HelpStats : Type := {
  index_name : jsstring;
  num_articles : Q;
  index_status : jsstring;
  cache_stats : option CacheStats
}.

(** [stats.cache_stats?.distance_threshold] *)
Definition threshold (stats : HelpStats) : option Double.double :=
  match cache_stats stats with
  | Some c =>
      match distance_threshold c with
      | Some d => Some (Double.round d)
      | None => None
      end
  | None => None
  end.

(** [x || 0] for a number that may be missing. *)
Definition or_0 (x : option Double.double) : Double.double :=
  match x with
  | Some v => if Double.truthy v then v else Double.Finite 0
  | None => Double.Finite 0
  end.

(** [stats.cache_stats?.distance_threshold || 0] *)
Definition distance_or_0 (stats : HelpStats) : Double.double :=
  or_0 (threshold stats).

(** [(1 - d) * 100] *)
Definition similarityPercent (d : Double.double) : Double.double :=
  Double.mul (Double.sub (Double.Finite 1) d) (Double.Finite 100).

(** [x.toFixed(0)] as a child of an element.  A number that is not
    finite gives its name.  From [10^21] on [toFixed] gives the default
    conversion of the number, which is what a [number] child shows.
    Below that it gives the digits of the closest whole number. *)
Definition toFixed_0 (x : Double.double) : node :=
  match x with
  | Double.NaN => text "NaN"
  | Double.Infinity false => text "Infinity"
  | Double.Infinity true => text "-Infinity"
  | Double.Finite q =>
      if Qle_bool (inject_Z (10 ^ 21)) (Qabs q) then number q
      else text (toFixed 0 q)
  end.

(** The children of the "Similarity Threshold" value: the number and
    the per cent sign. *)
Definition similarityThreshold (stats : HelpStats) : list node :=
  [toFixed_0 (similarityPercent (distance_or_0 stats)); text "%"].

(** The "Similarity Threshold" item of the stats panel, rendered when
    the panel is open and the stats have arrived. *)
Definition similarityItem (showStats : bool) (stats : option HelpStats) : list node :=
  match showStats, stats with
  | true, Some st =>
      [div "stat-item"
           [span "stat-label" [text "Similarity Threshold"];
            span "stat-value" (similarityThreshold st)]]
  | _, _ => []
  end.

(** The whole number that the digits of [q.toFixed(0)] spell, with its
    sign. *)
Definition whole (q : Q) : Z :=
  if Qlt_le_dec q 0 then (- Z.of_N (toFixed_n 0 q))%Z else Z.of_N (toFixed_n 0 q).

End HelpCenter.

(* ===================================================================== *)
(** * Concrete states and answers *)
(* ===================================================================== *)

Module Scenario.
Import JS Runtime Api.

(** A network on which every request is rejected. *)
Definition no_answer {P} : Request -> Z * FetchOutcome P :=
  fun _ => (1%Z, Rejected (Error (lit "Failed to fetch"))).


(** The movie page with the filtered tab, genre romance, rating 7. *)
Definition filtered_romance_7 : App.State :=
  App.setMinRating 7 (App.setGenre (lit "romance")
                                   (App.setSearchType filtered App.initial)).

(** The movie page after a vector search for "heist". *)
Definition after_vector_search : World App.State SearchResponse :=
  {| state := App.setLastQuery (lit "heist") (App.setHasSearched true App.initial);
     timers := [];
     pending := [] |}.

(** The movie page after " heist " was typed in the search box, and
    after the form was then submitted. *)
Definition typed : World App.State SearchResponse * list Request :=
  step (App.handler None) 0 App.start (Event (App.TypeQuery (lit " heist "))).

Definition submitted : World App.State SearchResponse * list Request :=
  step (App.handler None) 1 (fst typed) (Event App.SubmitSearch).

(** The chat after the suggestion "I forgot my password" was clicked. *)
Definition suggestions : list jsstring :=
  [lit "Why can't I watch this movie?"; lit "How do I change my plan?";
   lit "Why is playback blurry?"; lit "I forgot my password"].

Definition asked : World HelpChat.State HelpChatResponse * list Request :=
  step HelpChat.handler 0 HelpChat.start
       (Event (HelpChat.ClickSuggestion (lit "I forgot my password"))).

(** A network that answers every request with status 500. *)
Definition server_error {P} : Request -> Z * FetchOutcome P :=
  fun _ => (2%Z, Resolved {| ok := false; status := 500;
                             json := inl (Error (lit "Unexpected token")) |}).

(** An assistant message that is both blocked and from the cache. *)
Definition blocked_and_cached : HelpChatMessage :=
  {| id := lit "2"; role := assistant; content := lit "I can only help with StreamFlix.";
     timestamp := 1; sources := Some []; fromCache := Some true;
     cacheSimilarity := Some 0.97; responseTimeMs := Some 12;
     tokenUsage := None; blocked := Some true |}.

(** A search result with a similarity only. *)
Definition heat : MovieResult :=
  {| title := lit "Heat"; genre := lit "action"; rating := inl 8;
     description := lit "A crew of thieves and the detective after them.";
     distance := Some 0.1433; similarity := Some 0.8567; score := None;
     hybrid_score := None; vector_similarity := None; text_score := None |}.

(** Help stats that came without cache stats. *)
Definition stats_without_cache : HelpCenter.HelpStats :=
  {| HelpCenter.index_name := lit "help_articles"; HelpCenter.num_articles := 30;
     HelpCenter.index_status := lit "active"; HelpCenter.cache_stats := None |}.

(** Help stats of a cache with the distance threshold [d]. *)
Definition stats_with_threshold (d : Q) : HelpCenter.HelpStats :=
  {| HelpCenter.index_name := lit "help_articles"; HelpCenter.num_articles := 30;
     HelpCenter.index_status := lit "active";
     HelpCenter.cache_stats :=
       Some {| HelpCenter.name := lit "help_cache"; HelpCenter.ttl := Some 3600;
               HelpCenter.distance_threshold := Some d;
               HelpCenter.num_entries := Some 12;
               HelpCenter.status := Some (lit "active") |} |}.

End Scenario.

(* ===================================================================== *)
(** * components/ResultsGrid.tsx, and what App renders around it *)
(* ===================================================================== *)

Module ResultsGrid.
Import JS Api.

(** The props of one [MovieCard] of the grid. *)
Record Card : Type := {
  card_movie : MovieResult;
  card_index : nat;
  card_searchType : jsstring
}.

(** What the grid returns: the spinner, the invitation to search, the
    "No Results Found" notice, or the header ([results.length] movies
    found, the search type) over one card per result. *)
Inductive View : Type :=
| Loading
| Discover
| NoResults
| Grid (count : nat) (searchType : jsstring) (cards : list Card).

(** [results.map((movie, index) => <MovieCard .../>)], from index [i]. *)
Fixpoint cards (i : nat) (results : list MovieResult) (searchType : jsstring)
  : list Card :=
  match results with
  | [] => []
  | movie :: rest =>
      {| card_movie := movie; card_index := i; card_searchType := searchType |}
        :: cards (S i) rest searchType
  end.

Definition ResultsGrid (results : list MovieResult) (searchType : jsstring)
           (isLoading hasSearched : bool) : View :=
  if isLoading then Loading
  else if negb hasSearched then Discover
  else if Nat.eqb (List.length results) 0 then NoResults
  else Grid (List.length results) searchType (cards 0 results searchType).

(** The score part a card of the grid shows. *)
Definition card_scores (c : Card) : list Html.node :=
  MovieCard.MovieCard_scores (card_movie c) (card_searchType c).

End ResultsGrid.

Module AppView.
Import JS Api Html.

(** [{error && <div className="error-banner">{error}</div>}]: an empty
    message is falsy and renders nothing. *)
Definition errorBanner (s : App.State) : list node :=
  match App.error s with
  | Some message =>
      if truthy_string message then [div "error-banner" [text message]] else []
  | None => []
  end.

(** The [ResultsGrid] App renders, with the props it passes. *)
Definition resultsGrid (s : App.State) : ResultsGrid.View :=
  ResultsGrid.ResultsGrid (App.results s) (SearchType_string (App.searchType s))
                          (App.isLoading s) (App.hasSearched s).

End AppView.

(* ===================================================================== *)
(** * The movie page: what holds of its worlds *)
(* ===================================================================== *)

Module MoviePage.
Import JS Runtime Api.

(** [hasSearched] and [lastQuery] go together, and the last query has no
    white space around it. *)
Definition searched_consistent (s : App.State) : Prop :=
  (App.hasSearched s = true <-> App.lastQuery s <> [])
  /\ trim (App.lastQuery s) = App.lastQuery s.

(** A timer of the page: a search for a trimmed, non-empty query. *)
Definition is_rerun (env : option jsstring) (cb : Async App.State SearchResponse unit)
  : Prop :=
  exists r q, cb = detach (App.handleSearch env r q) /\ q <> [] /\ trim q = q.

(** A suspended handler that, when its request settles, sends nothing,
    sets no timer and leaves [hasSearched] and [lastQuery] alone. *)
Definition is_quiet (k : FetchOutcome SearchResponse -> Async App.State SearchResponse unit)
  : Prop :=
  forall o now w,
    snd (run now (k o) w) = []
    /\ timers (fst (run now (k o) w)) = timers w
    /\ pending (fst (run now (k o) w)) = pending w
    /\ App.hasSearched (state (fst (run now (k o) w))) = App.hasSearched (state w)
    /\ App.lastQuery (state (fst (run now (k o) w))) = App.lastQuery (state w).

Definition world_consistent (env : option jsstring)
           (w : World App.State SearchResponse) : Prop :=
  searched_consistent (state w)
  /\ Forall (is_rerun env) (timers w)
  /\ Forall is_quiet (pending w).

(** A response that arrived with an OK status and a text that parsed. *)
Definition answered (data : SearchResponse) : FetchOutcome SearchResponse :=
  Resolved {| ok := true; status := 200; json := inr data |}.

(** The updates [handleSearch] queues before it sends its request. *)
Definition begun (q : jsstring) (s : App.State) : App.State :=
  App.setLastQuery q (App.setHasSearched true (App.setError None (App.setIsLoading true s))).

(** The message [handleSearch] shows for what was thrown. *)
Definition shown_message (e : exn) : jsstring :=
  match e with
  | Error message => message
  | Thrown => lit "An error occurred while searching"
  end.

(** What is thrown at [await vectorSearch(...)] and its siblings when the
    request does not bring a result. *)
Definition failure_of (o : FetchOutcome SearchResponse) : option exn :=
  match o with
  | Rejected e => Some e
  | Resolved resp =>
      if ok resp
      then match json resp with
           | inl e => Some e
           | inr _ => None
           end
      else Some (Error (lit "API error: " ++ Z_toString (status resp)))
  end.

(** The updates [handleSearch] queues once its request has settled: the
    results on success, the message and no results on failure, and the
    loading flag off in both cases. *)
Definition settled (o : FetchOutcome SearchResponse) (s : App.State) : App.State :=
  match failure_of o, o with
  | Some e, _ =>
      App.setIsLoading false
        (App.setResults [] (App.setError (Some (shown_message e)) s))
  | None, Resolved {| json := inr data |} =>
      App.setIsLoading false (App.setResults (Api.results data) s)
  | None, _ => s
  end.

End MoviePage.

(* ===================================================================== *)
(** * components/HelpChat.tsx: the sources of a message *)
(* ===================================================================== *)

Module ChatView.
Import JS Api Html.

(** [{x && <span/>}] for a number [x] that may be missing: the span when
    the number is truthy, the number itself when it is 0, nothing when it
    is missing. *)
Definition number_and (x : option Q) (shown : Q -> list node) : list node :=
  match x with
  | Some v => if truthy_number v then shown v else [number v]
  | None => []
  end.

(** [SourceCard], with its [expanded] state.  (The colour of the category
    is a style, which the tree does not carry.) *)
Definition SourceCard (source : HelpArticleSource) (expanded : bool) : node :=
  div "source-card"
      ([div "source-header"
            ([span "source-category" [text (source_category source)];
              span "source-title" [text (source_title source)]]
             ++ number_and (source_similarity source)
                  (fun sim => [span "source-similarity"
                                    [text (toFixed 0 (sim * 100)); text "%"]])
             ++ [span "expand-icon"
                      [text (if expanded then [0x2212%N] else lit "+")]])]
       ++ (if expanded
           then [div "source-content" [text (source_content source)]]
           else [])).

(** The sources accordion of [MessageBubble], with its [showSources]
    state and the [expanded] state of each card. *)
Definition sourcesSection (message : HelpChatMessage) (showSources : bool)
           (expanded : HelpArticleSource -> bool) : list node :=
  match sources message with
  | Some ((_ :: _) as srcs) =>
      [div "sources-section"
           ([elem "button" "sources-toggle"
                  [span "sources-icon"
                        [text (if showSources then [0x25BC%N] else [0x25B6%N])];
                   number (inject_Z (Z.of_nat (List.length srcs)));
                   text " source";
                   text (if Nat.ltb 1 (List.length srcs) then lit "s" else lit "")]]
            ++ (if showSources
                then [div "sources-list"
                          (List.map (fun source => SourceCard source (expanded source))
                                    srcs)]
                else []))]
  | _ => []
  end.

(** A suggestion button: its text, which a click passes to
    [handleSuggestionClick], and its [disabled] attribute. *)
Record SuggestionButton : Type := {
  button_text : jsstring;
  button_disabled : bool
}.

(** [suggestions.slice(0, n).map(...)]: one button for each of the first
    [n] suggestions, [disabled={isLoading}]. *)
Definition suggestionButtons (n : nat) (suggestions : list jsstring)
           (s : HelpChat.State) : list SuggestionButton :=
  List.map (fun suggestion =>
              {| button_text := suggestion; button_disabled := HelpChat.isLoading s |})
           (firstn n suggestions).

(** The messages area of [HelpChat]: the welcome screen with the buttons
    of the first four suggestions while there is no message; after that
    the bubbles of the messages, and the typing indicator behind them
    while the loading flag is on. *)
Inductive MessagesArea : Type :=
| Welcome (buttons : list SuggestionButton)
| Transcript (bubbles : list HelpChatMessage) (typing : bool).

Definition messagesArea (suggestions : list jsstring) (s : HelpChat.State)
  : MessagesArea :=
  match HelpChat.messages s with
  | [] => Welcome (suggestionButtons 4 suggestions s)
  | (_ :: _) as messages => Transcript messages (HelpChat.isLoading s)
  end.

(** Quick Suggestions (visible after chat starts): the buttons of the
    first three suggestions. *)
Definition quickSuggestions (suggestions : list jsstring) (s : HelpChat.State)
  : list SuggestionButton :=
  match HelpChat.messages s with
  | [] => []
  | _ :: _ => suggestionButtons 3 suggestions s
  end.

(** The typing indicator is on the page. *)
Definition typing (area : MessagesArea) : bool :=
  match area with
  | Welcome _ => false
  | Transcript _ t => t
  end.

(** The suggestion buttons on the page. *)
Definition buttonsOnPage (suggestions : list jsstring) (s : HelpChat.State)
  : list SuggestionButton :=
  match messagesArea suggestions s with
  | Welcome buttons => buttons ++ quickSuggestions suggestions s
  | Transcript _ _ => quickSuggestions suggestions s
  end.

End ChatView.

(* ===================================================================== *)
(** * The help chat: what holds of its worlds *)
(* ===================================================================== *)

Module ChatPage.
Import JS Runtime Api.

(** A suspended turn: when its request settles it appends one assistant
    message, switches the loading flag off, and does nothing else. *)
Definition finishes (k : FetchOutcome HelpChatResponse
                         -> Async HelpChat.State HelpChatResponse unit) : Prop :=
  forall o now w,
  exists m,
    role m = assistant
    /\ run now (k o) w
       = ({| state := HelpChat.setIsLoading false
                        (HelpChat.setMessages (fun prev => prev ++ [m]) (state w));
             timers := timers w;
             pending := pending w |},
          []).

(** The roles of a transcript of [n] finished turns, and one more user
    message when a turn is open. *)
Fixpoint turns (n : nat) (open : bool) : list Role :=
  match n with
  | O => if open then [user] else []
  | S n' => user :: assistant :: turns n' open
  end.

Definition world_ok (w : World HelpChat.State HelpChatResponse) (reqs : list Request)
  : Prop :=
  timers w = []
  /\ (if HelpChat.isLoading (state w)
      then exists k, pending w = [k] /\ finishes k
      else pending w = [])
  /\ exists n,
      List.map role (HelpChat.messages (state w))
      = turns n (HelpChat.isLoading (state w))
      /\ List.length reqs = (n + if HelpChat.isLoading (state w) then 1 else 0)%nat.

(** A response that arrived with an OK status and a text that parsed. *)
Definition answered (data : HelpChatResponse) : FetchOutcome HelpChatResponse :=
  Resolved {| ok := true; status := 200; json := inr data |}.

End ChatPage.

(* ===================================================================== *)
(** * components/HelpChat.tsx: [formatContent] *)
(* ===================================================================== *)

Module FormatContent.
Import JS.

Definition LF : N := 0xA.
Definition STAR : N := 0x2A.
Definition DOT : N := 0x2E.

(** [s.startsWith(prefix)] *)
Fixpoint startsWith (s prefix : jsstring) {struct prefix} : bool :=
  match prefix, s with
  | [], _ => true
  | _ :: _, [] => false
  | c :: prefix', d :: s' => N.eqb c d && startsWith s' prefix'
  end.

(** [s.endsWith(suffix)] *)
Definition endsWith (s suffix : jsstring) : bool := startsWith (rev s) (rev suffix).

(** [s.includes(part)] *)
Fixpoint includes (s part : jsstring) : bool :=
  (startsWith s part
   || match s with
      | [] => false
      | _ :: s' => includes s' part
      end)%bool.

(** [s.slice(2, -2)]: from index [min(2, length)] up to index
    [max(length - 2, 0)], empty when the second is not beyond the first. *)
Definition slice_2_minus_2 (s : jsstring) : jsstring :=
  firstn ((List.length s - 2) - Nat.min 2 (List.length s)) (skipn 2 s).

(** [s.slice(2)] *)
Definition slice_2 (s : jsstring) : jsstring := skipn 2 s.

(** The first piece of a split gets one more code unit in front. *)
Definition cons_first (c : N) (pieces : list jsstring) : list jsstring :=
  match pieces with
  | p :: rest => (c :: p) :: rest
  | [] => [[c]]
  end.

(** [s.split('\n')]: the pieces between the line feeds, from the left. *)
Fixpoint split_LF (s : jsstring) : list jsstring :=
  match s with
  | [] => [[]]
  | c :: s' => if N.eqb c LF then [] :: split_LF s' else cons_first c (split_LF s')
  end.

(** [s.split('\n\n')]: the pieces between the pairs of line feeds, the
    pairs taken from the left and without overlap. *)
Fixpoint split_LFLF (s : jsstring) : list jsstring :=
  match s with
  | [] => [[]]
  | c :: s' =>
      match s' with
      | d :: s'' =>
          if (N.eqb c LF && N.eqb d LF)%bool
          then [] :: split_LFLF s''
          else cons_first c (split_LFLF s')
      | [] => [[c]]
      end
  end.

(** [pieces.join(sep)] *)
Fixpoint join (sep : jsstring) (pieces : list jsstring) : jsstring :=
  match pieces with
  | [] => []
  | [p] => p
  | p :: rest => p ++ sep ++ join sep rest
  end.

(** [\d] *)
Definition isDigit (c : N) : bool := (N.leb 0x30 c && N.leb c 0x39)%bool.

(** The line terminators, which [.] does not match. *)
Definition isLineTerminator (c : N) : bool :=
  (N.eqb c 0xA || N.eqb c 0xD || N.eqb c 0x2028 || N.eqb c 0x2029)%bool.

Fixpoint skip_digits (s : jsstring) : jsstring :=
  match s with
  | [] => []
  | c :: s' => if isDigit c then skip_digits s' else s
  end.

(** What follows a match of [/^\d+\./] at the start of [s], if there is
    one: one digit or more, then a dot. *)
Definition after_number (s : jsstring) : option jsstring :=
  match s with
  | c :: s' =>
      if isDigit c
      then match skip_digits s' with
           | d :: rest => if N.eqb d DOT then Some rest else None
           | [] => None
           end
      else None
  | [] => None
  end.

(** [/^\d+\./.test(s)] *)
Definition test_numbered (s : jsstring) : bool :=
  match after_number s with Some _ => true | None => false end.

(** [line.match(...)] with the pattern [^\d+\.\s*] followed by a group
    of any code units up to [$], as its first group: after the number the
    white space is skipped, and what is left must reach the end of the
    line without a line terminator. *)
Definition match_numbered (line : jsstring) : option jsstring :=
  match after_number line with
  | Some rest =>
      let item := trimStart rest in
      if existsb isLineTerminator item then None else Some item
  | None => None
  end.

(** The longest run of code units other than [*] at the start. *)
Fixpoint span_not_star (s : jsstring) : jsstring * jsstring :=
  match s with
  | [] => ([], [])
  | c :: s' =>
      if N.eqb c STAR then ([], s)
      else let (b, rest) := span_not_star s' in (c :: b, rest)
  end.

(** A match of [/\*\*([^*]+)\*\*/] at the start of [s]: the group and
    what follows the match. *)
Definition match_bold (s : jsstring) : option (jsstring * jsstring) :=
  match s with
  | c :: d :: t =>
      if (N.eqb c STAR && N.eqb d STAR)%bool
      then match span_not_star t with
           | ((_ :: _) as b, e :: f :: rest) =>
               if (N.eqb e STAR && N.eqb f STAR)%bool then Some (b, rest) else None
           | _ => None
           end
      else None
  | _ => None
  end.

(** [s.replace(/\*\*([^*]+)\*\*/g, '<strong>$1</strong>')]: at each
    position, from the left, a match is replaced and the scan goes on
    after it; without a match the code unit is kept.  [fuel] bounds the
    number of positions looked at. *)
Fixpoint replace_bold_from (fuel : nat) (s : jsstring) : jsstring :=
  match fuel with
  | O => s
  | S fuel' =>
      match match_bold s with
      | Some (b, rest) =>
          lit "<strong>" ++ b ++ lit "</strong>" ++ replace_bold_from fuel' rest
      | None =>
          match s with
          | [] => []
          | c :: s' => c :: replace_bold_from fuel' s'
          end
      end
  end.

Definition replace_bold (s : jsstring) : jsstring :=
  replace_bold_from (List.length s) s.

(** A line of a list paragraph: [<div className="list-item">] with a
    text child, or [<p>] whose inner HTML is set. *)
Inductive Line : Type :=
| ListItem (content : jsstring)
| HtmlLine (html : jsstring).

(** What a paragraph becomes: [<h4 className="content-header">], a
    [<div>] of lines, [<ol className="numbered-list">] of [<li>] items,
    [<hr>], or [<p>] whose inner HTML is set. *)
Inductive Block : Type :=
| Header (content : jsstring)
| Lines (lines : list Line)
| NumberedList (items : list jsstring)
| Divider
| HtmlParagraph (html : jsstring).

Definition formatLine (line : jsstring) : Line :=
  if startsWith line (lit "- ") then ListItem (slice_2 line)
  else (* Handle bold text *) HtmlLine (replace_bold line).

Definition formatItem (line : jsstring) : jsstring :=
  match match_numbered line with
  | Some item => item
  | None => line
  end.

Definition formatParagraph (paragraph : jsstring) : Block :=
  (* Check for headers (starts with ** ) *)
  if (startsWith paragraph (lit "**") && endsWith paragraph (lit "**"))%bool
  then Header (slice_2_minus_2 paragraph)
  (* Check for list items *)
  else if includes paragraph [LF; 0x2D%N]
  then Lines (List.map formatLine (split_LF paragraph))
  (* Check for numbered lists *)
  else if test_numbered paragraph
  then NumberedList (List.map formatItem (split_LF paragraph))
  (* Handle horizontal rule *)
  else if string_eqb (trim paragraph) (lit "---")
  then Divider
  (* Regular paragraph with bold text handling *)
  else HtmlParagraph (replace_bold paragraph).

(** Split by double newlines for paragraphs *)
Definition formatContent (content : jsstring) : list Block :=
  List.map formatParagraph (split_LFLF content).

End FormatContent.

(** Shapes of paragraphs, for the statements about [formatContent]. *)
Module FormatShapes.
Import JS FormatContent.

(** The string has no line feed. *)
Definition one_line (s : jsstring) : Prop := existsb (N.eqb LF) s = false.

(** The string has no [*]. *)
Definition no_star (s : jsstring) : Prop :=
  forallb (fun c => negb (N.eqb c STAR)) s = true.

(** A numbered line: digits, a dot, white space, the item. *)
Record NumberedLine : Type := {
  number_digits : jsstring;
  number_space : jsstring;
  number_item : jsstring
}.

Definition numbered_line (l : NumberedLine) : jsstring :=
  number_digits l ++ [DOT] ++ number_space l ++ number_item l.

(** The digits are digits and there is one at least; the space is white
    space without a line feed; the item has no line terminator and does
    not begin with white space. *)
Definition well_numbered (l : NumberedLine) : Prop :=
  number_digits l <> []
  /\ forallb isDigit (number_digits l) = true
  /\ forallb isWhiteSpace (number_space l) = true
  /\ one_line (number_space l)
  /\ existsb isLineTerminator (number_item l) = false
  /\ trimStart (number_item l) = number_item l.

Definition DASH : N := 0x2D.

(** A list line: a dash, a space, the item. *)
Definition list_line (item : jsstring) : jsstring := lit "- " ++ item.

End FormatShapes.

(* ===================================================================== *)
(** * How a request ended, as the callers of [fetch] see it *)

Module FetchResult.
Import JS Runtime.

(** The response was read: its status is OK and its text parsed. *)
Definition read {P} (o : FetchOutcome P) : option P :=
  match o with
  | Resolved resp =>
      if ok resp then match json resp with inr data => Some data | inl _ => None end
      else None
  | Rejected _ => None
  end.

(** Something was thrown by [fetch] or by [response.json()]: the request
    was rejected, or the text of an OK response did not parse. *)
Definition threw {P} (o : FetchOutcome P) : bool :=
  match o with
  | Rejected _ => true
  | Resolved resp =>
      (ok resp && match json resp with inl _ => true | inr _ => false end)%bool
  end.

(** What a client that throws for a status that is not OK throws;
    [what] is the text it puts in front of the status. *)
Definition failure_of {P} (what : string) (o : FetchOutcome P) : option exn :=
  match o with
  | Rejected e => Some e
  | Resolved resp =>
      if ok resp
      then match json resp with
           | inl e => Some e
           | inr _ => None
           end
      else Some (Error (lit what ++ Z_toString (status resp)))
  end.

End FetchResult.

(** The member of the request each control of the filter panel sets. *)
Module FilterMembers.


End FilterMembers.

(* ===================================================================== *)
(** * api/searchApi.ts: the health check and the index creation *)

Module HealthApi.
Import JS Runtime Api.

(** [index_info] is read by the "Movies" detail only, which is not
    modelled. *)
Record HealthResponse : Type := {
  status : jsstring;
  redis_connected : bool;
  index_exists : bool
}.

Section Client.
Variable VITE_API_URL : option jsstring.

(** The payload a response carries, and the [HealthResponse] the caller
    reads in it. *)
Variable P : Type.
Variable health_of : P -> HealthResponse.

(** [fetch(url)] without options: a GET without headers and without a
    body (no members). *)
Definition healthRequest : Request :=
  {| url := API_BASE VITE_API_URL ++ lit "/health";
     method := "GET"; headers := []; body := [] |}.

(** [fetch(url, { method: 'POST' })]: no headers, no body. *)
Definition createIndexRequest : Request :=
  {| url := API_BASE VITE_API_URL ++ lit "/create-index";
     method := "POST"; headers := []; body := [] |}.

Definition checkHealth {S} : Async S P HealthResponse :=
  response <- fetch healthRequest ;;
  if negb (ok response)
  then Throw (Error (lit "Health check failed: " ++ Z_toString (Runtime.status response)))
  else data <- response_json response ;; Return (health_of data).

Definition createIndex {S} : Async S P P :=
  response <- fetch createIndexRequest ;;
  if negb (ok response)
  then Throw (Error (lit "Create index failed: " ++ Z_toString (Runtime.status response)))
  else response_json response.

End Client.

End HealthApi.

(* ===================================================================== *)
(** * components/StatusPanel.tsx *)

Module StatusPanel.
Import JS Runtime Api HealthApi.

Inductive MessageType : Type := success | error.

Record Message : Type := { type : MessageType; text : jsstring }.

Record State : Type := {
  health : option HealthResponse;
  isLoading : bool;
  isChecking : bool;
  message : option Message
}.

Definition initial : State :=
  {| health := None; isLoading := false; isChecking := false; message := None |}.

Definition setHealth (v : option HealthResponse) (s : State) : State :=
  {| health := v; isLoading := isLoading s; isChecking := isChecking s;
     message := message s |}.

Definition setIsLoading (v : bool) (s : State) : State :=
  {| health := health s; isLoading := v; isChecking := isChecking s;
     message := message s |}.

Definition setIsChecking (v : bool) (s : State) : State :=
  {| health := health s; isLoading := isLoading s; isChecking := v;
     message := message s |}.

Definition setMessage (v : option Message) (s : State) : State :=
  {| health := health s; isLoading := isLoading s; isChecking := isChecking s;
     message := v |}.

Section WithEnv.
Variable VITE_API_URL : option jsstring.

(** The payload of a response, and what the panel reads in it: the
    health, and [result.message]. *)
Variable P : Type.
Variable health_of : P -> HealthResponse.
Variable message_of : P -> jsstring.

Definition fetchHealth : Async State P unit :=
  set (setIsChecking true) ;;
  try_finally
    (try_catch
       (response <- checkHealth VITE_API_URL health_of ;;
        set (setHealth (Some response)))
       (fun err =>
          set (setHealth None) ;;
          set (setMessage
                 (Some {| type := error;
                          text := match err with
                                  | Error message => message
                                  | Thrown => lit "Failed to check health"
                                  end |}))))
    (set (setIsChecking false)).

Definition handleCreateIndex : Async State P unit :=
  set (setIsLoading true) ;;
  set (setMessage None) ;;
  try_finally
    (try_catch
       (result <- createIndex VITE_API_URL P ;;
        set (setMessage (Some {| type := success; text := message_of result |})) ;;
        (* Refresh health after creating index *)
        fetchHealth)
       (fun err =>
          set (setMessage
                 (Some {| type := error;
                          text := match err with
                                  | Error message => message
                                  | Thrown => lit "Failed to create index"
                                  end |}))))
    (set (setIsLoading false)).

End WithEnv.

(** [health?.redis_connected] as a condition *)
Definition redis_up (health : option HealthResponse) : bool :=
  match health with
  | Some h => redis_connected h
  | None => false
  end.

Definition getStatusColor (health : option HealthResponse) : string :=
  match health with
  | None => "disconnected"
  | Some h =>
      if (string_eqb (status h) "healthy" && index_exists h)%bool then "healthy"
      else if redis_connected h then "warning"
      else "disconnected"
  end.

Definition getStatusText (health : option HealthResponse) : jsstring :=
  match health with
  | None => lit "Unable to connect"
  | Some h =>
      if (string_eqb (status h) "healthy" && index_exists h)%bool then lit "Ready"
      else if (redis_connected h && negb (index_exists h))%bool then lit "Index not loaded"
      else status h
  end.

(** [disabled] of the "Check Health" and of the "Create Index" button. *)
Definition refreshDisabled (s : State) : bool := isChecking s.

Definition createDisabled (s : State) : bool :=
  (isLoading s || negb (redis_up (health s)))%bool.

(** The text shown for what was thrown, [fallback] for a value that is
    not an [Error]. *)
Definition shown_text (fallback : string) (e : exn) : jsstring :=
  match e with
  | Error message => message
  | Thrown => lit fallback
  end.

End StatusPanel.

(* ===================================================================== *)
(** * pages/HelpCenter.tsx: loading the suggestions and the statistics *)

Module HelpCenterPage.
Import JS Runtime Api.

Record State : Type := {
  suggestions : list jsstring;
  stats : option HelpCenter.HelpStats;
  showStats : bool;
  ingesting : bool;
  ingestMessage : option jsstring
}.

Definition initial : State :=
  {| suggestions := []; stats := None; showStats := false; ingesting := false;
     ingestMessage := None |}.

Definition setSuggestions (v : list jsstring) (s : State) : State :=
  {| suggestions := v; stats := stats s; showStats := showStats s;
     ingesting := ingesting s; ingestMessage := ingestMessage s |}.

Definition setStats (v : option HelpCenter.HelpStats) (s : State) : State :=
  {| suggestions := suggestions s; stats := v; showStats := showStats s;
     ingesting := ingesting s; ingestMessage := ingestMessage s |}.

(** Fallback suggestions *)
Definition fallback : list jsstring :=
  [lit "Why can't I watch this movie?";
   lit "How do I change my plan?";
   lit "Why is playback blurry?";
   lit "I forgot my password"].

Definition suggestionsRequest : Request :=
  {| url := lit "/api/help/suggestions"; method := "GET"; headers := []; body := [] |}.

Definition statsRequest : Request :=
  {| url := lit "/api/help/stats"; method := "GET"; headers := []; body := [] |}.

Section Readers.
(** The payload of a response, and what the page reads in it:
    [data.suggestions], and the whole of it as the statistics. *)
Variable P : Type.
Variable suggestions_of : P -> list jsstring.
Variable stats_of : P -> HelpCenter.HelpStats.

(** [console.error] in the [catch] changes nothing of the page. *)
Definition fetchSuggestions : Async State P unit :=
  try_catch
    (response <- fetch suggestionsRequest ;;
     if ok response
     then data <- response_json response ;;
          set (setSuggestions (suggestions_of data))
     else Return tt)
    (fun error => set (setSuggestions fallback)).

Definition fetchStats : Async State P unit :=
  try_catch
    (response <- fetch statsRequest ;;
     if ok response
     then data <- response_json response ;;
          set (setStats (Some (stats_of data)))
     else Return tt)
    (fun error => Return tt).

End Readers.

End HelpCenterPage.

(* ===================================================================== *)
(** * More concrete runs and inputs *)

Module Examples.
Import JS Runtime Api.

(** A network that answers every request with status 200 and [data]. *)
Definition answers {P} (data : P) : Request -> Z * FetchOutcome P :=
  fun _ => (3%Z, Resolved {| ok := true; status := 200; json := inr data |}).

(** A network that answers every request with status 200 and a text that
    does not parse. *)
Definition unreadable {P} : Request -> Z * FetchOutcome P :=
  fun _ => (4%Z, Resolved {| ok := true; status := 200;
                             json := inl (Error (lit "Unexpected end of JSON input")) |}).

(** The answer to a vector search that found one movie. *)
Definition one_movie : SearchResponse :=
  {| results := [Scenario.heat]; count := 1; search_type := lit "vector" |}.

(** The answer of the help chat to a question about passwords. *)
Definition password_article : HelpArticleSource :=
  {| source_id := lit "help-12"; source_title := lit "Reset your password";
     source_category := lit "account";
     source_content := lit "Open **Settings**, then choose Reset password.";
     source_similarity := Some 0.91 |}.

Definition password_answer : HelpChatResponse :=
  {| answer := lit "You can reset it from the sign-in page.";
     resp_sources := [password_article]; from_cache := false;
     cache_similarity := None; response_time_ms := 840;
     token_usage := Some {| prompt_tokens := 512; completion_tokens := 40;
                            total_tokens := 552 |};
     resp_blocked := None |}.

(** Paragraphs of an answer. *)
Definition plain_paragraph : jsstring := lit "Press <b>play</b> to start.".

(** Two numbered lines, both numbered 1, the second without a space. *)
Definition first_step : FormatShapes.NumberedLine :=
  {| FormatShapes.number_digits := lit "1"; FormatShapes.number_space := lit " ";
     FormatShapes.number_item := lit "Open the app" |}.

Definition second_step : FormatShapes.NumberedLine :=
  {| FormatShapes.number_digits := lit "1"; FormatShapes.number_space := lit "";
     FormatShapes.number_item := lit "Sign in again" |}.

End Examples.

(* ===================================================================== *)
(** * Properties of the event loop *)
(* ===================================================================== *)

Module RuntimeFacts.
Import JS Runtime.

Section Safety.
Variables S P Ev : Type.
Variable handler : S -> Ev -> Async S P unit.
Variable permitted : S -> Ev -> Prop.
Variable Inv : S -> Prop.
Variable Good : Request -> Prop.

#[local] Abbreviation Safe := (Safe Inv Good).
#[local] Abbreviation SafeWorld := (SafeWorld Inv Good).

(** Induction on a handler along its own course (the timers it sets
    are not entered). *)
Lemma Async_unit_ind (Q : Async S P unit -> Prop)
      (HReturn : forall a, Q (Return a))
      (HThrow : forall e, Q (Throw e))
      (HSetState : forall f k, Q k -> Q (SetState f k))
      (HFetch : forall r k, (forall o, Q (k o)) -> Q (Fetch r k))
      (HDateNow : forall k, (forall t, Q (k t)) -> Q (DateNow k))
      (HSetTimeout : forall cb k, Q k -> Q (SetTimeout cb k)) :
  forall m, Q m.
Proof.
  fix IH 1. intros [a | e | f k | r k | k | cb k].
  - apply HReturn.
  - apply HThrow.
  - apply HSetState, IH.
  - apply HFetch. intros o. apply IH.
  - apply HDateNow. intros t. apply IH.
  - apply HSetTimeout, IH.
Qed.

Lemma Safe_bind A B (m : Async S P A) (f : A -> Async S P B) :
  Safe m -> (forall a, Safe (f a)) -> Safe (bind m f).
Proof.
  intros Hm Hf. induction m; simpl in *; intuition.
Qed.

Lemma Safe_try_catch A (m : Async S P A) (h : exn -> Async S P A) :
  Safe m -> (forall e, Safe (h e)) -> Safe (try_catch m h).
Proof.
  intros Hm Hh. induction m; simpl in *; intuition.
Qed.

Lemma Safe_try_finally A (m : Async S P A) (fin : Async S P unit) :
  Safe m -> Safe fin -> Safe (try_finally m fin).
Proof.
  intros Hm Hfin. induction m; simpl in *;
    try (apply Safe_bind; simpl; auto); intuition.
Qed.

Lemma Safe_detach (m : Async S P unit) : Safe m -> Safe (detach m).
Proof.
  intros Hm. unfold detach. apply Safe_try_catch; simpl; auto.
Qed.

Lemma Safe_set (f : S -> S) :
  (forall s, Inv s -> Inv (f s)) -> Safe (set (P := P) f).
Proof. intros Hf. simpl. auto. Qed.

(** A safe handler keeps the world safe and sends good requests,
    up to the point where it ends or suspends. *)
Lemma run_safe now (m : Async S P unit) :
  Safe m -> forall w, SafeWorld w ->
  SafeWorld (fst (run now m w)) /\ Forall Good (snd (run now m w)).
Proof.
  induction m as [a | e | f k IH | r k IH | k IH | cb k IH] using Async_unit_ind;
    simpl; intros Hm w (Hs & Ht & Hp).
  - split; [repeat split; assumption | constructor].
  - split; [repeat split; assumption | constructor].
  - destruct Hm as [Hf Hk]. apply IH; [assumption |].
    repeat split; simpl; auto.
  - destruct Hm as [Hr Hk]. split.
    + repeat split; simpl; auto.
      apply Forall_app. split; [assumption | constructor; [assumption | constructor]].
    + constructor; [assumption | constructor].
  - apply IH; [apply Hm |]. repeat split; assumption.
  - destruct Hm as [Hcb Hk]. apply IH; [assumption |].
    repeat split; simpl; auto.
    apply Forall_app. split; [assumption | constructor; [assumption | constructor]].
Qed.

Lemma Forall_remove_nth X (Q : X -> Prop) (l : list X) :
  Forall Q l -> forall i, Forall Q (remove_nth i l).
Proof.
  induction 1 as [| x l Hx Hl IH]; intros [| i]; simpl; auto.
Qed.

Lemma Forall_nth_error X (Q : X -> Prop) (l : list X) i x :
  Forall Q l -> nth_error l i = Some x -> Q x.
Proof.
  intros Hl Hi. apply nth_error_In in Hi.
  rewrite Forall_forall in Hl. auto.
Qed.

Hypothesis handler_safe : forall s e, Inv s -> permitted s e -> Safe (handler s e).

Lemma step_event_safe now w e :
  SafeWorld w -> permitted (state w) e ->
  SafeWorld (fst (step handler now w (Event e)))
  /\ Forall Good (snd (step handler now w (Event e))).
Proof.
  intros Hw He. simpl. apply run_safe; [| assumption].
  apply handler_safe; [apply Hw | assumption].
Qed.

Lemma step_timer_safe now w i :
  SafeWorld w ->
  SafeWorld (fst (step handler now w (TimerFires i)))
  /\ Forall Good (snd (step handler now w (TimerFires i))).
Proof.
  intros Hw. simpl. destruct (nth_error (timers w) i) as [cb |] eqn:Hi.
  - destruct Hw as (Hs & Ht & Hp). apply run_safe.
    + eapply Forall_nth_error with (Q := fun cb => Safe cb); eassumption.
    + repeat split; simpl; auto. apply Forall_remove_nth. assumption.
  - split; [assumption | constructor].
Qed.

Lemma step_settle_safe now w i o :
  SafeWorld w ->
  SafeWorld (fst (step handler now w (FetchSettles i o)))
  /\ Forall Good (snd (step handler now w (FetchSettles i o))).
Proof.
  intros Hw. simpl. destruct (nth_error (pending w) i) as [k |] eqn:Hi.
  - destruct Hw as (Hs & Ht & Hp). apply run_safe.
    + apply (@Forall_nth_error _ (fun k => forall o, Safe (k o)) _ _ _ Hp Hi).
    + repeat split; simpl; auto. apply Forall_remove_nth. assumption.
  - split; [assumption | constructor].
Qed.

(** Whatever happens, in whatever order: from a safe world only safe
    worlds are reached and only good requests are sent. *)
Lemma reachable_safe w0 w reqs :
  SafeWorld w0 -> reachable handler permitted w0 w reqs ->
  SafeWorld w /\ Forall Good reqs.
Proof.
  intros H0 Hr. induction Hr as [| w reqs now e Hr [IHw IHr] He
                                  | w reqs now i Hr [IHw IHr]
                                  | w reqs now i o Hr [IHw IHr]].
  - split; [assumption | constructor].
  - destruct (@step_event_safe now w e IHw He) as [Hw' Hreqs].
    split; [assumption | apply Forall_app; split; assumption].
  - destruct (@step_timer_safe now w i IHw) as [Hw' Hreqs].
    split; [assumption | apply Forall_app; split; assumption].
  - destruct (@step_settle_safe now w i o IHw) as [Hw' Hreqs].
    split; [assumption | apply Forall_app; split; assumption].
Qed.

End Safety.

End RuntimeFacts.

(* ===================================================================== *)
(** * Properties of the JavaScript fragment *)
(* ===================================================================== *)

Module JSFacts.
Import JS.

Lemma string_eqb_eq s t : string_eqb s t = true <-> s = t.
Proof.
  revert t. induction s as [| c s IH]; intros [| d t]; simpl; split;
    try congruence; try reflexivity.
  - intros H. apply andb_true_iff in H. destruct H as [Hc Hs].
    apply N.eqb_eq in Hc. apply IH in Hs. congruence.
  - intros H. injection H as -> ->. rewrite N.eqb_refl. simpl.
    apply IH. reflexivity.
Qed.

Lemma string_eqb_neq s t : string_eqb s t = false <-> s <> t.
Proof.
  rewrite <- string_eqb_eq. destruct (string_eqb s t); split; congruence.
Qed.

Lemma truthy_string_nonempty s : truthy_string s = true <-> s <> [].
Proof. destruct s; simpl; split; congruence. Qed.

Lemma truthy_string_empty s : truthy_string s = false <-> s = [].
Proof. destruct s; simpl; split; congruence. Qed.

Lemma gt_lt x y : gt x y = true <-> y < x.
Proof.
  unfold gt. rewrite negb_true_iff. split.
  - intros H. apply Qnot_le_lt. intros Hle.
    apply Qle_bool_iff in Hle. congruence.
  - intros H. destruct (Qle_bool x y) eqn:E; [| reflexivity].
    apply Qle_bool_iff in E. exfalso. apply (Qlt_not_le _ _ H E).
Qed.

Lemma gt_le x y : gt x y = false <-> x <= y.
Proof.
  unfold gt. rewrite negb_false_iff. apply Qle_bool_iff.
Qed.

(** Trimming takes nothing but white space away: a string of white
    space trims to the empty string, and only such a string does. *)
Lemma trimStart_empty s : trimStart s = [] <-> forallb isWhiteSpace s = true.
Proof.
  induction s as [| c s IH]; simpl.
  - split; reflexivity.
  - destruct (isWhiteSpace c); simpl; [exact IH | split; discriminate].
Qed.

Lemma trim_empty s : trim s = [] <-> forallb isWhiteSpace s = true.
Proof.
  unfold trim, trimEnd. split.
  - intros H. apply trimStart_empty.
    destruct (trimStart s) as [| c u] eqn:E; [reflexivity |].
    exfalso. apply (f_equal (@rev N)) in H. rewrite rev_involutive in H.
    simpl in H. apply trimStart_empty in H.
    rewrite forallb_forall in H.
    assert (Hc : isWhiteSpace c = true).
    { apply H. apply in_or_app. right. left. reflexivity. }
    assert (Hs : trimStart s = c :: u) by exact E.
    clear - Hc Hs. induction s as [| d s IH]; simpl in Hs; [discriminate |].
    destruct (isWhiteSpace d) eqn:Ed; [auto |].
    injection Hs as -> ->. congruence.
  - intros H. apply trimStart_empty in H. rewrite H. reflexivity.
Qed.

End JSFacts.

(* ===================================================================== *)
(** * The movie page *)
(* ===================================================================== *)

Module AppFacts.
Import JS Runtime Api App JSFacts RuntimeFacts.

(** Case analysis on how a request settles: rejected, answered with a
    status that is not OK, answered with a text that does not parse,
    answered. *)
Ltac by_outcome o :=
  let e := fresh "e" in
  let b := fresh "ok" in
  destruct o as [e | [b ? [e | ?]]];
  try destruct b; try destruct e.

Ltac run_handler := cbn -[lit JSON_stringify trim].

(** An update that leaves the option values alone keeps them in range. *)
Ltac keeps := let s := fresh "s" in let Hs := fresh "Hs" in intros s Hs; exact Hs.

Ltac all_keep :=
  repeat match goal with
         | |- _ /\ _ => split
         | |- True => exact I
         | |- forall _, _ -> _ => keeps
         end.

Section WithEnv.
Variable env : option jsstring.

Lemma stringify_filtered r q :
  JSON_stringify
    [("query", Str q); ("num_results", Num (numResults r));
     ("genre", if negb (string_eqb (genre r) "all") then Str (genre r) else Undefined);
     ("min_rating", if gt (minRating r) 1 then Num (minRating r) else Undefined)]
  = [("query", Str q); ("num_results", Num (numResults r))]
      ++ (if string_eqb (genre r) "all" then [] else [("genre", Str (genre r))])
      ++ (if gt (minRating r) 1 then [("min_rating", Num (minRating r))] else []).
Proof.
  unfold JSON_stringify. simpl.
  destruct (string_eqb (genre r) "all"); destruct (gt (minRating r) 1); reflexivity.
Qed.

(** ** One search, run to its end *)
Lemma handleSearch_perform net now r q s :
  let out := perform net now (handleSearch env r q) s in
  sent out = [searchRequest env r q]
  /\ timers_set out = []
  /\ outcome out = inr tt
  /\ isLoading (final_state out) = false
  /\ hasSearched (final_state out) = true
  /\ lastQuery (final_state out) = q.
Proof.
  unfold handleSearch, searchRequest, searchParams.
  destruct (searchType r); run_handler; try rewrite stringify_filtered;
    destruct (net _) as [t o]; by_outcome o; run_handler; repeat split.
Qed.

(** ** One search, up to the point where it waits for the answer *)
Lemma handleSearch_run now r q w :
  exists k,
    run now (handleSearch env r q) w
    = ({| state := setLastQuery q
                     (setHasSearched true (setError None (setIsLoading true (state w))));
          timers := timers w;
          pending := pending w ++ [k] |},
       [searchRequest env r q])
    /\ forall o now' w', snd (run now' (k o) w') = []
                         /\ timers (fst (run now' (k o) w')) = timers w'
                         /\ pending (fst (run now' (k o) w')) = pending w'.
Proof.
  unfold handleSearch, searchRequest, searchParams.
  destruct (searchType r); run_handler; try rewrite stringify_filtered;
    (eexists; split; [reflexivity |]);
    intros o now' w'; by_outcome o; run_handler; repeat split.
Qed.

Lemma detach_handleSearch_run now r q w :
  snd (run now (detach (handleSearch env r q)) w) = [searchRequest env r q]
  /\ timers (fst (run now (detach (handleSearch env r q)) w)) = timers w.
Proof.
  unfold detach, handleSearch, searchRequest, searchParams.
  destruct (searchType r); run_handler; try rewrite stringify_filtered;
    repeat split.
Qed.

(** ** Safety *)
Lemma searchRequest_good r q :
  options_in_range r -> q <> [] -> good_request env (searchRequest env r q).
Proof. intros Hr Hq. exists r, q. auto. Qed.

Lemma handleSearch_safe r q :
  options_in_range r -> q <> [] ->
  Safe options_in_range (good_request env) (handleSearch env r q).
Proof.
  intros Hr Hq. pose proof (searchRequest_good Hr Hq) as Hgood.
  unfold handleSearch. unfold searchRequest, searchParams in Hgood.
  destruct (searchType r); run_handler; try rewrite stringify_filtered;
    (do 4 (split; [keeps |]));
    (split; [exact Hgood |]);
    intros o; by_outcome o; run_handler; all_keep.
Qed.

Lemma emits_range sl v :
  FilterPanel.emits sl v = true ->
  FilterPanel.min sl <= v /\ v <= FilterPanel.max sl.
Proof.
  unfold FilterPanel.emits. intros H.
  apply andb_true_iff in H. destruct H as [H _].
  apply andb_true_iff in H. destruct H as [H1 H2].
  split; apply Qle_bool_iff; assumption.
Qed.

Lemma slides_range c r v sl :
  slides c r v -> FilterPanel.slider c = Some sl ->
  FilterPanel.min sl <= v /\ v <= FilterPanel.max sl.
Proof.
  intros [_ [sl' [Hsl Hv]]] Hc. rewrite Hc in Hsl. injection Hsl as <-.
  apply emits_range. assumption.
Qed.

Lemma handler_safe r e :
  options_in_range r -> permitted r e ->
  Safe options_in_range (good_request env) (handler env r e).
Proof.
  intros Hr He. destruct e as [p | v | | t | v | v | v | v | v]; simpl in He;
    (* the four sliders: the new value lies between [min] and [max] *)
    try match type of He with
        | _ /\ slides _ _ _ =>
            destruct He as [_ Hv];
            destruct (slides_range Hv eq_refl) as [Hlo Hhi]; simpl in Hlo, Hhi;
            simpl; (split; [| exact I]);
            intros s (Hn & Ha & Hd & Hm); repeat split; simpl; tauto
        end.
  - destruct p; simpl; all_keep.
  - simpl. split; [keeps | exact I].
  - unfold handler, SearchBar.handleSubmit.
    destruct (truthy_string (trim (query r))) eqn:E; [| exact I].
    apply Safe_detach, handleSearch_safe; [assumption |].
    apply truthy_string_nonempty. assumption.
  - unfold handler, handleSearchTypeChange. cbn -[handleSearch detach].
    split; [keeps |].
    destruct (truthy_string (lastQuery r)) eqn:E; cbn -[handleSearch detach];
      [| exact I].
    destruct (hasSearched r); cbn -[handleSearch detach]; [| exact I].
    split; [| exact I].
    apply Safe_detach, handleSearch_safe; [assumption |].
    apply truthy_string_nonempty. assumption.
  - simpl. split; [keeps | exact I].
Qed.

Lemma initial_in_range : options_in_range initial.
Proof. unfold options_in_range, initial. simpl. repeat split; lra. Qed.

Lemma start_safe : SafeWorld options_in_range (good_request env) start.
Proof.
  repeat split; simpl; try constructor; try apply initial_in_range.
Qed.

(** Every world of the movie page keeps its options in range, and
    every request it sends is a good one. *)
Lemma movie_page_safe w reqs :
  reachable (handler env) permitted start w reqs ->
  options_in_range (state w) /\ Forall (good_request env) reqs.
Proof.
  intros Hr.
  destruct (reachable_safe (Inv := options_in_range) (Good := good_request env)
                           handler_safe start_safe Hr) as [[Hs _] Hreqs].
  split; assumption.
Qed.

End WithEnv.
End AppFacts.

(* ===================================================================== *)
(** * The movie page: what a search sends *)
(* ===================================================================== *)

Module SearchFacts.
Import JS Runtime Api App JSFacts RuntimeFacts AppFacts.

Ltac keys :=
  unfold has_key; simpl in *;
  intuition (try discriminate; try congruence).


Lemma searchParams_query r q : lookup "query" (searchParams r q) = Some (Str q).
Proof. reflexivity. Qed.

Lemma searchParams_num_results r q :
  lookup "num_results" (searchParams r q) = Some (Num (numResults r)).
Proof. reflexivity. Qed.



Lemma searchParams_genre r q :
  has_key "genre" (searchParams r q)
  <-> searchType r = filtered /\ genre r <> lit "all".
Proof.
  unfold searchParams. rewrite <- string_eqb_neq.
  destruct (searchType r); destruct (string_eqb (genre r) "all");
    destruct (gt (minRating r) 1); keys.
Qed.

Lemma searchParams_min_rating r q :
  has_key "min_rating" (searchParams r q)
  <-> searchType r = filtered /\ 1 < minRating r.
Proof.
  unfold searchParams. rewrite <- gt_lt.
  destruct (searchType r); destruct (string_eqb (genre r) "all");
    destruct (gt (minRating r) 1); keys.
Qed.

End SearchFacts.

Import JS Runtime Api.






(** C10. A filtered search carries [genre] exactly when the selected genre
    is not 'all', and [min_rating] exactly when the selected minimum
    rating is above 1; with a minimum rating of 1 the request has no
    [min_rating]. *)
Theorem filtered_request_members env net now (r : App.State) q s :
  App.searchType r = filtered ->
  exists req,
    sent (perform net now (App.handleSearch env r q) s) = [req]
    /\ url req = API_BASE env ++ lit "/search/filtered"
    /\ (has_key "genre" (body req) <-> App.genre r <> lit "all")
    /\ (App.genre r <> lit "all" ->
        lookup "genre" (body req) = Some (Str (App.genre r)))
    /\ (has_key "min_rating" (body req) <-> 1 < App.minRating r)
    /\ (1 < App.minRating r ->
        lookup "min_rating" (body req) = Some (Num (App.minRating r)))
    /\ (App.minRating r == 1 -> ~ has_key "min_rating" (body req)).
Proof.
  intros Ht. exists (App.searchRequest env r q).
  destruct (AppFacts.handleSearch_perform env net now r q s) as [Hsent _].
  split; [exact Hsent |].
  split; [unfold App.searchRequest; rewrite Ht; reflexivity |].
  change (body (App.searchRequest env r q)) with (App.searchParams r q).
  split; [rewrite SearchFacts.searchParams_genre; tauto |].
  split.
  { intros Hg. apply JSFacts.string_eqb_neq in Hg.
    unfold App.searchParams. rewrite Ht, Hg. reflexivity. }
  split; [rewrite SearchFacts.searchParams_min_rating; tauto |].
  split.
  { intros Hm. apply JSFacts.gt_lt in Hm.
    unfold App.searchParams. rewrite Ht, Hm.
    destruct (string_eqb (App.genre r) "all"); reflexivity. }
  intros Hm Hk. apply SearchFacts.searchParams_min_rating in Hk.
  destruct Hk as [_ Hk]. rewrite Hm in Hk. apply (Qlt_irrefl 1). exact Hk.
Qed.

Lemma filtered_request_members_witness :
  exists req,
    sent (perform Scenario.no_answer 0
            (App.handleSearch None Scenario.filtered_romance_7 (lit "love"))
            Scenario.filtered_romance_7)
    = [req]
    /\ lookup "genre" (body req) = Some (Str (lit "romance"))
    /\ lookup "min_rating" (body req) = Some (Num 7).
Proof.
  destruct (@filtered_request_members None Scenario.no_answer 0%Z
              Scenario.filtered_romance_7 (lit "love") Scenario.filtered_romance_7
              eq_refl)
    as (req & Hsent & _ & _ & Hg & _ & Hm & _).
  exists req. split; [exact Hsent |]. split.
  - apply Hg. vm_compute. discriminate.
  - apply Hm. reflexivity.
Defined.

(** C3. A click on a search-type tab sends nothing by itself and sets the
    search type.  If a search has been run (the last query is not empty and
    [hasSearched] holds), it sets exactly one timer, and that timer,
    whenever it fires, sends exactly one request: the search for the last
    query in the mode and with the options of the rendering that was
    clicked, not of the type just selected.  Without a search before it,
    the click sets no timer. *)
Theorem tab_change_reruns_with_captured_type env now (w : World App.State SearchResponse) t :
  let r := state w in
  let after := step (App.handler env) now w (Event (App.ClickTab t)) in
  snd after = []
  /\ App.searchType (state (fst after)) = t
  /\ pending (fst after) = pending w
  /\ (App.lastQuery r <> [] -> App.hasSearched r = true ->
      exists cb,
        timers (fst after) = timers w ++ [cb]
        /\ forall now' w',
            exists req,
              snd (run now' cb w') = [req]
              /\ url req = API_BASE env ++ lit (App.endpoint (App.searchType r))
              /\ lookup "query" (body req) = Some (Str (App.lastQuery r))
              /\ req = App.searchRequest env r (App.lastQuery r))
  /\ (App.lastQuery r = [] \/ App.hasSearched r = false ->
      timers (fst after) = timers w).
Proof.
  intros r after. subst after. unfold step, App.handler, App.handleSearchTypeChange.
  fold r. cbn -[App.handleSearch detach].
  destruct (truthy_string (App.lastQuery r)) eqn:Eq;
    destruct (App.hasSearched r) eqn:Eh; cbn -[App.handleSearch detach];
    (split; [reflexivity |]); (split; [reflexivity |]); (split; [reflexivity |]).
  - split.
    + intros _ _. exists (detach (App.handleSearch env r (App.lastQuery r))).
      split; [reflexivity |]. intros now' w'.
      exists (App.searchRequest env r (App.lastQuery r)).
      split; [apply AppFacts.detach_handleSearch_run |]. repeat split.
    + apply JSFacts.truthy_string_nonempty in Eq. intros [H | H]; congruence.
  - split; [intros _ H; discriminate | reflexivity].
  - apply JSFacts.truthy_string_empty in Eq.
    split; [intros H; congruence | reflexivity].
  - split; [intros _ H; discriminate | reflexivity].
Qed.

Lemma tab_change_reruns_with_captured_type_witness :
  let after := step (App.handler None) 0 Scenario.after_vector_search
                    (Event (App.ClickTab keyword)) in
  App.searchType (state (fst after)) = keyword
  /\ exists cb,
      timers (fst after) = [cb]
      /\ exists req,
          snd (run 0 cb (fst after)) = [req]
          /\ url req = lit "/api/search/vector".
Proof.
  destruct (@tab_change_reruns_with_captured_type None 0%Z Scenario.after_vector_search
              keyword)
    as (_ & Ht & _ & Hcb & _).
  split; [exact Ht |].
  destruct Hcb as (cb & Hts & Hreq); [vm_compute; discriminate | reflexivity |].
  exists cb. split; [exact Hts |].
  destruct (Hreq 0%Z (fst (step (App.handler None) 0 Scenario.after_vector_search
                                (Event (App.ClickTab keyword)))))
    as (req & Hsent & Hurl & _).
  exists req. split; [exact Hsent | exact Hurl].
Defined.

(* ===================================================================== *)
(** * The help chat *)
(* ===================================================================== *)

Module ChatFacts.
Import JS Runtime Api HelpChat JSFacts RuntimeFacts.
Import AppFacts.

Ltac run_chat := cbn -[lit JSON_stringify trim chatRequest userMessage botMessage errorMessage].

(** A turn that the guard stops does nothing at all. *)
Lemma sendMessage_stopped now r text w :
  trim text = [] \/ isLoading r = true ->
  run now (sendMessage r text) w = (w, []).
Proof.
  intros H. unfold sendMessage.
  destruct H as [H | H].
  - rewrite H. reflexivity.
  - rewrite H. rewrite orb_true_r. reflexivity.
Qed.

(** A turn that passes the guard sends the request of its text, and
    nothing more when the answer comes. *)
Lemma sendMessage_run now r text w :
  trim text <> [] -> isLoading r = false ->
  exists k,
    run now (sendMessage r text) w
    = ({| state := setIsLoading true
                     (setInput (lit "")
                        (setMessages (fun prev => prev ++ [userMessage now now text])
                                     (state w)));
          timers := timers w;
          pending := pending w ++ [k] |},
       [chatRequest text])
    /\ forall o now' w', snd (run now' (k o) w') = [].
Proof.
  intros Ht Hl. apply truthy_string_nonempty in Ht.
  unfold sendMessage. rewrite Ht, Hl. run_chat.
  eexists. split; [reflexivity |].
  intros o now' w'. by_outcome o; run_chat; reflexivity.
Qed.

Lemma sendMessage_sent now r text w req :
  In req (snd (run now (sendMessage r text) w)) ->
  req = chatRequest text /\ trim text <> [].
Proof.
  destruct (truthy_string (trim text)) eqn:Et.
  - destruct (isLoading r) eqn:El.
    + rewrite sendMessage_stopped by (right; assumption). intros [].
    + apply truthy_string_nonempty in Et.
      destruct (@sendMessage_run now r text w Et El) as (k & Hrun & _).
      rewrite Hrun. simpl. intros [<- | []]. split; [reflexivity | assumption].
  - apply truthy_string_empty in Et.
    rewrite sendMessage_stopped by (left; assumption). intros [].
Qed.

Lemma sendMessage_safe r text :
  Safe (fun _ : State => True) good_request (sendMessage r text).
Proof.
  unfold sendMessage.
  destruct (truthy_string (trim text)) eqn:Et; [| exact I].
  destruct (isLoading r); [exact I |].
  apply truthy_string_nonempty in Et. run_chat.
  intros _. intros _.
  do 3 (split; [auto |]).
  split; [exists text; auto |].
  intros o. by_outcome o; run_chat; auto.
Qed.

Lemma chat_handler_safe suggestions r e :
  True -> permitted suggestions r e ->
  Safe (fun _ : State => True) good_request (handler r e).
Proof.
  intros _ _. destruct e as [v | | suggestion]; simpl.
  - auto.
  - apply Safe_detach, sendMessage_safe.
  - apply Safe_detach, sendMessage_safe.
Qed.

Lemma chat_safe suggestions w reqs :
  reachable handler (permitted suggestions) start w reqs ->
  Forall good_request reqs.
Proof.
  intros Hr.
  assert (H0 : SafeWorld (fun _ : State => True) good_request start).
  { repeat split; simpl; constructor. }
  destruct (reachable_safe (@chat_handler_safe suggestions) H0 Hr) as [_ Hreqs].
  exact Hreqs.
Qed.

Lemma good_request_body req :
  good_request req ->
  exists text,
    body req = [("message", Str text); ("use_cache", Bool true)] /\ text <> [].
Proof.
  intros (text & Ht & ->). exists text. split; [reflexivity |].
  intros ->. apply Ht. reflexivity.
Qed.

End ChatFacts.

(* ===================================================================== *)
(** * What reaches the search and chat operations *)
(* ===================================================================== *)

Module RequestFacts.
Import JS Runtime Api JSFacts RuntimeFacts.

Lemma good_request_query env req :
  App.good_request env req -> App.query_nonempty req.
Proof.
  intros (r & q & _ & Hq & ->). exists q. split; [reflexivity | exact Hq].
Qed.

Lemma good_request_ranges env req :
  App.good_request env req -> App.ranges_ok req.
Proof.
  intros (r & q & ((Hn1 & Hn2) & (Ha1 & Ha2) & (Hd1 & Hd2) & (Hm1 & Hm2)) & _ & ->).
  unfold App.ranges_ok.
  change (body (App.searchRequest env r q)) with (App.searchParams r q).
  unfold App.searchParams.
  split; [exists (App.numResults r); simpl; auto |].
  destruct (App.searchType r); destruct (string_eqb (App.genre r) "all");
    destruct (gt (App.minRating r) 1); simpl;
    (split; [| split]); intros v Hv; try discriminate; injection Hv as <-;
    eexists; (split; [reflexivity | split; assumption]).
Qed.

Lemma chat_request_message req :
  HelpChat.good_request req -> HelpChat.message_nonempty req.
Proof.
  intros (text & Ht & ->). exists text. split; [reflexivity |].
  intros ->. apply Ht. reflexivity.
Qed.

Lemma scenario_submitted :
  reachable (App.handler None) App.permitted App.start
            (fst Scenario.submitted)
            (([] ++ snd Scenario.typed) ++ snd Scenario.submitted).
Proof.
  apply reach_event; [apply reach_event; [apply reach_start |] |]; reflexivity.
Qed.

Lemma scenario_asked :
  reachable HelpChat.handler (HelpChat.permitted Scenario.suggestions) HelpChat.start
            (fst Scenario.asked) ([] ++ snd Scenario.asked).
Proof.
  apply reach_event; [apply reach_start |].
  simpl. right. right. right. left. reflexivity.
Qed.

End RequestFacts.

(** C7. No empty query leaves the user interface.  A text trims to the
    empty string exactly when it is empty or white space only.  On the
    movie page a submit whose text trims to the empty string does nothing,
    any other submit sends the search for the trimmed text, and every
    request ever sent carries a non-empty [query].  In the chat a turn
    whose text trims to the empty string does nothing, and every request
    ever sent carries a non-empty [message]. *)
Theorem empty_query_never_sent env suggestions :
  (forall text, trim text = [] <-> forallb isWhiteSpace text = true)
  /\ (forall now (w : World App.State SearchResponse),
      trim (App.query (state w)) = [] ->
      step (App.handler env) now w (Event App.SubmitSearch) = (w, []))
  /\ (forall now (w : World App.State SearchResponse),
         trim (App.query (state w)) <> [] ->
         snd (step (App.handler env) now w (Event App.SubmitSearch))
         = [App.searchRequest env (state w) (trim (App.query (state w)))])
  /\ (forall w reqs,
         reachable (App.handler env) App.permitted App.start w reqs ->
         Forall App.query_nonempty reqs)
  /\ (forall now r text (w : World HelpChat.State HelpChatResponse),
         trim text = [] -> run now (HelpChat.sendMessage r text) w = (w, []))
  /\ (forall w reqs,
         reachable HelpChat.handler (HelpChat.permitted suggestions) HelpChat.start w reqs ->
         Forall HelpChat.message_nonempty reqs).
Proof.
  split; [| split; [| split; [| split; [| split]]]].
  - apply JSFacts.trim_empty.
  - intros now w Hq. simpl. unfold SearchBar.handleSubmit. rewrite Hq. reflexivity.
  - intros now w Hq. simpl. unfold SearchBar.handleSubmit.
    apply JSFacts.truthy_string_nonempty in Hq. rewrite Hq.
    apply AppFacts.detach_handleSearch_run.
  - intros w reqs Hr. destruct (AppFacts.movie_page_safe Hr) as [_ Hreqs].
    eapply Forall_impl; [| exact Hreqs].
    intros req. apply RequestFacts.good_request_query.
  - intros now r text w Ht. apply ChatFacts.sendMessage_stopped. left. exact Ht.
  - intros w reqs Hr.
    eapply Forall_impl; [| exact (ChatFacts.chat_safe Hr)].
    intros req. apply RequestFacts.chat_request_message.
Qed.

Lemma empty_query_never_sent_witness :
  Forall App.query_nonempty (([] ++ snd Scenario.typed) ++ snd Scenario.submitted)
  /\ Forall HelpChat.message_nonempty ([] ++ snd Scenario.asked).
Proof.
  destruct (empty_query_never_sent None Scenario.suggestions)
    as (_ & _ & _ & Hm & _ & Hc).
  split.
  - exact (Hm _ _ RequestFacts.scenario_submitted).
  - exact (Hc _ _ RequestFacts.scenario_asked).
Defined.

(** C8. Every search request of the movie page keeps to the ranges of the
    options: [num_results] within 1..20, and, where the request carries
    them, [alpha] within 0..1, [distance_threshold] within 0.1..1 and
    [min_rating] within 1..10; [num_results] is never 0 or less.  The
    options start at 5, 0.5 and 0.5. *)
Theorem search_requests_within_option_ranges env :
  (App.numResults App.initial == 5
   /\ App.alpha App.initial == 0.5
   /\ App.distanceThreshold App.initial == 0.5)
  /\ forall w reqs,
      reachable (App.handler env) App.permitted App.start w reqs ->
      App.options_in_range (state w)
      /\ Forall App.ranges_ok reqs
      /\ Forall (fun req => forall n, lookup "num_results" (body req) = Some (Num n) ->
                                      ~ n <= 0) reqs.
Proof.
  split; [repeat split; reflexivity |].
  intros w reqs Hr. destruct (AppFacts.movie_page_safe Hr) as [Hs Hreqs].
  split; [exact Hs |].
  assert (Hranges : Forall App.ranges_ok reqs).
  { eapply Forall_impl; [| exact Hreqs].
    intros req. apply RequestFacts.good_request_ranges. }
  split; [exact Hranges |].
  eapply Forall_impl; [| exact Hranges].
  intros req ((n & Hn & Hlo & _) & _) n' Hn' Hle.
  rewrite Hn in Hn'. injection Hn' as <-.
  apply (Qle_not_lt _ _ (Qle_trans _ _ _ Hlo Hle)). reflexivity.
Qed.

Lemma search_requests_within_option_ranges_witness :
  Forall App.ranges_ok (([] ++ snd Scenario.typed) ++ snd Scenario.submitted).
Proof.
  destruct (search_requests_within_option_ranges None) as [_ H].
  destruct (H _ _ RequestFacts.scenario_submitted) as (_ & Hreqs & _).
  exact Hreqs.
Defined.

(** C9. The text of every chat request is exactly
    [{message: text, use_cache: true}], with [text] the text the turn was
    started with: [use_cache] is [true] on every request the chat sends. *)
Theorem chat_request_body suggestions :
  (forall now r text (w : World HelpChat.State HelpChatResponse) req,
      In req (snd (run now (HelpChat.sendMessage r text) w)) ->
      url req = lit "/api/help/chat"
      /\ method req = "POST"
      /\ body req = [("message", Str text); ("use_cache", Bool true)])
  /\ (forall w reqs,
         reachable HelpChat.handler (HelpChat.permitted suggestions) HelpChat.start w reqs ->
         Forall (fun req =>
                   exists text,
                     body req = [("message", Str text); ("use_cache", Bool true)]
                     /\ lookup "use_cache" (body req) = Some (Bool true)) reqs).
Proof.
  split.
  - intros now r text w req Hin.
    destruct (ChatFacts.sendMessage_sent _ _ _ _ _ Hin) as [-> _].
    repeat split.
  - intros w reqs Hr.
    eapply Forall_impl; [| exact (ChatFacts.chat_safe Hr)].
    intros req (text & _ & ->). exists text. split; reflexivity.
Qed.

Lemma chat_request_body_witness :
  Forall (fun req =>
            exists text,
              body req = [("message", Str text); ("use_cache", Bool true)]
              /\ lookup "use_cache" (body req) = Some (Bool true))
         ([] ++ snd Scenario.asked).
Proof.
  destruct (chat_request_body Scenario.suggestions) as [_ H].
  exact (H _ _ RequestFacts.scenario_asked).
Defined.

(** C4. When the request of a chat turn fails ([fetch] throws, or the
    status is not OK), the transcript gains the user's message and then
    one assistant message with the fixed apology; exactly one request was
    sent, and the loading flag is false at the end. *)
Theorem chat_failure_appends_one_error_message net now r text (s : HelpChat.State) :
  trim text <> [] -> HelpChat.isLoading r = false ->
  HelpChat.fetch_failed (snd (net (HelpChat.chatRequest text))) ->
  let out := perform net now (HelpChat.sendMessage r text) s in
  let t := fst (net (HelpChat.chatRequest text)) in
  HelpChat.messages (final_state out)
  = HelpChat.messages s
      ++ [HelpChat.userMessage now now text; HelpChat.errorMessage t t]
  /\ role (HelpChat.errorMessage t t) = assistant
  /\ content (HelpChat.errorMessage t t)
     = lit "Sorry, I encountered an error. Please try again."
  /\ content (HelpChat.userMessage now now text) = text
  /\ sent out = [HelpChat.chatRequest text]
  /\ timers_set out = []
  /\ HelpChat.isLoading (final_state out) = false.
Proof.
  intros Ht Hl Hfail. apply JSFacts.truthy_string_nonempty in Ht.
  unfold HelpChat.sendMessage. rewrite Ht, Hl.
  ChatFacts.run_chat.
  destruct (net (HelpChat.chatRequest text)) as [t o]. simpl in Hfail.
  destruct o as [e | [b st j]]; simpl in Hfail; [| subst b];
    ChatFacts.run_chat; rewrite <- app_assoc; repeat split.
Qed.

Lemma chat_failure_appends_one_error_message_witness :
  let out := perform Scenario.server_error 0
                     (HelpChat.sendMessage HelpChat.initial (lit "I forgot my password"))
                     HelpChat.initial in
  HelpChat.messages (final_state out)
  = [HelpChat.userMessage 0 0 (lit "I forgot my password"); HelpChat.errorMessage 2 2]
  /\ sent out = [HelpChat.chatRequest (lit "I forgot my password")]
  /\ HelpChat.isLoading (final_state out) = false.
Proof.
  destruct (@chat_failure_appends_one_error_message Scenario.server_error 0%Z
              HelpChat.initial (lit "I forgot my password") HelpChat.initial)
    as (Hm & _ & _ & _ & Hs & _ & Hl).
  - vm_compute. discriminate.
  - reflexivity.
  - reflexivity.
  - split; [exact Hm | split; [exact Hs | exact Hl]].
Defined.

(* ===================================================================== *)
(** * What is shown *)
(* ===================================================================== *)

Import Html.

(** C1. The info line of an assistant message shows exactly one status
    badge: 'Off-topic' when [blocked] is true (also when [fromCache] is
    true as well), otherwise 'Cached' when [fromCache] is true, otherwise
    'LLM'; and it shows the token count exactly when the message has a
    token usage. *)
Theorem assistant_message_has_one_status_badge (message : HelpChatMessage) :
  role message = assistant ->
  List.filter HelpChat.is_badge (HelpChat.infoItems message)
  = [match blocked message, fromCache message with
     | Some true, _ => span "blocked-badge" [text "Off-topic"]
     | _, Some true => span "cache-badge" [text "Cached"]
     | _, _ => span "llm-badge" [text "LLM"]
     end]
  /\ List.filter (has_class "token-usage") (HelpChat.infoItems message)
     = match tokenUsage message with
       | Some usage => [span "token-usage" [number (total_tokens usage); text " tokens"]]
       | None => []
       end.
Proof.
  intros Hrole. unfold HelpChat.infoItems, HelpChat.responseInfo.
  rewrite Hrole. unfold HelpChat.statusBadge, HelpChat.truthy_flag.
  destruct (blocked message) as [[|] |]; destruct (fromCache message) as [[|] |];
    destruct (responseTimeMs message); destruct (tokenUsage message);
    destruct (cacheSimilarity message) as [sim |];
    try destruct (truthy_number sim); split; reflexivity.
Qed.

Lemma assistant_message_has_one_status_badge_witness :
  List.filter HelpChat.is_badge (HelpChat.infoItems Scenario.blocked_and_cached)
  = [span "blocked-badge" [text "Off-topic"]]
  /\ List.filter (has_class "token-usage") (HelpChat.infoItems Scenario.blocked_and_cached)
     = [].
Proof.
  exact (@assistant_message_has_one_status_badge Scenario.blocked_and_cached eq_refl).
Defined.

(** C6. In hybrid mode a card shows the three component scores, 'N/A'
    for one that is missing, and no other score row.  In vector, filtered
    and range mode it shows the similarity percentage exactly when the
    result has a similarity, in keyword mode the BM25 score exactly when
    the result has a score. *)
Theorem movie_card_shows_scores_of_mode (movie : MovieResult) :
  MovieCard.MovieCard_scores movie (SearchType_string hybrid)
  = [div "hybrid-breakdown"
         [div "breakdown-item"
              [span "" [text "Vector Similarity:"];
               span "" [text match vector_similarity movie with
                             | Some v => toFixed 3 v
                             | None => "N/A"
                             end]];
          div "breakdown-item"
              [span "" [text "Text Score:"];
               span "" [text match text_score movie with
                             | Some v => toFixed 2 v
                             | None => "N/A"
                             end]];
          div "breakdown-item"
              [span "" [text "Hybrid Score:"];
               span "" [text match hybrid_score movie with
                             | Some v => toFixed 3 v
                             | None => "N/A"
                             end]]]]
  /\ (forall t, t = vector \/ t = filtered \/ t = range ->
                MovieCard.MovieCard_scores movie (SearchType_string t)
                = match similarity movie with
                  | Some sim =>
                      [div "movie-score"
                           [span "score-label" [text "Similarity"; text ":"];
                            span "score-value"
                                 [text (toFixed 1 (sim * 100) ++ "%")%string]]]
                  | None => []
                  end)
  /\ MovieCard.MovieCard_scores movie (SearchType_string keyword)
     = match score movie with
       | Some sc =>
           [div "movie-score"
                [span "score-label" [text "BM25 Score"; text ":"];
                 span "score-value" [text (toFixed 2 sc)]]]
       | None => []
       end.
Proof.
  split; [| split].
  - unfold MovieCard.MovieCard_scores, MovieCard.getScoreDisplay, MovieCard.fixed_or_NA.
    cbn -[toFixed lit].
    destruct (vector_similarity movie); destruct (text_score movie);
      destruct (hybrid_score movie); reflexivity.
  - intros t [-> | [-> | ->]]; unfold MovieCard.MovieCard_scores, MovieCard.getScoreDisplay;
      cbn -[toFixed lit]; destruct (similarity movie); reflexivity.
  - unfold MovieCard.MovieCard_scores, MovieCard.getScoreDisplay.
    cbn -[toFixed lit]. destruct (score movie); reflexivity.
Qed.

Lemma movie_card_shows_scores_of_mode_witness :
  MovieCard.MovieCard_scores Scenario.heat (SearchType_string range)
  = [div "movie-score"
         [span "score-label" [text "Similarity"; text ":"];
          span "score-value" [text "85.7%"]]].
Proof.
  destruct (movie_card_shows_scores_of_mode Scenario.heat) as (_ & H & _).
  rewrite (H range) by (right; right; reflexivity). reflexivity.
Defined.

(* ===================================================================== *)
(** * Doubles: rounding keeps the order and stays close *)
(* ===================================================================== *)

Module DoubleFacts.
Import Double.

Lemma pow2_pos e : 0 < 2 ^ e.
Proof. apply Qpower_0_lt. reflexivity. Qed.

Lemma pow2_succ e : 2 ^ (e + 1) == 2 * 2 ^ e.
Proof. rewrite Qpower_plus by discriminate. rewrite Qpower_1_r. ring. Qed.

Lemma pow2_le a b : (a <= b)%Z -> 2 ^ a <= 2 ^ b.
Proof. intros H. apply Qpower_le_compat_l; [exact H | discriminate]. Qed.

Lemma pow2_lt_inv a b : 2 ^ a < 2 ^ b -> (a < b)%Z.
Proof. intros H. apply (Qpower_lt_compat_l_inv 2); [exact H | reflexivity]. Qed.

Lemma pow2_Z n : (0 <= n)%Z -> inject_Z (2 ^ n) == 2 ^ n.
Proof. intros H. apply (Zpower_Qpower 2 n H). Qed.

(** ** Rounding to the closest integer *)

Ltac qcompare H :=
  first [ apply (proj2 (Qeq_alt _ _)) in H
        | apply (proj2 (Qlt_alt _ _)) in H
        | apply (proj2 (Qgt_alt _ _)) in H ].

Lemma rne_floor y : (Qfloor y <= rne y <= Qfloor y + 1)%Z.
Proof.
  unfold rne. destruct (Qcompare (y - inject_Z (Qfloor y)) (1 # 2));
    [destruct (Z.even (Qfloor y)) | |]; lia.
Qed.

Lemma rne_mono y1 y2 : y1 <= y2 -> (rne y1 <= rne y2)%Z.
Proof.
  intros H. pose proof (Qfloor_resp_le _ _ H) as Hf.
  pose proof (rne_floor y1) as H1. pose proof (rne_floor y2) as H2.
  destruct (Z.eq_dec (Qfloor y1) (Qfloor y2)) as [E | E]; [| lia].
  clear H1 H2 Hf. unfold rne. rewrite <- E.
  destruct (Qcompare (y1 - inject_Z (Qfloor y1)) (1 # 2)) eqn:C1;
    destruct (Qcompare (y2 - inject_Z (Qfloor y1)) (1 # 2)) eqn:C2;
    try (destruct (Z.even (Qfloor y1))); try lia;
    qcompare C1; qcompare C2; exfalso; lra.
Qed.

Lemma rne_Z n : rne (inject_Z n) = n.
Proof.
  unfold rne. rewrite Qfloor_Z.
  replace (Qcompare (inject_Z n - inject_Z n) (1 # 2)) with Lt; [reflexivity |].
  symmetry. apply (proj1 (Qlt_alt _ _)). lra.
Qed.

(** The closest integer is at most one half away. *)
Lemma rne_close y : Qabs (inject_Z (rne y) - y) <= 1 # 2.
Proof.
  pose proof (Qfloor_le y) as Hl. pose proof (Qlt_floor y) as Hu.
  rewrite inject_Z_plus in Hu. change (inject_Z 1) with 1 in Hu.
  apply Qabs_Qle_condition. unfold rne.
  destruct (Qcompare (y - inject_Z (Qfloor y)) (1 # 2)) eqn:C.
  - qcompare C. destruct (Z.even (Qfloor y)).
    + split; lra.
    + rewrite inject_Z_plus. change (inject_Z 1) with 1. split; lra.
  - qcompare C. split; lra.
  - qcompare C. rewrite inject_Z_plus. change (inject_Z 1) with 1. split; lra.
Qed.

(** ** The binary logarithm *)

Lemma ilog2_spec x : 0 < x -> 2 ^ ilog2 x <= x /\ x < 2 ^ (ilog2 x + 1).
Proof.
  intros Hx. destruct x as [n d]. unfold ilog2. cbn [Qnum Qden].
  assert (Hn : (0 < n)%Z) by (unfold Qlt in Hx; cbn in Hx; lia).
  destruct (Z.log2_spec n Hn) as [Hn1 Hn2].
  destruct (Z.log2_spec (Z.pos d) (Pos2Z.is_pos d)) as [Hd1 Hd2].
  pose proof (Z.log2_nonneg n) as Hln. pose proof (Z.log2_nonneg (Z.pos d)) as Hld.
  set (ln := Z.log2 n) in *. set (ld := Z.log2 (Z.pos d)) in *.
  assert (HA : 2 ^ ln <= inject_Z n /\ inject_Z n < 2 * 2 ^ ln).
  { rewrite <- pow2_succ, <- !pow2_Z by lia. rewrite <- Zle_Qle, <- Zlt_Qlt.
    rewrite (Z.add_1_r ln). split; assumption. }
  assert (HB : 2 ^ ld <= inject_Z (Z.pos d) /\ inject_Z (Z.pos d) < 2 * 2 ^ ld).
  { rewrite <- pow2_succ, <- !pow2_Z by lia. rewrite <- Zle_Qle, <- Zlt_Qlt.
    rewrite (Z.add_1_r ld). split; assumption. }
  assert (Hx' : (n # d) * inject_Z (Z.pos d) == inject_Z n).
  { rewrite (Qmake_Qdiv n d). field. discriminate. }
  pose proof (pow2_pos ln) as HpA. pose proof (pow2_pos ld) as HpB.
  assert (HP : 2 ^ (ln - ld) * 2 ^ ld == 2 ^ ln).
  { rewrite Qpower_minus by discriminate. field. lra. }
  pose proof (pow2_pos (ln - ld)) as HpP.
  assert (Hd0 : 0 < inject_Z (Z.pos d)) by lra.
  set (X := n # d) in *. set (D := inject_Z (Z.pos d)) in *.
  set (N := inject_Z n) in *. set (A := 2 ^ ln) in *. set (B := 2 ^ ld) in *.
  set (P := 2 ^ (ln - ld)) in *.
  assert (Hup : X < 2 * P).
  { apply (Qmult_lt_r _ _ D Hd0). rewrite Hx'.
    apply Qlt_le_trans with (2 * A); [lra |]. rewrite <- HP. nra. }
  assert (Hlow : P <= 2 * X).
  { apply (Qmult_le_r _ _ D Hd0).
    setoid_replace (2 * X * D) with (2 * (X * D)) by ring. rewrite Hx'.
    apply Qle_trans with (P * (2 * B)); [nra |].
    setoid_replace (P * (2 * B)) with (2 * (P * B)) by ring. rewrite HP. lra. }
  destruct (Qle_bool P X) eqn:E.
  - apply Qle_bool_iff in E. split; [exact E |]. rewrite pow2_succ. exact Hup.
  - assert (Hlt : X < P).
    { apply Qnot_le_lt. intros H. apply Qle_bool_iff in H. congruence. }
    replace (ln - ld - 1 + 1)%Z with (ln - ld)%Z by lia.
    split; [| exact Hlt].
    assert (H2 : 2 * 2 ^ (ln - ld - 1) == P).
    { rewrite <- pow2_succ. replace (ln - ld - 1 + 1)%Z with (ln - ld)%Z by lia.
      reflexivity. }
    lra.
Qed.

Lemma ilog2_mono x y : 0 < x -> x <= y -> (ilog2 x <= ilog2 y)%Z.
Proof.
  intros Hx Hxy.
  destruct (ilog2_spec Hx) as [H1 _].
  destruct (@ilog2_spec y) as [_ H2]; [lra |].
  assert (H : 2 ^ ilog2 x < 2 ^ (ilog2 y + 1)) by lra.
  apply pow2_lt_inv in H. lia.
Qed.


(** ** Rounding to the nearest double *)

Lemma exponent_mono x y : 0 < x -> x <= y -> (exponent x <= exponent y)%Z.
Proof.
  intros Hx Hxy. unfold exponent. pose proof (ilog2_mono Hx Hxy). lia.
Qed.

Lemma scaled_le x y e : x <= y -> x / 2 ^ e <= y / 2 ^ e.
Proof.
  intros H. unfold Qdiv. apply Qmult_le_compat_r; [exact H |].
  apply Qlt_le_weak, Qinv_lt_0_compat, pow2_pos.
Qed.

Lemma scaled_pow a e : 2 ^ a / 2 ^ e == 2 ^ (a - e).
Proof. rewrite Qpower_minus by discriminate. reflexivity. Qed.

Lemma nearest_nonneg x : 0 < x -> 0 <= nearest x.
Proof.
  intros Hx. unfold nearest. pose proof (pow2_pos (exponent x)) as Hp.
  assert (H : (0 <= rne (x / 2 ^ exponent x))%Z).
  { rewrite <- (rne_Z 0). apply rne_mono. change (inject_Z 0) with 0.
    apply Qlt_le_weak, Qlt_shift_div_l; [exact Hp | lra]. }
  rewrite Zle_Qle in H. change (inject_Z 0) with 0 in H. nra.
Qed.

(** A number rounded to its place stays below the next power of two, and
    not below its own. *)
Lemma nearest_upper x : 0 < x -> nearest x <= 2 ^ (exponent x + 53).
Proof.
  intros Hx. unfold nearest. set (e := exponent x).
  pose proof (pow2_pos e) as Hp.
  destruct (ilog2_spec Hx) as [_ Hup].
  assert (He : (ilog2 x + 1 <= e + 53)%Z) by (unfold e, exponent; lia).
  assert (Hx53 : x / 2 ^ e <= inject_Z (2 ^ 53)).
  { rewrite pow2_Z by lia.
    apply Qle_trans with (2 ^ (e + 53) / 2 ^ e).
    - apply scaled_le. apply Qlt_le_weak.
      apply Qlt_le_trans with (2 ^ (ilog2 x + 1));
        [exact Hup | apply pow2_le; exact He].
    - rewrite scaled_pow. replace (e + 53 - e)%Z with 53%Z by lia. apply Qle_refl. }
  pose proof (rne_mono Hx53) as Hr. rewrite rne_Z in Hr.
  rewrite Zle_Qle, pow2_Z in Hr by lia.
  rewrite Qpower_plus by discriminate.
  setoid_replace (2 ^ e * 2 ^ 53) with (2 ^ 53 * 2 ^ e) by ring.
  apply Qmult_le_compat_r; [exact Hr | lra].
Qed.

Lemma nearest_lower x :
  0 < x -> (-1074 < exponent x)%Z -> 2 ^ (exponent x + 52) <= nearest x.
Proof.
  intros Hx Hn. unfold nearest. set (e := exponent x) in *.
  pose proof (pow2_pos e) as Hp.
  destruct (ilog2_spec Hx) as [Hlow _].
  assert (He : (ilog2 x = e + 52)%Z) by (unfold e, exponent in *; lia).
  assert (Hx52 : inject_Z (2 ^ 52) <= x / 2 ^ e).
  { rewrite pow2_Z by lia.
    apply Qle_trans with (2 ^ (e + 52) / 2 ^ e).
    - rewrite scaled_pow. replace (e + 52 - e)%Z with 52%Z by lia. apply Qle_refl.
    - apply scaled_le. rewrite <- He. exact Hlow. }
  pose proof (rne_mono Hx52) as Hr. rewrite rne_Z in Hr.
  rewrite Zle_Qle, pow2_Z in Hr by lia.
  rewrite Qpower_plus by discriminate.
  setoid_replace (2 ^ e * 2 ^ 52) with (2 ^ 52 * 2 ^ e) by ring.
  apply Qmult_le_compat_r; [exact Hr | lra].
Qed.

Lemma nearest_mono x y : 0 < x -> x <= y -> nearest x <= nearest y.
Proof.
  intros Hx Hxy. assert (Hy : 0 < y) by lra.
  pose proof (exponent_mono Hx Hxy) as He.
  destruct (Z.eq_dec (exponent x) (exponent y)) as [E | E].
  - unfold nearest. rewrite E. pose proof (pow2_pos (exponent y)) as Hp.
    apply Qmult_le_compat_r; [| lra].
    rewrite <- Zle_Qle. apply rne_mono. apply scaled_le. exact Hxy.
  - apply Qle_trans with (2 ^ (exponent x + 53)); [apply nearest_upper; exact Hx |].
    apply Qle_trans with (2 ^ (exponent y + 52)).
    + apply pow2_le. lia.
    + apply nearest_lower; [exact Hy |]. unfold exponent in *. lia.
Qed.

(** The nearest double is at most half a unit of the last place away. *)
Lemma nearest_close x :
  0 < x -> Qabs (nearest x - x) <= 2 ^ exponent x / 2.
Proof.
  intros Hx. unfold nearest. set (e := exponent x).
  pose proof (pow2_pos e) as Hp.
  pose proof (rne_close (x / 2 ^ e)) as Hc.
  setoid_replace (inject_Z (rne (x / 2 ^ e)) * 2 ^ e - x)
    with ((inject_Z (rne (x / 2 ^ e)) - x / 2 ^ e) * 2 ^ e)
    by (field; lra).
  rewrite Qabs_Qmult, (Qabs_pos (2 ^ e)) by lra.
  setoid_replace (2 ^ e / 2) with ((1 # 2) * 2 ^ e) by (field).
  apply Qmult_le_compat_r; [exact Hc | lra].
Qed.

(** ** The order of the doubles *)

Lemma le_refl a : a <> NaN -> le a a.
Proof.
  destruct a as [| [|] | x]; intros H; cbn; try exact I; [contradiction | apply Qle_refl].
Qed.

Lemma le_trans a b c : le a b -> le b c -> le a c.
Proof.
  destruct a as [| [|] | x], b as [| [|] | y], c as [| [|] | z]; cbn;
    try tauto. apply Qle_trans.
Qed.

Lemma pack_mono r1 r2 : 0 <= r1 -> r1 <= r2 -> le (pack false r1) (pack false r2).
Proof.
  intros H0 H. unfold pack.
  destruct (Qle_bool (2 ^ 1024) r1) eqn:E1; destruct (Qle_bool (2 ^ 1024) r2) eqn:E2;
    cbn [le]; try exact I.
  - apply Qle_bool_iff in E1.
    assert (H2 : 2 ^ 1024 <= r2) by lra. apply Qle_bool_iff in H2. congruence.
  - rewrite !Qred_correct. exact H.
Qed.

Lemma pack_anti r1 r2 : 0 <= r1 -> r1 <= r2 -> le (pack true r2) (pack true r1).
Proof.
  intros H0 H. unfold pack.
  destruct (Qle_bool (2 ^ 1024) r1) eqn:E1; destruct (Qle_bool (2 ^ 1024) r2) eqn:E2;
    cbn [le]; try exact I.
  - apply Qle_bool_iff in E1.
    assert (H2 : 2 ^ 1024 <= r2) by lra. apply Qle_bool_iff in H2. congruence.
  - rewrite !Qred_correct. lra.
Qed.

Lemma pack_sign r1 r2 : 0 <= r1 -> 0 <= r2 -> le (pack true r1) (pack false r2).
Proof.
  intros H1 H2. unfold pack.
  destruct (Qle_bool (2 ^ 1024) r1); destruct (Qle_bool (2 ^ 1024) r2);
    cbn [le]; try exact I. rewrite !Qred_correct. lra.
Qed.

Lemma pack_nonneg r : 0 <= r -> le (Finite 0) (pack false r).
Proof.
  intros H. unfold pack. destruct (Qle_bool (2 ^ 1024) r); cbn [le]; [exact I |].
  rewrite Qred_correct. exact H.
Qed.

Lemma pack_nonpos r : 0 <= r -> le (pack true r) (Finite 0).
Proof.
  intros H. unfold pack. destruct (Qle_bool (2 ^ 1024) r); cbn [le]; [exact I |].
  rewrite Qred_correct. lra.
Qed.

Lemma is_negative_true x : is_negative x = true <-> x < 0.
Proof.
  unfold is_negative. rewrite negb_true_iff. split; intros H.
  - apply Qnot_le_lt. intros H'. apply Qle_bool_iff in H'. congruence.
  - destruct (Qle_bool 0 x) eqn:E; [| reflexivity]. apply Qle_bool_iff in E. lra.
Qed.

Lemma is_negative_false x : is_negative x = false <-> 0 <= x.
Proof.
  unfold is_negative. rewrite negb_false_iff. apply Qle_bool_iff.
Qed.

(** What [round] gives, by the sign of the number. *)
Lemma round_zero x : x == 0 -> round x = Finite 0.
Proof. intros H. unfold round. apply Qeq_eq_bool in H. rewrite H. reflexivity. Qed.

Lemma round_pos x : 0 < x -> round x = pack false (nearest x).
Proof.
  intros H. unfold round.
  destruct (Qeq_bool x 0) eqn:E; [apply Qeq_bool_eq in E; lra |].
  replace (is_negative x) with false
    by (symmetry; apply is_negative_false; lra).
  unfold nearest, exponent, ilog2.
  destruct x as [n d]. assert (Hn : (0 < n)%Z) by (unfold Qlt in H; cbn in H; lia).
  destruct n as [| p | p]; try lia. reflexivity.
Qed.

Lemma round_neg x : x < 0 -> round x = pack true (nearest (- x)).
Proof.
  intros H. unfold round.
  destruct (Qeq_bool x 0) eqn:E; [apply Qeq_bool_eq in E; lra |].
  replace (is_negative x) with true
    by (symmetry; apply is_negative_true; exact H).
  destruct x as [n d]. assert (Hn : (n < 0)%Z) by (unfold Qlt in H; cbn in H; lia).
  destruct n as [| p | p]; try lia. reflexivity.
Qed.

(** Rounding keeps the order. *)
Lemma round_mono x y : x <= y -> le (round x) (round y).
Proof.
  intros H.
  destruct (Q_dec x 0) as [[Hx | Hx] | Hx].
  - rewrite (round_neg Hx).
    destruct (Q_dec y 0) as [[Hy | Hy] | Hy].
    + rewrite (round_neg Hy). apply pack_anti.
      * apply nearest_nonneg. lra.
      * apply nearest_mono; lra.
    + rewrite (round_pos Hy). apply pack_sign; apply nearest_nonneg; lra.
    + rewrite (round_zero Hy). apply pack_nonpos. apply nearest_nonneg. lra.
  - rewrite (round_pos Hx). assert (Hy : 0 < y) by lra.
    rewrite (round_pos Hy). apply pack_mono.
    + apply nearest_nonneg. exact Hx.
    + apply nearest_mono; assumption.
  - rewrite (round_zero Hx).
    destruct (Q_dec y 0) as [[Hy | Hy] | Hy]; [lra | |].
    + rewrite (round_pos Hy). apply pack_nonneg. apply nearest_nonneg. exact Hy.
    + rewrite (round_zero Hy). cbn. lra.
Qed.

Lemma round_not_NaN x : round x <> NaN.
Proof.
  unfold round, pack. destruct (Qeq_bool x 0); [discriminate |].
  destruct (Qle_bool _ _); discriminate.
Qed.

End DoubleFacts.

Module DisplayFacts.
Import JS Double DoubleFacts HelpCenter.

(** Rounding to the closest integer keeps the order of the magnitudes. *)
Lemma toFixed_n_0_monotone x y :
  Qabs x <= Qabs y -> (toFixed_n 0 x <= toFixed_n 0 y)%N.
Proof.
  intros Hxy. unfold toFixed_n.
  pose proof (Qabs_nonneg x) as Hx. pose proof (Qabs_nonneg y) as Hy.
  assert (H0 : forall z, 0 <= z ->
                         (0 <= Qfloor (z * inject_Z (10 ^ Z.of_nat 0) + (1 # 2)))%Z).
  { intros z Hz. change 0%Z with (Qfloor 0). apply Qfloor_resp_le.
    change (inject_Z (10 ^ Z.of_nat 0)) with 1. lra. }
  apply Z2N.inj_le; [apply H0; assumption | apply H0; assumption |].
  apply Qfloor_resp_le. change (inject_Z (10 ^ Z.of_nat 0)) with 1. lra.
Qed.

(** The whole number shown is at most one half away. *)
Lemma toFixed_n_0_close p :
  0 <= p -> Qabs (inject_Z (Z.of_N (toFixed_n 0 p)) - p) <= 1 # 2.
Proof.
  intros Hp. unfold toFixed_n. rewrite (Qabs_pos p Hp).
  change (inject_Z (10 ^ Z.of_nat 0)) with 1.
  set (y := p * 1 + (1 # 2)).
  assert (Hf : (0 <= Qfloor y)%Z).
  { change 0%Z with (Qfloor 0). apply Qfloor_resp_le. unfold y. lra. }
  rewrite Z2N.id by exact Hf.
  pose proof (Qfloor_le y) as Hl. pose proof (Qlt_floor y) as Hu.
  rewrite inject_Z_plus in Hu. change (inject_Z 1) with 1 in Hu.
  apply Qabs_Qle_condition. unfold y in *. split; lra.
Qed.

Lemma whole_mono a b : a <= b -> (whole a <= whole b)%Z.
Proof.
  intros H. unfold whole.
  destruct (Qlt_le_dec a 0) as [Ha | Ha]; destruct (Qlt_le_dec b 0) as [Hb | Hb].
  - assert (Hn : (toFixed_n 0 b <= toFixed_n 0 a)%N).
    { apply toFixed_n_0_monotone. rewrite !Qabs_neg by lra. lra. }
    lia.
  - lia.
  - lra.
  - assert (Hn : (toFixed_n 0 a <= toFixed_n 0 b)%N).
    { apply toFixed_n_0_monotone. rewrite !Qabs_pos by lra. exact H. }
    lia.
Qed.

(** ** The two operations of the percentage *)

Lemma sub_from_1_anti d1 d2 :
  le d1 d2 -> le (sub (Finite 1) d2) (sub (Finite 1) d1).
Proof.
  destruct d1 as [| [|] | x], d2 as [| [|] | y]; cbn [le sub negb]; try tauto.
  - intros _. destruct (round (1 - y)) as [| [|] | r] eqn:E; cbn [le]; try exact I.
    exfalso. exact (round_not_NaN _ E).
  - intros _. destruct (round (1 - x)) as [| [|] | r] eqn:E; cbn [le]; try exact I.
    exfalso. exact (round_not_NaN _ E).
  - intros H. apply round_mono. lra.
Qed.

Lemma times_100_mono a b :
  le a b -> le (mul a (Finite 100)) (mul b (Finite 100)).
Proof.
  destruct a as [| [|] | x], b as [| [|] | y]; cbn [le mul]; try tauto.
  - intros _. destruct (round (y * 100)) as [| [|] | r] eqn:E; cbn [le]; try exact I.
    exfalso. exact (round_not_NaN _ E).
  - intros _. destruct (round (x * 100)) as [| [|] | r] eqn:E; cbn [le]; try exact I.
    exfalso. exact (round_not_NaN _ E).
  - intros H. apply round_mono. lra.
Qed.

Lemma similarityPercent_anti d1 d2 :
  le d1 d2 -> le (similarityPercent d2) (similarityPercent d1).
Proof.
  intros H. unfold similarityPercent. apply times_100_mono, sub_from_1_anti, H.
Qed.

(** [x || 0] keeps the value of a number. *)
Lemma or_0_value v : v <> NaN -> le (or_0 (Some v)) v /\ le v (or_0 (Some v)).
Proof.
  intros Hv. unfold or_0. destruct v as [| s | x]; [contradiction | |].
  - cbn [truthy]. destruct s; split; exact I.
  - cbn [truthy]. destruct (Qeq_bool x 0) eqn:E; cbn [negb le].
    + apply Qeq_bool_eq in E. split; lra.
    + split; apply Qle_refl.
Qed.

Lemma distance_or_0_value stats c q :
  cache_stats stats = Some c -> distance_threshold c = Some q ->
  le (distance_or_0 stats) (round q) /\ le (round q) (distance_or_0 stats).
Proof.
  intros Hc Hq. unfold distance_or_0, threshold. rewrite Hc, Hq.
  apply or_0_value. apply round_not_NaN.
Qed.

(** ** Numbers between 0 and a bound that is a double *)

Lemma round_bounded x b e :
  0 <= x -> x <= b -> b < 2 ^ (e + 53) -> (-1074 <= e)%Z ->
  le (round b) (Finite b) ->
  exists r, round x = Finite r /\ 0 <= r /\ r <= b /\ Qabs (r - x) <= 2 ^ e / 2.
Proof.
  intros H0 Hb Hlt He Hround.
  pose proof (pow2_pos e) as Hpe.
  destruct (Q_dec x 0) as [[Hx | Hx] | Hx]; [lra | |].
  - pose proof (le_trans _ _ _ (round_mono Hb) Hround) as Hle.
    rewrite (round_pos Hx) in *. unfold pack in *.
    destruct (Qle_bool (2 ^ 1024) (nearest x)); [contradiction |].
    cbn [le] in Hle. rewrite Qred_correct in Hle.
    exists (Qred (nearest x)). split; [reflexivity |].
    rewrite Qred_correct.
    split; [apply nearest_nonneg; exact Hx |]. split; [exact Hle |].
    apply Qle_trans with (2 ^ exponent x / 2); [apply nearest_close; exact Hx |].
    assert (Hex : (exponent x <= e)%Z).
    { destruct (ilog2_spec Hx) as [Hl _].
      assert (Hp : 2 ^ ilog2 x < 2 ^ (e + 53)) by lra.
      apply pow2_lt_inv in Hp. unfold exponent. lia. }
    unfold Qdiv. apply Qmult_le_compat_r; [apply pow2_le; exact Hex |].
    vm_compute. discriminate.
  - exists 0. rewrite (round_zero Hx). split; [reflexivity |].
    split; [lra |]. split; [lra |].
    setoid_replace (0 - x) with 0 by lra. change (Qabs 0) with 0.
    apply Qlt_le_weak, Qlt_shift_div_l; [reflexivity | lra].
Qed.

Lemma round_unit x :
  0 <= x -> x <= 1 ->
  exists r, round x = Finite r /\ 0 <= r /\ r <= 1 /\ Qabs (r - x) <= 2 ^ (-53).
Proof.
  intros H0 H1.
  destruct (@round_bounded x 1 (-52)%Z H0 H1) as (r & Hr & Hr0 & Hr1 & Hc).
  - reflexivity.
  - lia.
  - vm_compute. discriminate.
  - exists r. split; [exact Hr |]. split; [exact Hr0 |]. split; [exact Hr1 | exact Hc].
Qed.

Lemma round_cent x :
  0 <= x -> x <= 100 ->
  exists r, round x = Finite r /\ 0 <= r /\ r <= 100 /\ Qabs (r - x) <= 2 ^ (-47).
Proof.
  intros H0 H1.
  destruct (@round_bounded x 100 (-46)%Z H0 H1) as (r & Hr & Hr0 & Hr1 & Hc).
  - reflexivity.
  - lia.
  - vm_compute. discriminate.
  - exists r. split; [exact Hr |]. split; [exact Hr0 |]. split; [exact Hr1 | exact Hc].
Qed.

(** The percentage of a threshold between 0 and 1. *)
Lemma similarityPercent_close stats c q :
  cache_stats stats = Some c -> distance_threshold c = Some q ->
  0 <= q -> q <= 1 ->
  exists d p,
    round q = Finite d /\ 0 <= d /\ d <= 1
    /\ similarityPercent (distance_or_0 stats) = Finite p
    /\ 0 <= p /\ p <= 100
    /\ Qabs (p - (1 - d) * 100) <= 2 ^ (-45).
Proof.
  intros Hc Hq H0 H1.
  destruct (round_unit H0 H1) as (d & Hd & Hd0 & Hd1 & _).
  exists d.
  assert (Hv : exists d0, distance_or_0 stats = Finite d0 /\ d0 == d).
  { unfold distance_or_0, threshold, or_0. rewrite Hc, Hq, Hd. cbn [truthy].
    destruct (Qeq_bool d 0) eqn:E; cbn [negb].
    - apply Qeq_bool_eq in E. exists 0. split; [reflexivity | lra].
    - exists d. split; [reflexivity | reflexivity]. }
  destruct Hv as (d0 & -> & Hd0').
  unfold similarityPercent. cbn [sub].
  destruct (@round_unit (1 - d0)) as (s & Hs & Hs0 & Hs1 & Hsc); [lra | lra |].
  rewrite Hs. cbn [mul].
  destruct (@round_cent (s * 100)) as (p & Hp & Hp0 & Hp1 & Hpc); [lra | lra |].
  exists p. split; [exact Hd |]. split; [exact Hd0 |]. split; [exact Hd1 |].
  split; [exact Hp |]. split; [exact Hp0 |]. split; [exact Hp1 |].
  setoid_replace (2 ^ (-53)) with (1 # 9007199254740992) in Hsc by reflexivity.
  setoid_replace (2 ^ (-47)) with (1 # 140737488355328) in Hpc by reflexivity.
  setoid_replace (2 ^ (-45)) with (1 # 35184372088832) by reflexivity.
  apply Qabs_Qle_condition in Hsc. apply Qabs_Qle_condition in Hpc.
  apply Qabs_Qle_condition. split; lra.
Qed.

End DisplayFacts.

(** C5. The "Similarity Threshold" item of the stats panel shows
    [(1 - distance_threshold) * 100], computed on doubles and written by
    [toFixed(0)], and a per cent sign; it is there when the panel is open
    and the stats have arrived.  The percentage never increases when the
    distance threshold grows, and neither does the whole number shown.
    For a threshold between 0 and 1 the percentage computed is within
    [2^-45] of [(1 - d) * 100] for the double [d] of the threshold, and the
    number shown is a whole number within one half of the percentage.
    When the cache stats or the threshold are missing, the threshold
    counts as 0 and the item reads 100%. *)
Theorem similarity_threshold_display :
  (forall stats,
      HelpCenter.similarityItem true (Some stats)
      = [div "stat-item"
             [span "stat-label" [text "Similarity Threshold"];
              span "stat-value"
                   [HelpCenter.toFixed_0
                      (HelpCenter.similarityPercent (HelpCenter.distance_or_0 stats));
                    text "%"]]])
  /\ (forall stats, HelpCenter.similarityItem false stats = [])
  /\ (forall showStats, HelpCenter.similarityItem showStats None = [])
  /\ (forall stats c q,
         HelpCenter.cache_stats stats = Some c ->
         HelpCenter.distance_threshold c = Some q ->
         Double.le (HelpCenter.distance_or_0 stats) (Double.round q)
         /\ Double.le (Double.round q) (HelpCenter.distance_or_0 stats))
  /\ (forall d1 d2,
         Double.le d1 d2 ->
         Double.le (HelpCenter.similarityPercent d2) (HelpCenter.similarityPercent d1))
  /\ (forall stats1 c1 q1 stats2 c2 q2,
         HelpCenter.cache_stats stats1 = Some c1 ->
         HelpCenter.distance_threshold c1 = Some q1 ->
         HelpCenter.cache_stats stats2 = Some c2 ->
         HelpCenter.distance_threshold c2 = Some q2 ->
         q1 <= q2 ->
         Double.le (HelpCenter.similarityPercent (HelpCenter.distance_or_0 stats2))
                   (HelpCenter.similarityPercent (HelpCenter.distance_or_0 stats1))
         /\ (forall p1 p2,
                HelpCenter.similarityPercent (HelpCenter.distance_or_0 stats1)
                = Double.Finite p1 ->
                HelpCenter.similarityPercent (HelpCenter.distance_or_0 stats2)
                = Double.Finite p2 ->
                (HelpCenter.whole p2 <= HelpCenter.whole p1)%Z))
  /\ (forall p,
         Qabs p < inject_Z (10 ^ 21) ->
         HelpCenter.toFixed_0 (Double.Finite p)
         = text ((if Qlt_le_dec p 0 then "-" else "")
                   ++ digits (Z.abs_N (HelpCenter.whole p)))%string)
  /\ (forall stats c q,
         HelpCenter.cache_stats stats = Some c ->
         HelpCenter.distance_threshold c = Some q ->
         0 <= q -> q <= 1 ->
         exists d p,
           Double.round q = Double.Finite d /\ 0 <= d /\ d <= 1
           /\ HelpCenter.similarityPercent (HelpCenter.distance_or_0 stats)
              = Double.Finite p
           /\ Qabs (p - (1 - d) * 100) <= 2 ^ (-45)
           /\ Qabs (inject_Z (HelpCenter.whole p) - p) <= 1 # 2
           /\ HelpCenter.similarityItem true (Some stats)
              = [div "stat-item"
                     [span "stat-label" [text "Similarity Threshold"];
                      span "stat-value"
                           [text (digits (Z.to_N (HelpCenter.whole p))); text "%"]]])
  /\ (forall stats,
         HelpCenter.cache_stats stats = None
         \/ (exists c, HelpCenter.cache_stats stats = Some c
                       /\ HelpCenter.distance_threshold c = None) ->
         HelpCenter.distance_or_0 stats = Double.Finite 0
         /\ HelpCenter.similarityItem true (Some stats)
            = [div "stat-item"
                   [span "stat-label" [text "Similarity Threshold"];
                    span "stat-value" [text "100"; text "%"]]]).
Proof.
  split; [reflexivity |]. split; [intros [stats |]; reflexivity |].
  split; [intros [|]; reflexivity |].
  split; [exact DisplayFacts.distance_or_0_value |].
  split; [exact DisplayFacts.similarityPercent_anti |].
  split; [| split; [| split]].
  - intros stats1 c1 q1 stats2 c2 q2 Hc1 Hq1 Hc2 Hq2 Hle.
    assert (H : Double.le (HelpCenter.distance_or_0 stats1)
                          (HelpCenter.distance_or_0 stats2)).
    { destruct (DisplayFacts.distance_or_0_value _ Hc1 Hq1) as [H1 _].
      destruct (DisplayFacts.distance_or_0_value _ Hc2 Hq2) as [_ H2].
      eapply DoubleFacts.le_trans; [exact H1 |].
      eapply DoubleFacts.le_trans; [apply DoubleFacts.round_mono; exact Hle | exact H2]. }
    pose proof (DisplayFacts.similarityPercent_anti _ _ H) as Hp.
    split; [exact Hp |].
    intros p1 p2 E1 E2. rewrite E1, E2 in Hp. cbn [Double.le] in Hp.
    apply DisplayFacts.whole_mono. exact Hp.
  - intros p Hp. unfold HelpCenter.toFixed_0.
    destruct (Qle_bool (inject_Z (10 ^ 21)) (Qabs p)) eqn:E;
      [apply Qle_bool_iff in E; exfalso; lra |].
    unfold toFixed, HelpCenter.whole. cbn [toFixed_digits].
    destruct (Qlt_le_dec p 0); [rewrite Zabs2N.inj_opp |]; rewrite Zabs2N.id; reflexivity.
  - intros stats c q Hc Hq H0 H1.
    destruct (DisplayFacts.similarityPercent_close _ Hc Hq H0 H1)
      as (d & p & Hd & Hd0 & Hd1 & Hp & Hp0 & Hp1 & Hclose).
    exists d, p.
    assert (Hw : HelpCenter.whole p = Z.of_N (toFixed_n 0 p)).
    { unfold HelpCenter.whole. destruct (Qlt_le_dec p 0); [lra | reflexivity]. }
    split; [exact Hd |]. split; [exact Hd0 |]. split; [exact Hd1 |].
    split; [exact Hp |]. split; [exact Hclose |].
    split; [rewrite Hw; apply DisplayFacts.toFixed_n_0_close; exact Hp0 |].
    unfold HelpCenter.similarityItem, HelpCenter.similarityThreshold.
    rewrite Hp. unfold HelpCenter.toFixed_0.
    destruct (Qle_bool (inject_Z (10 ^ 21)) (Qabs p)) eqn:E.
    { apply Qle_bool_iff in E. rewrite (Qabs_pos p Hp0) in E.
      exfalso. assert (H : inject_Z (10 ^ 21) <= 100) by lra.
      vm_compute in H. apply H. reflexivity. }
    rewrite Hw, N2Z.id. unfold toFixed. cbn [toFixed_digits].
    destruct (Qlt_le_dec p 0); [lra | reflexivity].
  - intros stats H.
    assert (H0 : HelpCenter.distance_or_0 stats = Double.Finite 0).
    { unfold HelpCenter.distance_or_0, HelpCenter.threshold.
      destruct H as [-> | (c & -> & ->)]; reflexivity. }
    split; [exact H0 |].
    unfold HelpCenter.similarityItem, HelpCenter.similarityThreshold.
    rewrite H0. reflexivity.
Qed.

Lemma similarity_threshold_display_witness :
  HelpCenter.similarityItem true (Some Scenario.stats_without_cache)
  = [div "stat-item"
         [span "stat-label" [text "Similarity Threshold"];
          span "stat-value" [text "100"; text "%"]]]
  /\ HelpCenter.similarityItem true (Some (Scenario.stats_with_threshold 0.425))
     = [div "stat-item"
            [span "stat-label" [text "Similarity Threshold"];
             span "stat-value" [text "57"; text "%"]]]
  /\ Double.le (HelpCenter.similarityPercent (Double.round 0.2))
               (HelpCenter.similarityPercent (Double.round 0.1)).
Proof.
  destruct similarity_threshold_display
    as (Hitem & _ & _ & _ & Hdec & _ & _ & _ & Hdef).
  split; [| split].
  - apply Hdef. left. reflexivity.
  - rewrite Hitem. vm_compute. reflexivity.
  - apply Hdec. vm_compute. discriminate.
Defined.


(* ===================================================================== *)
(** * More of the JavaScript fragment *)
(* ===================================================================== *)

Module TrimFacts.
Import JS JSFacts.

Lemma trimStart_split s :
  exists a, s = a ++ trimStart s /\ forallb isWhiteSpace a = true.
Proof.
  induction s as [| c s (a & Hs & Ha)]; simpl.
  - exists []. split; reflexivity.
  - destruct (isWhiteSpace c) eqn:Ec.
    + exists (c :: a). split; [simpl; congruence | simpl; rewrite Ec; exact Ha].
    + exists []. split; reflexivity.
Qed.

Lemma trimStart_head s c u : trimStart s = c :: u -> isWhiteSpace c = false.
Proof.
  induction s as [| d s IH]; simpl; [discriminate |].
  destruct (isWhiteSpace d) eqn:Ed; [exact IH |].
  intros H. injection H as <- _. exact Ed.
Qed.

Lemma trimStart_fixed s c u : s = c :: u -> isWhiteSpace c = false -> trimStart s = s.
Proof. intros -> Hc. simpl. rewrite Hc. reflexivity. Qed.

Lemma forallb_rev (f : N -> bool) l : forallb f (rev l) = forallb f l.
Proof.
  induction l as [| x l IH]; simpl; [reflexivity |].
  rewrite forallb_app, IH. simpl. rewrite andb_true_r. apply andb_comm.
Qed.

Lemma trimEnd_split s :
  exists b, s = trimEnd s ++ b /\ forallb isWhiteSpace b = true.
Proof.
  unfold trimEnd. destruct (trimStart_split (rev s)) as (a & Hs & Ha).
  exists (rev a). split.
  - rewrite <- rev_app_distr, <- Hs, rev_involutive. reflexivity.
  - rewrite forallb_rev. exact Ha.
Qed.

(** The last code unit of a string trimmed at its end is not white space. *)
Lemma trimEnd_last s u c : trimEnd s = u ++ [c] -> isWhiteSpace c = false.
Proof.
  unfold trimEnd. intros H. apply (f_equal (@rev N)) in H.
  rewrite rev_involutive, rev_app_distr in H. simpl in H.
  eapply trimStart_head. exact H.
Qed.

(** Trimming at the end keeps the first code unit. *)
Lemma trimEnd_keeps_head c u :
  isWhiteSpace c = false -> exists v, trimEnd (c :: u) = c :: v.
Proof.
  intros Hc. destruct (trimEnd_split (c :: u)) as (b & Hs & Hb).
  destruct (trimEnd (c :: u)) as [| d v] eqn:E.
  - simpl in Hs. subst b. simpl in Hb. rewrite Hc in Hb. discriminate.
  - simpl in Hs. injection Hs as <- _. exists v. reflexivity.
Qed.

Lemma trimEnd_fixed s u c : s = u ++ [c] -> isWhiteSpace c = false -> trimEnd s = s.
Proof.
  intros -> Hc. unfold trimEnd. rewrite rev_app_distr. simpl. rewrite Hc.
  simpl. rewrite rev_involutive. reflexivity.
Qed.

Lemma trim_split s :
  exists a b, s = a ++ trim s ++ b
              /\ forallb isWhiteSpace a = true /\ forallb isWhiteSpace b = true.
Proof.
  unfold trim. destruct (trimStart_split s) as (a & Hs & Ha).
  destruct (trimEnd_split (trimStart s)) as (b & Ht & Hb).
  exists a, b. split; [| split; assumption].
  rewrite <- Ht. exact Hs.
Qed.

Lemma trim_ends s :
  trim s <> [] ->
  exists c u d v, trim s = c :: u /\ trim s = v ++ [d]
                  /\ isWhiteSpace c = false /\ isWhiteSpace d = false.
Proof.
  intros Hne. unfold trim in *.
  destruct (trimStart s) as [| c0 u0] eqn:Es; [exfalso; apply Hne; reflexivity |].
  pose proof (@trimStart_head s c0 u0 Es) as Hc0.
  destruct (@trimEnd_keeps_head c0 u0 Hc0) as (v0 & Hv0).
  destruct (@exists_last _ _ Hne) as (v & d & Hlast).
  exists c0, v0, d, v. repeat split; try assumption.
  eapply trimEnd_last. exact Hlast.
Qed.

Lemma trim_idempotent s : trim (trim s) = trim s.
Proof.
  destruct (list_eq_dec N.eq_dec (trim s) []) as [E | Hne].
  - rewrite E. reflexivity.
  - destruct (@trim_ends s Hne) as (c & u & d & v & Hhead & Hlast & Hc & Hd).
    unfold trim at 1. rewrite (@trimStart_fixed (trim s) c u Hhead Hc).
    apply (@trimEnd_fixed (trim s) v d Hlast Hd).
Qed.

End TrimFacts.

(** X1. What the search bar submits is the text of the box without the
    white space around it: the text is white space, then the submitted
    query, then white space; the query starts and ends with a code unit
    that is not white space and trimming it again changes nothing.  A
    text of white space only submits nothing. *)
Theorem submit_passes_trimmed_text (S P : Type) (query : jsstring)
        (onSearch : jsstring -> Async S P unit) :
  exists a q b,
    query = a ++ q ++ b
    /\ forallb isWhiteSpace a = true /\ forallb isWhiteSpace b = true
    /\ (q = [] -> SearchBar.handleSubmit query onSearch = Return tt)
    /\ (q <> [] ->
        SearchBar.handleSubmit query onSearch = detach (onSearch q)
        /\ trim q = q
        /\ exists c u d v, q = c :: u /\ q = v ++ [d]
                           /\ isWhiteSpace c = false /\ isWhiteSpace d = false).
Proof.
  destruct (TrimFacts.trim_split query) as (a & b & Hq & Ha & Hb).
  exists a, (trim query), b. split; [exact Hq |]. split; [exact Ha |].
  split; [exact Hb |]. unfold SearchBar.handleSubmit. split.
  - intros E. rewrite E. reflexivity.
  - intros Hne. split; [| split].
    + apply JSFacts.truthy_string_nonempty in Hne. rewrite Hne. reflexivity.
    + apply TrimFacts.trim_idempotent.
    + apply TrimFacts.trim_ends. exact Hne.
Qed.

(* ===================================================================== *)
(** * The movie page: how a search ends *)
(* ===================================================================== *)

Module SearchOutcome.
Import JS Runtime Api App JSFacts RuntimeFacts AppFacts MoviePage.

Lemma handleSearch_perform_state env net now r q s :
  final_state (perform net now (handleSearch env r q) s)
  = settled (snd (net (searchRequest env r q))) (begun q s).
Proof.
  unfold handleSearch, searchRequest, searchParams, settled, failure_of, begun.
  destruct (searchType r); run_handler; try rewrite stringify_filtered;
    destruct (net _) as [t o]; by_outcome o; run_handler; reflexivity.
Qed.

(** A search called without [await], up to the point where it waits. *)
Lemma detach_handleSearch_world env now r q w :
  exists k,
    run now (detach (handleSearch env r q)) w
    = ({| state := begun q (state w);
          timers := timers w;
          pending := pending w ++ [k] |},
       [searchRequest env r q])
    /\ forall o now' w',
        run now' (k o) w'
        = ({| state := settled o (state w'); timers := timers w'; pending := pending w' |},
           []).
Proof.
  unfold detach, handleSearch, searchRequest, searchParams, settled, failure_of, begun.
  destruct (searchType r); run_handler; try rewrite stringify_filtered;
    (eexists; split; [reflexivity |]);
    intros o now' w'; by_outcome o; run_handler; reflexivity.
Qed.

Lemma settled_keeps o s :
  hasSearched (settled o s) = hasSearched s
  /\ lastQuery (settled o s) = lastQuery s
  /\ searchType (settled o s) = searchType s
  /\ query (settled o s) = query s
  /\ currentPage (settled o s) = currentPage s
  /\ genre (settled o s) = genre s
  /\ minRating (settled o s) = minRating s
  /\ alpha (settled o s) = alpha s
  /\ distanceThreshold (settled o s) = distanceThreshold s
  /\ numResults (settled o s) = numResults s.
Proof.
  unfold settled, failure_of. by_outcome o; simpl; repeat split.
Qed.

Lemma step_settle_at env (w : World State SearchResponse) i k o now :
  nth_error (pending w) i = Some k ->
  (forall o now' w',
      run now' (k o) w'
      = ({| state := settled o (state w'); timers := timers w'; pending := pending w' |},
         [])) ->
  step (handler env) now w (FetchSettles i o)
  = ({| state := settled o (state w); timers := timers w;
        pending := remove_nth i (pending w) |}, []).
Proof.
  intros Hi Hk. unfold step. rewrite Hi, Hk. reflexivity.
Qed.

Lemma nth_error_snoc X (l : list X) (x : X) : nth_error (l ++ [x]) (List.length l) = Some x.
Proof. induction l; simpl; auto. Qed.

Lemma nth_error_snoc2 X (l : list X) (x y : X) :
  nth_error ((l ++ [x]) ++ [y]) (Datatypes.S (List.length l)) = Some y.
Proof. induction l; simpl; auto. Qed.

Lemma remove_nth_snoc X (l : list X) (x : X) : remove_nth (List.length l) (l ++ [x]) = l.
Proof. induction l as [| a l IH]; [reflexivity | simpl; f_equal; exact IH]. Qed.

Lemma remove_nth_snoc2 X (l : list X) (x y : X) :
  remove_nth (Datatypes.S (List.length l)) ((l ++ [x]) ++ [y]) = l ++ [x].
Proof. induction l as [| a l IH]; [reflexivity | simpl; f_equal; exact IH]. Qed.

End SearchOutcome.

(** X2. A search whose request is answered (OK status, a text that
    parses) ends with the results of the answer, no error, the loading
    flag off, [hasSearched] on and the query as last query; the mode, the
    options and the text of the search box are as before.  The grid then
    shows "No Results Found" for an empty answer, and otherwise one card
    per result, numbered from 0, each rendered in the mode the page is in
    when the answer arrives (not the mode the request was built in). *)
Theorem search_success_installs_results env net now (r : App.State) q s resp data :
  snd (net (App.searchRequest env r q)) = Resolved resp ->
  ok resp = true -> json resp = inr data ->
  let s' := final_state (perform net now (App.handleSearch env r q) s) in
  App.results s' = Api.results data
  /\ App.error s' = None
  /\ App.isLoading s' = false
  /\ App.hasSearched s' = true
  /\ App.lastQuery s' = q
  /\ App.searchType s' = App.searchType s
  /\ App.numResults s' = App.numResults s
  /\ App.query s' = App.query s
  /\ AppView.errorBanner s' = []
  /\ AppView.resultsGrid s'
     = match Api.results data with
       | [] => ResultsGrid.NoResults
       | _ :: _ =>
           ResultsGrid.Grid (List.length (Api.results data))
                            (SearchType_string (App.searchType s))
                            (ResultsGrid.cards 0 (Api.results data)
                                               (SearchType_string (App.searchType s)))
       end.
Proof.
  intros Hnet Hok Hjson s'. subst s'.
  rewrite SearchOutcome.handleSearch_perform_state, Hnet.
  unfold MoviePage.settled, MoviePage.failure_of. rewrite Hok, Hjson.
  destruct resp as [b st j]. simpl in Hok, Hjson. subst b j.
  unfold AppView.resultsGrid, AppView.errorBanner, ResultsGrid.ResultsGrid. simpl.
  repeat split. destruct (Api.results data); reflexivity.
Qed.

Lemma search_success_installs_results_witness :
  let s' := final_state (perform (Examples.answers Examples.one_movie) 0
                                 (App.handleSearch None App.initial (lit "heist"))
                                 App.initial) in
  App.results s' = [Scenario.heat]
  /\ AppView.resultsGrid s'
     = ResultsGrid.Grid 1 "vector" (ResultsGrid.cards 0 [Scenario.heat] "vector").
Proof.
  pose proof (@search_success_installs_results None (Examples.answers Examples.one_movie)
                0%Z App.initial (lit "heist") App.initial
                {| ok := true; status := 200; json := inr Examples.one_movie |}
                Examples.one_movie eq_refl eq_refl eq_refl) as H.
  cbv zeta in H. destruct H as (Hr & _ & _ & _ & _ & _ & _ & _ & _ & Hg).
  split; [exact Hr | exact Hg].
Defined.



(** X4. The answer that arrives last wins, whichever search was started
    last.  Two searches are started one after the other; the answer to the
    second arrives first, then the answer to the first.  After the first
    arrival the page shows the results of the second search and the
    loading flag is off although a request is still open; after the second
    arrival it shows the results of the first search, while the last query
    is still the one of the second. *)
Theorem late_answer_overwrites_results env now1 now2 now3 now4
        (w : World App.State SearchResponse) r1 q1 r2 q2 d1 d2 :
  let n := List.length (pending w) in
  let w1 := fst (run now1 (detach (App.handleSearch env r1 q1)) w) in
  let w2 := fst (run now2 (detach (App.handleSearch env r2 q2)) w1) in
  let w3 := fst (step (App.handler env) now3 w2
                      (FetchSettles (S n) (MoviePage.answered d2))) in
  let w4 := fst (step (App.handler env) now4 w3
                      (FetchSettles n (MoviePage.answered d1))) in
  List.length (pending w2) = S (S n)
  /\ App.results (state w3) = Api.results d2
  /\ App.isLoading (state w3) = false
  /\ List.length (pending w3) = S n
  /\ App.results (state w4) = Api.results d1
  /\ App.lastQuery (state w4) = q2
  /\ pending w4 = pending w.
Proof.
  intros n w1 w2 w3 w4.
  destruct (SearchOutcome.detach_handleSearch_world env now1 r1 q1 w) as (k1 & Hrun1 & Hk1).
  assert (Hw1 : w1 = {| state := MoviePage.begun q1 (state w); timers := timers w;
                        pending := pending w ++ [k1] |})
    by (subst w1; rewrite Hrun1; reflexivity).
  clearbody w1. subst w1.
  destruct (SearchOutcome.detach_handleSearch_world env now2 r2 q2
              {| state := MoviePage.begun q1 (state w); timers := timers w;
                 pending := pending w ++ [k1] |})
    as (k2 & Hrun2 & Hk2).
  cbn [state timers pending] in Hrun2.
  assert (Hw2 : w2 = {| state := MoviePage.begun q2 (MoviePage.begun q1 (state w));
                        timers := timers w;
                        pending := (pending w ++ [k1]) ++ [k2] |})
    by (subst w2; rewrite Hrun2; reflexivity).
  clearbody w2. subst w2.
  assert (Hw3 : w3 = {| state := MoviePage.settled (MoviePage.answered d2)
                                   (MoviePage.begun q2 (MoviePage.begun q1 (state w)));
                        timers := timers w; pending := pending w ++ [k1] |}).
  { subst w3 n. rewrite (@SearchOutcome.step_settle_at env _ _ k2);
      [cbn [fst state timers pending];
       rewrite SearchOutcome.remove_nth_snoc2; reflexivity
      | apply SearchOutcome.nth_error_snoc2 | exact Hk2]. }
  clearbody w3. subst w3.
  assert (Hw4 : w4 = {| state := MoviePage.settled (MoviePage.answered d1)
                                   (MoviePage.settled (MoviePage.answered d2)
                                      (MoviePage.begun q2 (MoviePage.begun q1 (state w))));
                        timers := timers w; pending := pending w |}).
  { subst w4 n. rewrite (@SearchOutcome.step_settle_at env _ _ k1);
      [cbn [fst state timers pending];
       rewrite SearchOutcome.remove_nth_snoc; reflexivity
      | apply SearchOutcome.nth_error_snoc | exact Hk1]. }
  clearbody w4. subst w4. subst n. cbn [state timers pending].
  split; [rewrite !length_app; simpl; lia |].
  split; [reflexivity |]. split; [reflexivity |].
  split; [rewrite length_app; simpl; lia |].
  split; [reflexivity |]. split; reflexivity.
Qed.

Module MoviePageFacts.
Import JS Runtime Api App JSFacts RuntimeFacts AppFacts MoviePage.

Lemma begun_consistent q s :
  q <> [] -> trim q = q -> searched_consistent (begun q s).
Proof.
  intros Hq Ht. unfold searched_consistent, begun. simpl.
  split; [split; intros _; [exact Hq | reflexivity] | exact Ht].
Qed.

Lemma quiet_of_settled k :
  (forall o now w,
      run now (k o) w
      = ({| state := settled o (state w); timers := timers w; pending := pending w |},
         [])) ->
  is_quiet k.
Proof.
  intros Hk o now w. rewrite Hk. simpl.
  destruct (SearchOutcome.settled_keeps o (state w)) as (Hh & Hl & _).
  repeat split; assumption.
Qed.

Lemma run_search_consistent env now r q w :
  q <> [] -> trim q = q ->
  Forall (is_rerun env) (timers w) -> Forall is_quiet (pending w) ->
  world_consistent env (fst (run now (detach (handleSearch env r q)) w)).
Proof.
  intros Hq Ht Hts Hps.
  destruct (SearchOutcome.detach_handleSearch_world env now r q w) as (k & Hrun & Hk).
  rewrite Hrun. simpl. split; [apply begun_consistent; assumption |].
  split; [exact Hts |].
  apply Forall_app. split; [exact Hps |].
  constructor; [apply quiet_of_settled; exact Hk | constructor].
Qed.

(** An update of a field other than [hasSearched] and [lastQuery]. *)
Ltac other_field :=
  match goal with
  | H : world_consistent _ _ |- _ =>
      destruct H as ((Hiff & Htrim) & Hts & Hps);
      repeat split; simpl; try apply Hiff; try exact Htrim; try exact Hts; try exact Hps
  end.

Lemma step_event_consistent env now w e :
  world_consistent env w ->
  world_consistent env (fst (step (handler env) now w (Runtime.Event e))).
Proof.
  intros Hw. destruct e as [p | v | | t | v | v | v | v | v];
    cbn -[handleSearch detach trim].
  - destruct p; cbn -[handleSearch detach trim]; other_field.
  - other_field.
  - unfold SearchBar.handleSubmit.
    destruct (truthy_string (trim (query (state w)))) eqn:E.
    + destruct Hw as (_ & Hts & Hps).
      apply run_search_consistent; try assumption.
      * apply truthy_string_nonempty. exact E.
      * apply TrimFacts.trim_idempotent.
    + exact Hw.
  - destruct (truthy_string (lastQuery (state w))) eqn:E;
      destruct (hasSearched (state w)) eqn:Eh; cbn -[handleSearch detach trim];
      try other_field.
    apply Forall_app. split; [exact Hts |].
    constructor; [| constructor].
    exists (state w), (lastQuery (state w)).
    split; [reflexivity |]. split; [| exact Htrim].
    apply truthy_string_nonempty. exact E.
  - other_field.
  - other_field.
  - other_field.
  - other_field.
  - other_field.
Qed.

Lemma step_timer_consistent env now w i :
  world_consistent env w ->
  world_consistent env (fst (step (handler env) now w (TimerFires i))).
Proof.
  intros Hw. unfold step. destruct (nth_error (timers w) i) as [cb |] eqn:Hi;
    [| exact Hw].
  destruct Hw as (_ & Hts & Hps).
  destruct (@Forall_nth_error _ (is_rerun env) _ _ _ Hts Hi) as (r & q & -> & Hq & Ht).
  apply run_search_consistent; try assumption.
  apply Forall_remove_nth. exact Hts.
Qed.

Lemma step_settle_consistent env now w i o :
  world_consistent env w ->
  world_consistent env (fst (step (handler env) now w (FetchSettles i o))).
Proof.
  intros Hw. unfold step. destruct (nth_error (pending w) i) as [k |] eqn:Hi;
    [| exact Hw].
  destruct Hw as ((Hiff & Htrim) & Hts & Hps).
  pose proof (@Forall_nth_error _ is_quiet _ _ _ Hps Hi) as Hk.
  destruct (Hk o now {| state := state w; timers := timers w;
                        pending := remove_nth i (pending w) |})
    as (_ & Ht' & Hp' & Hh & Hl).
  cbn [state timers pending] in *.
  split; [| split].
  - unfold searched_consistent. rewrite Hh, Hl. split; assumption.
  - rewrite Ht'. exact Hts.
  - rewrite Hp'. apply Forall_remove_nth. exact Hps.
Qed.

Lemma start_consistent env : world_consistent env start.
Proof.
  split; [| split; constructor].
  split; [split; [discriminate | intros H; exfalso; apply H; reflexivity] | reflexivity].
Qed.

End MoviePageFacts.

(** X5. On the movie page [hasSearched] holds exactly when the last query
    is not empty, and the last query never has white space around it:
    this is so in every world the page can reach, whatever the user does
    and in whatever order timers fire and answers arrive.  (So the two
    tests of [lastQuery && hasSearched] always agree.) *)
Theorem last_query_goes_with_hasSearched env w reqs :
  reachable (App.handler env) App.permitted App.start w reqs ->
  (App.hasSearched (state w) = true <-> App.lastQuery (state w) <> [])
  /\ trim (App.lastQuery (state w)) = App.lastQuery (state w)
  /\ (AppView.resultsGrid (state w) = ResultsGrid.Discover ->
      App.lastQuery (state w) = []).
Proof.
  intros Hr.
  assert (Hw : MoviePage.world_consistent env w).
  { induction Hr as [| w reqs now e Hr IH He | w reqs now i Hr IH | w reqs now i o Hr IH].
    - apply MoviePageFacts.start_consistent.
    - apply MoviePageFacts.step_event_consistent. exact IH.
    - apply MoviePageFacts.step_timer_consistent. exact IH.
    - apply MoviePageFacts.step_settle_consistent. exact IH. }
  destruct Hw as ((Hiff & Htrim) & _).
  split; [exact Hiff |]. split; [exact Htrim |].
  unfold AppView.resultsGrid, ResultsGrid.ResultsGrid.
  destruct (App.isLoading (state w)); [discriminate |].
  destruct (App.hasSearched (state w)) eqn:Eh; simpl.
  - destruct (Nat.eqb _ 0); discriminate.
  - intros _. destruct (App.lastQuery (state w)) as [| c u]; [reflexivity |].
    exfalso. assert (H : false = true) by (apply Hiff; discriminate). discriminate.
Qed.

Lemma last_query_goes_with_hasSearched_witness :
  (App.hasSearched (state (fst Scenario.submitted)) = true
   <-> App.lastQuery (state (fst Scenario.submitted)) <> [])
  /\ trim (App.lastQuery (state (fst Scenario.submitted)))
     = App.lastQuery (state (fst Scenario.submitted)).
Proof.
  destruct (@last_query_goes_with_hasSearched None _ _ RequestFacts.scenario_submitted)
    as (H1 & H2 & _).
  split; [exact H1 | exact H2].
Defined.

(* ===================================================================== *)
(** * The help chat: turns *)
(* ===================================================================== *)

Module ChatPageFacts.
Import JS Runtime Api HelpChat JSFacts RuntimeFacts AppFacts ChatFacts ChatPage.

(** A turn that passes the guard, called without [await]. *)
Lemma detach_sendMessage_world now r text w :
  trim text <> [] -> isLoading r = false ->
  exists k,
    run now (detach (sendMessage r text)) w
    = ({| state := setIsLoading true
                     (setInput (lit "")
                        (setMessages (fun prev => prev ++ [userMessage now now text])
                                     (state w)));
          timers := timers w;
          pending := pending w ++ [k] |},
       [chatRequest text])
    /\ finishes k.
Proof.
  intros Ht Hl. apply truthy_string_nonempty in Ht.
  unfold detach, sendMessage. rewrite Ht, Hl. run_chat.
  eexists. split; [reflexivity |].
  intros o now' w'.
  by_outcome o; run_chat; eexists; (split; [| reflexivity]); reflexivity.
Qed.

Lemma detach_sendMessage_stopped now r text w :
  trim text = [] \/ isLoading r = true ->
  run now (detach (sendMessage r text)) w = (w, []).
Proof.
  intros H. unfold detach, sendMessage. destruct H as [H | H].
  - rewrite H. reflexivity.
  - rewrite H, orb_true_r. reflexivity.
Qed.

Lemma turns_close n : turns n true ++ [assistant] = turns (S n) false.
Proof. induction n as [| n IH]; simpl; [reflexivity | rewrite IH; reflexivity]. Qed.

Lemma turns_open n : turns n false ++ [user] = turns n true.
Proof. induction n as [| n IH]; simpl; [reflexivity | rewrite IH; reflexivity]. Qed.

(** One turn started from a world that is in order. *)
Lemma turn_ok now text w reqs :
  world_ok w reqs ->
  world_ok (fst (run now (detach (sendMessage (state w) text)) w))
           (reqs ++ snd (run now (detach (sendMessage (state w) text)) w)).
Proof.
  intros (Hts & Hps & n & Hroles & Hreqs).
  destruct (list_eq_dec N.eq_dec (trim text) []) as [Et | Et].
  { rewrite detach_sendMessage_stopped by (left; exact Et).
    cbn [fst snd]. rewrite app_nil_r.
    repeat split; try assumption. exists n. split; assumption. }
  destruct (isLoading (state w)) eqn:El.
  { rewrite detach_sendMessage_stopped by (right; exact El).
    cbn [fst snd]. rewrite app_nil_r. unfold world_ok. rewrite El.
    repeat split; try assumption. exists n. split; assumption. }
  destruct (@detach_sendMessage_world now (state w) text w Et El) as (k & Hrun & Hk).
  rewrite Hrun. unfold world_ok. cbn [fst snd state timers pending isLoading setIsLoading].
  split; [exact Hts |]. split.
  - exists k. rewrite Hps. split; [reflexivity | exact Hk].
  - exists n. cbn [messages setIsLoading setInput setMessages].
    rewrite map_app, Hroles. simpl. rewrite turns_open, length_app, Hreqs.
    simpl. split; [reflexivity | lia].
Qed.

Lemma step_ok now w reqs (a : Action HelpChatResponse Event) :
  world_ok w reqs ->
  world_ok (fst (step handler now w a)) (reqs ++ snd (step handler now w a)).
Proof.
  intros Hw. destruct a as [e | i | i o].
  - destruct e as [v | | suggestion].
    + destruct Hw as (Hts & Hps & n & Hroles & Hreqs).
      simpl. rewrite app_nil_r. unfold world_ok. simpl.
      repeat split; try assumption. exists n. split; assumption.
    + apply turn_ok. exact Hw.
    + apply turn_ok. exact Hw.
  - destruct Hw as (Hts & Hps & n & Hroles & Hreqs).
    unfold step. rewrite Hts. destruct i; simpl; rewrite app_nil_r;
      (split; [exact Hts | split; [exact Hps | exists n; split; assumption]]).
  - destruct Hw as (Hts & Hps & n & Hroles & Hreqs).
    unfold step. destruct (isLoading (state w)) eqn:El.
    + destruct Hps as (k & Hp & Hk). rewrite Hp.
      destruct i as [| i]; [| destruct i; simpl; rewrite app_nil_r;
                                unfold world_ok; rewrite El;
                                (split; [exact Hts |
                                  split; [exists k; split; assumption |
                                          exists n; split; assumption]])].
      cbn [nth_error remove_nth].
      destruct (Hk o now {| state := state w; timers := timers w; pending := [] |})
        as (m & Hm & Hrun).
      rewrite Hrun. unfold world_ok.
      cbn [fst snd state timers pending isLoading setIsLoading messages setMessages].
      rewrite app_nil_r.
      split; [exact Hts |]. split; [reflexivity |].
      exists (S n). rewrite map_app, Hroles. simpl. rewrite Hm, turns_close.
      split; [reflexivity | lia].
    + rewrite Hps. destruct i; simpl; rewrite app_nil_r; unfold world_ok; rewrite El;
        (split; [exact Hts | split; [exact Hps | exists n; split; assumption]]).
Qed.

Lemma reachable_ok suggestions w reqs :
  reachable handler (permitted suggestions) start w reqs -> world_ok w reqs.
Proof.
  intros Hr. induction Hr as [| w reqs now e Hr IH He | w reqs now i Hr IH
                              | w reqs now i o Hr IH].
  - split; [reflexivity |]. split; [reflexivity |]. exists O. split; reflexivity.
  - apply step_ok. exact IH.
  - apply step_ok. exact IH.
  - apply step_ok. exact IH.
Qed.

End ChatPageFacts.

(** X6. The chat has at most one request open.  In every world it can
    reach there are no timers, at most one suspended turn, and the loading
    flag is on exactly when a turn is suspended; while it is on, a submit
    or a click on a suggestion changes nothing and sends nothing. *)
Theorem chat_has_one_turn_open suggestions w reqs :
  reachable HelpChat.handler (HelpChat.permitted suggestions) HelpChat.start w reqs ->
  timers w = []
  /\ (List.length (pending w) <= 1)%nat
  /\ (HelpChat.isLoading (state w) = true <-> pending w <> [])
  /\ (HelpChat.isLoading (state w) = true ->
      forall now,
        step HelpChat.handler now w (Event HelpChat.SubmitForm) = (w, [])
        /\ forall suggestion,
            step HelpChat.handler now w (Event (HelpChat.ClickSuggestion suggestion))
            = (w, [])).
Proof.
  intros Hr. destruct (ChatPageFacts.reachable_ok Hr) as (Hts & Hps & _).
  split; [exact Hts |].
  destruct (HelpChat.isLoading (state w)) eqn:El.
  - destruct Hps as (k & Hp & _). rewrite Hp. simpl.
    split; [lia |]. split; [split; [discriminate | reflexivity] |].
    intros _ now. split; [| intros suggestion];
      apply ChatPageFacts.detach_sendMessage_stopped; right; exact El.
  - rewrite Hps. simpl. split; [lia |].
    split; [split; [discriminate | intros H; exfalso; apply H; reflexivity] |].
    discriminate.
Qed.

Lemma chat_has_one_turn_open_witness :
  timers (fst Scenario.asked) = []
  /\ (List.length (pending (fst Scenario.asked)) <= 1)%nat.
Proof.
  destruct (@chat_has_one_turn_open Scenario.suggestions _ _ RequestFacts.scenario_asked)
    as (H1 & H2 & _).
  split; [exact H1 | exact H2].
Defined.

(** X7. The transcript of the chat alternates: in every world the chat
    can reach, the roles of the messages are user, assistant, user,
    assistant, ..., with one more user message at the end exactly while
    the loading flag is on; and the number of requests sent so far is the
    number of user messages. *)
Theorem chat_transcript_alternates suggestions w reqs :
  reachable HelpChat.handler (HelpChat.permitted suggestions) HelpChat.start w reqs ->
  exists n,
    List.map role (HelpChat.messages (state w))
    = ChatPage.turns n (HelpChat.isLoading (state w))
    /\ List.length reqs
       = List.length (List.filter (fun m => match role m with user => true | assistant => false end)
                                  (HelpChat.messages (state w))).
Proof.
  intros Hr. destruct (ChatPageFacts.reachable_ok Hr) as (_ & _ & n & Hroles & Hreqs).
  exists n. split; [exact Hroles |]. rewrite Hreqs.
  assert (Hcount : forall l k b,
             List.map role l = ChatPage.turns k b ->
             List.length (List.filter (fun m => match role m with
                                                | user => true
                                                | assistant => false
                                                end) l)
             = (k + if b then 1 else 0)%nat).
  { intros l k. revert l. induction k as [| k IH]; intros l b Hl.
    - destruct b; simpl in Hl.
      + destruct l as [| m [| m' l]]; try discriminate.
        simpl in Hl. injection Hl as Hm. simpl. rewrite Hm. reflexivity.
      + destruct l; [reflexivity | discriminate].
    - destruct l as [| m [| m' l]]; try discriminate.
      simpl in Hl. injection Hl as Hm Hm' Hl. simpl. rewrite Hm, Hm'. simpl.
      rewrite (IH l b Hl). reflexivity. }
  symmetry. apply Hcount. exact Hroles.
Qed.

Lemma chat_transcript_alternates_witness :
  exists n,
    List.map role (HelpChat.messages (state (fst Scenario.asked)))
    = ChatPage.turns n (HelpChat.isLoading (state (fst Scenario.asked)))
    /\ List.length ([] ++ snd Scenario.asked)
       = List.length (List.filter (fun m => match role m with user => true | assistant => false end)
                                  (HelpChat.messages (state (fst Scenario.asked)))).
Proof.
  exact (@chat_transcript_alternates Scenario.suggestions _ _ RequestFacts.scenario_asked).
Defined.

(** X8. A chat turn whose request is answered (OK status, a text that
    parses) sends one request and ends with the user's message and then
    one assistant message in the transcript, the input box empty and the
    loading flag off.  The assistant message carries the answer: its text,
    its sources, the cache flag and similarity, the response time, the
    token usage and the blocked flag of the response. *)
Theorem chat_answer_appends_bot_message net now r text (s : HelpChat.State) resp data :
  trim text <> [] -> HelpChat.isLoading r = false ->
  snd (net (HelpChat.chatRequest text)) = Resolved resp ->
  ok resp = true -> json resp = inr data ->
  let out := perform net now (HelpChat.sendMessage r text) s in
  let t := fst (net (HelpChat.chatRequest text)) in
  let m := HelpChat.botMessage t t data in
  HelpChat.messages (final_state out)
  = HelpChat.messages s ++ [HelpChat.userMessage now now text; m]
  /\ HelpChat.input (final_state out) = []
  /\ HelpChat.isLoading (final_state out) = false
  /\ sent out = [HelpChat.chatRequest text]
  /\ role m = assistant
  /\ content m = answer data
  /\ sources m = Some (resp_sources data)
  /\ fromCache m = Some (from_cache data)
  /\ cacheSimilarity m = cache_similarity data
  /\ responseTimeMs m = Some (response_time_ms data)
  /\ tokenUsage m = token_usage data
  /\ blocked m = resp_blocked data.
Proof.
  intros Ht Hl Hnet Hok Hjson. apply JSFacts.truthy_string_nonempty in Ht.
  unfold HelpChat.sendMessage. rewrite Ht, Hl.
  ChatFacts.run_chat.
  destruct (net (HelpChat.chatRequest text)) as [t o]. simpl in Hnet. subst o.
  destruct resp as [b st j]. simpl in Hok, Hjson. subst b j.
  ChatFacts.run_chat. rewrite <- app_assoc. repeat split.
Qed.

Lemma chat_answer_appends_bot_message_witness :
  let out := perform (Examples.answers Examples.password_answer) 0
                     (HelpChat.sendMessage HelpChat.initial (lit "I forgot my password"))
                     HelpChat.initial in
  HelpChat.messages (final_state out)
  = [HelpChat.userMessage 0 0 (lit "I forgot my password");
     HelpChat.botMessage 3 3 Examples.password_answer]
  /\ sent out = [HelpChat.chatRequest (lit "I forgot my password")].
Proof.
  pose proof (@chat_answer_appends_bot_message (Examples.answers Examples.password_answer)
                0%Z HelpChat.initial (lit "I forgot my password") HelpChat.initial
                {| ok := true; status := 200; json := inr Examples.password_answer |}
                Examples.password_answer) as H.
  cbv zeta in H. destruct H as (Hm & _ & _ & Hs & _).
  - vm_compute. discriminate.
  - reflexivity.
  - reflexivity.
  - reflexivity.
  - reflexivity.
  - split; [exact Hm | exact Hs].
Defined.

(** X9. An answer with an OK status whose text does not parse counts as
    a failure: the turn ends with the user's message and the fixed apology
    in the transcript, one request sent, and the loading flag off. *)
Theorem chat_unreadable_answer_appends_apology net now r text (s : HelpChat.State) resp e :
  trim text <> [] -> HelpChat.isLoading r = false ->
  snd (net (HelpChat.chatRequest text)) = Resolved resp ->
  ok resp = true -> json resp = inl e ->
  let out := perform net now (HelpChat.sendMessage r text) s in
  let t := fst (net (HelpChat.chatRequest text)) in
  HelpChat.messages (final_state out)
  = HelpChat.messages s
      ++ [HelpChat.userMessage now now text; HelpChat.errorMessage t t]
  /\ sent out = [HelpChat.chatRequest text]
  /\ HelpChat.isLoading (final_state out) = false.
Proof.
  intros Ht Hl Hnet Hok Hjson. apply JSFacts.truthy_string_nonempty in Ht.
  unfold HelpChat.sendMessage. rewrite Ht, Hl.
  ChatFacts.run_chat.
  destruct (net (HelpChat.chatRequest text)) as [t o]. simpl in Hnet. subst o.
  destruct resp as [b st j]. simpl in Hok, Hjson. subst b j.
  ChatFacts.run_chat. rewrite <- app_assoc. repeat split.
Qed.

Lemma chat_unreadable_answer_appends_apology_witness :
  let out := perform Examples.unreadable 0
                     (HelpChat.sendMessage HelpChat.initial (lit "I forgot my password"))
                     HelpChat.initial in
  HelpChat.messages (final_state out)
  = [HelpChat.userMessage 0 0 (lit "I forgot my password"); HelpChat.errorMessage 4 4]
  /\ HelpChat.isLoading (final_state out) = false.
Proof.
  pose proof (@chat_unreadable_answer_appends_apology Examples.unreadable
                0%Z HelpChat.initial (lit "I forgot my password") HelpChat.initial
                {| ok := true; status := 200;
                   json := inl (Error (lit "Unexpected end of JSON input")) |}
                (Error (lit "Unexpected end of JSON input"))) as H.
  cbv zeta in H. destruct H as (Hm & _ & Hl).
  - vm_compute. discriminate.
  - reflexivity.
  - reflexivity.
  - reflexivity.
  - reflexivity.
  - split; [exact Hm | exact Hl].
Defined.

(** X10. What the info line shows for the messages the chat makes.  A
    user message has no info line.  The apology has the 'LLM' badge and
    nothing else.  The line of a message made from a response is its
    badge, the response time of the response, the token usage when the
    response has one, and then: nothing more when the response is not
    from the cache or has no similarity; the match percentage when it is
    from the cache with a similarity that is not 0; and the bare number
    in place of the percentage for a similarity of exactly 0. *)
Theorem info_line_of_chat_messages now date :
  (forall text, HelpChat.responseInfo (HelpChat.userMessage now date text) = [])
  /\ HelpChat.infoItems (HelpChat.errorMessage now date)
     = [span "llm-badge" [text "LLM"]]
  /\ (forall data,
         exists tail,
           HelpChat.infoItems (HelpChat.botMessage now date data)
           = [HelpChat.statusBadge (HelpChat.botMessage now date data);
              span "response-time" [number (response_time_ms data); text "ms"]]
             ++ match token_usage data with
                | Some usage =>
                    [span "token-usage" [number (total_tokens usage); text " tokens"]]
                | None => []
                end
             ++ tail
           /\ (from_cache data = false -> tail = [])
           /\ (cache_similarity data = None -> tail = [])
           /\ (forall sim,
                  from_cache data = true -> cache_similarity data = Some sim ->
                  ~ sim == 0 ->
                  tail = [span "cache-similarity"
                               [text (toFixed 0 (sim * 100)); text "% match"]])
           /\ (forall sim,
                  from_cache data = true -> cache_similarity data = Some sim ->
                  sim == 0 ->
                  tail = [number sim])).
Proof.
  split; [reflexivity |]. split; [reflexivity |].
  intros data.
  unfold HelpChat.infoItems, HelpChat.responseInfo.
  cbn [role HelpChat.botMessage fromCache cacheSimilarity responseTimeMs tokenUsage
       HelpChat.truthy_flag].
  destruct (from_cache data) eqn:Ec.
  - destruct (cache_similarity data) as [sim |] eqn:Es.
    + unfold truthy_number. destruct (Qeq_bool sim 0) eqn:E; cbn [negb].
      * exists [number sim]. split; [reflexivity |].
        split; [discriminate |]. split; [discriminate |].
        split; intros sim' _ Hs Hz; injection Hs as <-; [| reflexivity].
        apply Qeq_bool_eq in E. contradiction.
      * exists [span "cache-similarity" [text (toFixed 0 (sim * 100)); text "% match"]].
        split; [reflexivity |].
        split; [discriminate |]. split; [discriminate |].
        split; intros sim' _ Hs Hz; injection Hs as <-; [reflexivity |].
        apply Qeq_eq_bool in Hz. rewrite Hz in E. discriminate E.
    + exists []. split; [reflexivity |]. split; [reflexivity |]. split; [reflexivity |].
      split; intros sim _ Hs; discriminate Hs.
  - exists []. split; [reflexivity |]. split; [reflexivity |]. split; [reflexivity |].
    split; intros sim Hc; discriminate Hc.
Qed.

(** X11. The sources accordion of a message is rendered exactly when the
    message has at least one source: not for a user message, not for the
    apology, not for a response with an empty list of sources.  Its button
    shows the number of sources and "source", with an "s" exactly when
    there is more than one; the list under it is there exactly when the
    accordion is open, with one card per source, in order; the icon of
    the button points down when it is open and to the right when not. *)
Theorem sources_accordion_rendering (message : HelpChatMessage) showSources expanded :
  (ChatView.sourcesSection message showSources expanded = []
   <-> sources message = None \/ sources message = Some [])
  /\ (forall now date text,
         ChatView.sourcesSection (HelpChat.userMessage now date text) showSources expanded
         = [])
  /\ (forall now date,
         ChatView.sourcesSection (HelpChat.errorMessage now date) showSources expanded = [])
  /\ (forall now date data,
         resp_sources data = [] ->
         ChatView.sourcesSection (HelpChat.botMessage now date data) showSources expanded
         = [])
  /\ (forall src rest,
         sources message = Some (src :: rest) ->
         ChatView.sourcesSection message showSources expanded
         = [div "sources-section"
                ([elem "button" "sources-toggle"
                       [span "sources-icon"
                             [text (if showSources then [0x25BC%N] else [0x25B6%N])];
                        number (inject_Z (Z.of_nat (S (List.length rest))));
                        text " source";
                        text (match rest with [] => lit "" | _ :: _ => lit "s" end)]]
                 ++ (if showSources
                     then [div "sources-list"
                               (List.map (fun source =>
                                            ChatView.SourceCard source (expanded source))
                                         (src :: rest))]
                     else []))]).
Proof.
  split; [| split; [| split; [| split]]].
  - unfold ChatView.sourcesSection. destruct (sources message) as [[| src rest] |].
    + split; auto.
    + split; [discriminate | intros [H | H]; discriminate].
    + split; auto.
  - reflexivity.
  - reflexivity.
  - intros now date data H. unfold ChatView.sourcesSection. simpl. rewrite H. reflexivity.
  - intros src rest H. unfold ChatView.sourcesSection. rewrite H.
    destruct rest; reflexivity.
Qed.

(* ===================================================================== *)
(** * [formatContent] *)
(* ===================================================================== *)

Module FormatFacts.
Import JS JSFacts FormatContent.

Lemma split_LF_nonempty s : split_LF s <> [].
Proof.
  destruct s as [| c s]; simpl; [discriminate |].
  destruct (N.eqb c LF); [discriminate |].
  destruct (split_LF s); discriminate.
Qed.

Lemma split_LFLF_nonempty s : split_LFLF s <> [].
Proof.
  destruct s as [| c [| d s]]; simpl; try discriminate.
  destruct (N.eqb c LF && N.eqb d LF)%bool; [discriminate |].
  destruct (match s with [] => _ | _ => _ end); discriminate.
Qed.

Lemma join_cons_first sep c ps :
  ps <> [] -> join sep (cons_first c ps) = c :: join sep ps.
Proof.
  destruct ps as [| p [| q rest]]; simpl; [intros H; exfalso; apply H |..]; reflexivity.
Qed.

Lemma join_cons sep p ps : ps <> [] -> join sep (p :: ps) = p ++ sep ++ join sep ps.
Proof. destruct ps; [intros H; exfalso; apply H; reflexivity | reflexivity]. Qed.

(** Splitting at line feeds and joining again gives the string back. *)
Lemma join_split_LF s : join [LF] (split_LF s) = s.
Proof.
  induction s as [| c s IH]; [reflexivity |].
  simpl. destruct (N.eqb c LF) eqn:E.
  - apply N.eqb_eq in E. subst c.
    rewrite join_cons by apply split_LF_nonempty. rewrite IH. reflexivity.
  - rewrite join_cons_first by apply split_LF_nonempty. rewrite IH. reflexivity.
Qed.

Lemma split_LFLF_step c d s :
  split_LFLF (c :: d :: s)
  = if (N.eqb c LF && N.eqb d LF)%bool then [] :: split_LFLF s
    else cons_first c (split_LFLF (d :: s)).
Proof. reflexivity. Qed.

(** Induction two code units at a time. *)
Lemma list_ind2 (Pr : list N -> Prop) :
  Pr [] -> (forall c, Pr [c]) ->
  (forall c d s, Pr s -> Pr (d :: s) -> Pr (c :: d :: s)) ->
  forall s, Pr s.
Proof.
  intros H0 H1 H2 s. assert (H : Pr s /\ forall c, Pr (c :: s)).
  { induction s as [| d s [IHs IHc]]; [split; auto |]. split; [apply IHc |].
    intros c. apply H2; [exact IHs | apply IHc]. }
  apply H.
Qed.

Lemma join_split_LFLF s : join [LF; LF] (split_LFLF s) = s.
Proof.
  induction s as [| c | c d s IH IHd] using list_ind2; [reflexivity | reflexivity |].
  rewrite split_LFLF_step. destruct (N.eqb c LF && N.eqb d LF)%bool eqn:E.
  - apply andb_true_iff in E. destruct E as [Ec Ed].
    apply N.eqb_eq in Ec. apply N.eqb_eq in Ed. subst c d.
    rewrite join_cons by apply split_LFLF_nonempty. rewrite IH. reflexivity.
  - rewrite join_cons_first by apply split_LFLF_nonempty. rewrite IHd. reflexivity.
Qed.

Lemma includes_cons s part c :
  includes (c :: s) part = (startsWith (c :: s) part || includes s part)%bool.
Proof. destruct part; reflexivity. Qed.

(** A string without a pair of line feeds is one paragraph. *)
Lemma split_LFLF_single s : includes s [LF; LF] = false -> split_LFLF s = [s].
Proof.
  induction s as [| c | c d s IH IHd] using list_ind2; [reflexivity | reflexivity |].
  intros H. rewrite includes_cons in H. apply orb_false_iff in H. destruct H as [H0 H].
  rewrite split_LFLF_step.
  assert (E : (N.eqb c LF && N.eqb d LF)%bool = false).
  { simpl in H0. rewrite andb_true_r in H0.
    rewrite (N.eqb_sym c), (N.eqb_sym d). exact H0. }
  rewrite E, (IHd H). reflexivity.
Qed.

(** The first pair of line feeds ends the first paragraph. *)
Lemma split_LFLF_first a b :
  includes (a ++ [LF]) [LF; LF] = false ->
  split_LFLF (a ++ [LF; LF] ++ b) = a :: split_LFLF b.
Proof.
  induction a as [| c | c d a IH IHd] using list_ind2; intros H.
  - reflexivity.
  - cbn [app includes startsWith] in H.
    rewrite !andb_true_r, !andb_false_r, !orb_false_r in H.
    change (([c] ++ [LF; LF] ++ b)) with (c :: LF :: LF :: b).
    rewrite split_LFLF_step. rewrite (N.eqb_sym c), H. cbn [andb].
    change (split_LFLF (LF :: LF :: b)) with ([] :: split_LFLF b). reflexivity.
  - change ((c :: d :: a) ++ [LF; LF] ++ b) with (c :: d :: (a ++ [LF; LF] ++ b)).
    rewrite split_LFLF_step.
    change ((c :: d :: a) ++ [LF]) with (c :: (d :: a) ++ [LF]) in H.
    rewrite includes_cons in H. apply orb_false_iff in H. destruct H as [H0 H].
    assert (E : (N.eqb c LF && N.eqb d LF)%bool = false).
    { cbn [startsWith app] in H0. rewrite andb_true_r in H0.
      rewrite (N.eqb_sym c), (N.eqb_sym d). exact H0. }
    rewrite E. change (d :: a ++ [LF; LF] ++ b) with ((d :: a) ++ [LF; LF] ++ b).
    rewrite (IHd H). reflexivity.
Qed.

(** No paragraph holds a pair of line feeds. *)
Lemma split_LFLF_pieces s :
  Forall (fun p => includes p [LF; LF] = false) (split_LFLF s).
Proof.
  induction s as [| c | c d s IH IHd] using list_ind2.
  - repeat constructor.
  - repeat constructor. cbn [includes startsWith]. rewrite !andb_false_r. reflexivity.
  - rewrite split_LFLF_step. destruct (N.eqb c LF && N.eqb d LF)%bool eqn:E.
    + constructor; [reflexivity | exact IH].
    + pose proof (split_LFLF_nonempty (d :: s)) as Hne.
      destruct (split_LFLF (d :: s)) as [| p ps] eqn:Ep; [exfalso; apply Hne; reflexivity |].
      simpl. inversion IHd as [| ? ? Hp Hps]. subst. constructor; [| exact Hps].
      rewrite includes_cons, Hp, orb_false_r.
      (* the first two code units of the piece are those of the string *)
      destruct p as [| e p].
      * cbn [startsWith]. rewrite andb_false_r. reflexivity.
      * assert (He : e = d).
        { pose proof (join_split_LFLF (d :: s)) as Hj. rewrite Ep in Hj.
          destruct ps; simpl in Hj; injection Hj as -> _; reflexivity. }
        subst e. cbn [startsWith]. rewrite andb_true_r.
        rewrite (N.eqb_sym LF c), (N.eqb_sym LF d). exact E.
Qed.

End FormatFacts.

Module BoldFacts.
Import JS JSFacts FormatContent.

Lemma span_not_star_run b t :
  forallb (fun c => negb (N.eqb c STAR)) b = true ->
  span_not_star (b ++ STAR :: t) = (b, STAR :: t).
Proof.
  induction b as [| c b IH]; intros H.
  - cbn [app span_not_star]. rewrite N.eqb_refl. reflexivity.
  - cbn [forallb] in H. apply andb_true_iff in H. destruct H as [Hc Hb].
    apply negb_true_iff in Hc. cbn [app span_not_star]. rewrite Hc, (IH Hb). reflexivity.
Qed.

Lemma span_not_star_length s : 
  (List.length (fst (span_not_star s)) + List.length (snd (span_not_star s))
   = List.length s)%nat.
Proof.
  induction s as [| c s IH]; [reflexivity |].
  cbn [span_not_star]. destruct (N.eqb c STAR); [reflexivity |].
  destruct (span_not_star s) as [b rest]. simpl in *. lia.
Qed.

Lemma match_bold_found b c :
  b <> [] -> forallb (fun x => negb (N.eqb x STAR)) b = true ->
  match_bold (STAR :: STAR :: b ++ STAR :: STAR :: c) = Some (b, c).
Proof.
  intros Hne Hb. unfold match_bold. rewrite N.eqb_refl. cbn [andb].
  rewrite (@span_not_star_run b (STAR :: c) Hb). rewrite N.eqb_refl. cbn [andb].
  destruct b; [exfalso; apply Hne; reflexivity | reflexivity].
Qed.

Lemma match_bold_shorter s b rest :
  match_bold s = Some (b, rest) -> (List.length rest < List.length s)%nat.
Proof.
  unfold match_bold. destruct s as [| c [| d t]]; try discriminate.
  destruct (N.eqb c STAR && N.eqb d STAR)%bool; [| discriminate].
  pose proof (span_not_star_length t) as Hlen.
  destruct (span_not_star t) as [[| x b'] [| e [| f rest']]]; try discriminate.
  destruct (N.eqb e STAR && N.eqb f STAR)%bool; [| discriminate].
  intros H. injection H as <- <-. simpl in *. lia.
Qed.

Lemma match_bold_starts s b rest :
  match_bold s = Some (b, rest) -> startsWith s [STAR; STAR] = true.
Proof.
  unfold match_bold. destruct s as [| c [| d t]]; try discriminate.
  destruct (N.eqb c STAR && N.eqb d STAR)%bool eqn:E; [| discriminate].
  intros _. cbn [startsWith]. rewrite andb_true_r.
  rewrite (N.eqb_sym STAR c), (N.eqb_sym STAR d). exact E.
Qed.

Lemma match_bold_not_star c s : N.eqb c STAR = false -> match_bold (c :: s) = None.
Proof.
  intros Hc. unfold match_bold. destruct s; [reflexivity |]. rewrite Hc. reflexivity.
Qed.

(** More fuel than the length of the string changes nothing. *)
Lemma replace_bold_fuel f s :
  (List.length s <= f)%nat -> replace_bold_from f s = replace_bold s.
Proof.
  unfold replace_bold. remember (List.length s) as n eqn:Hn.
  assert (H : forall f1 f2 s, (List.length s <= f1)%nat -> (List.length s <= f2)%nat ->
                              replace_bold_from f1 s = replace_bold_from f2 s).
  { clear. induction f1 as [| f1 IH]; intros f2 s H1 H2.
    - destruct s; [| simpl in H1; lia]. destruct f2; reflexivity.
    - destruct f2 as [| f2].
      + destruct s; [reflexivity | simpl in H2; lia].
      + cbn [replace_bold_from]. destruct (match_bold s) as [[b rest] |] eqn:E.
        * pose proof (@match_bold_shorter s b rest E) as Hlt.
          rewrite (IH f2 rest) by lia. reflexivity.
        * destruct s as [| c s]; [reflexivity |]. simpl in H1, H2.
          rewrite (IH f2 s) by lia. reflexivity. }
  intros Hf. apply H; lia.
Qed.

Lemma replace_bold_match s b rest :
  match_bold s = Some (b, rest) ->
  replace_bold s = lit "<strong>" ++ b ++ lit "</strong>" ++ replace_bold rest.
Proof.
  intros E. pose proof (@match_bold_shorter s b rest E) as Hlt.
  unfold replace_bold at 1. destruct (List.length s) as [| n] eqn:Hn; [lia |].
  cbn [replace_bold_from]. rewrite E. rewrite replace_bold_fuel by lia. reflexivity.
Qed.

Lemma replace_bold_keep c s :
  match_bold (c :: s) = None -> replace_bold (c :: s) = c :: replace_bold s.
Proof.
  intros E. unfold replace_bold at 1. cbn [List.length replace_bold_from].
  rewrite E. rewrite replace_bold_fuel by lia. reflexivity.
Qed.

(** Without two stars in a row nothing is replaced. *)
Lemma replace_bold_plain s : includes s [STAR; STAR] = false -> replace_bold s = s.
Proof.
  induction s as [| c s IH]; intros H; [reflexivity |].
  rewrite FormatFacts.includes_cons in H. apply orb_false_iff in H. destruct H as [H0 H].
  destruct (match_bold (c :: s)) as [[b rest] |] eqn:E.
  - apply match_bold_starts in E. congruence.
  - rewrite (@replace_bold_keep c s E), (IH H). reflexivity.
Qed.

End BoldFacts.

Module ParagraphFacts.
Import JS JSFacts FormatContent FormatShapes FormatFacts BoldFacts.

Lemma startsWith_app p s : startsWith (p ++ s) p = true.
Proof.
  induction p as [| c p IH]; [reflexivity |].
  cbn [app startsWith]. rewrite N.eqb_refl, IH. reflexivity.
Qed.

Lemma endsWith_app s p : endsWith (s ++ p) p = true.
Proof. unfold endsWith. rewrite rev_app_distr. apply startsWith_app. Qed.

Lemma startsWith_head s c p d t :
  s = d :: t -> N.eqb c d = false -> startsWith s (c :: p) = false.
Proof. intros -> H. cbn [startsWith]. rewrite H. reflexivity. Qed.

(** A part that is found begins with a code unit of the string. *)
Lemma includes_head s c p : existsb (N.eqb c) s = false -> includes s (c :: p) = false.
Proof.
  induction s as [| d s IH]; intros H; [reflexivity |].
  cbn [existsb] in H. apply orb_false_iff in H. destruct H as [Hd Hs].
  rewrite includes_cons. cbn [startsWith]. rewrite Hd, (IH Hs). reflexivity.
Qed.

Lemma includes_starts s p : includes s p = false -> startsWith s p = false.
Proof.
  destruct s; cbn [includes]; intros H; apply orb_false_iff in H; apply H.
Qed.

Lemma slice_between c d t e f :
  slice_2_minus_2 (c :: d :: t ++ [e; f]) = t.
Proof.
  unfold slice_2_minus_2. cbn [skipn List.length]. rewrite length_app. cbn [List.length].
  replace (S (S (List.length t + 2)) - 2 - Nat.min 2 (S (S (List.length t + 2))))%nat
    with (List.length t + 0)%nat by lia.
  rewrite firstn_app_2. cbn [firstn]. apply app_nil_r.
Qed.

Lemma one_line_app a b : one_line (a ++ b) <-> one_line a /\ one_line b.
Proof.
  unfold one_line. rewrite existsb_app. apply orb_false_iff.
Qed.

Lemma split_LF_single s : one_line s -> split_LF s = [s].
Proof.
  unfold one_line. induction s as [| c s IH]; intros H; [reflexivity |].
  cbn [existsb] in H. apply orb_false_iff in H. destruct H as [Hc Hs].
  cbn [split_LF]. rewrite (N.eqb_sym c), Hc, (IH Hs). reflexivity.
Qed.

Lemma split_LF_first a b : one_line a -> split_LF (a ++ LF :: b) = a :: split_LF b.
Proof.
  unfold one_line. induction a as [| c a IH]; intros H.
  - cbn [app split_LF]. rewrite N.eqb_refl. reflexivity.
  - cbn [existsb] in H. apply orb_false_iff in H. destruct H as [Hc Ha].
    cbn [app split_LF]. rewrite (N.eqb_sym c), Hc, (IH Ha). reflexivity.
Qed.

(** Joining lines with line feeds and splitting again gives the lines. *)
Lemma split_join_LF lines :
  lines <> [] -> Forall one_line lines -> split_LF (join [LF] lines) = lines.
Proof.
  induction lines as [| l [| l' rest] IH]; intros Hne Hall.
  - exfalso. apply Hne. reflexivity.
  - inversion Hall; subst. apply split_LF_single. assumption.
  - inversion Hall as [| ? ? Hl Hrest]; subst.
    change (join [LF] (l :: l' :: rest)) with (l ++ LF :: join [LF] (l' :: rest)).
    rewrite (split_LF_first _ Hl), IH; [reflexivity | discriminate | exact Hrest].
Qed.

Lemma one_line_paragraph s : one_line s -> split_LFLF s = [s].
Proof.
  intros H. apply split_LFLF_single. apply includes_head. exact H.
Qed.

End ParagraphFacts.

(** X12. [formatContent] works paragraph by paragraph and loses nothing:
    it returns one block for each piece between two blank-line separators
    (pairs of line feeds taken from the left), at least one block even for
    the empty string; the pieces joined by pairs of line feeds are the
    content again, and no piece holds a pair of line feeds.  A content
    without such a pair is one paragraph, and a first paragraph that does
    not end in a line feed is formatted on its own. *)
Theorem content_is_formatted_by_paragraph (content : jsstring) :
  FormatContent.formatContent content <> []
  /\ List.length (FormatContent.formatContent content)
     = List.length (FormatContent.split_LFLF content)
  /\ FormatContent.join [FormatContent.LF; FormatContent.LF]
                        (FormatContent.split_LFLF content) = content
  /\ Forall (fun p => FormatContent.includes p [FormatContent.LF; FormatContent.LF] = false)
            (FormatContent.split_LFLF content)
  /\ (FormatContent.includes content [FormatContent.LF; FormatContent.LF] = false ->
      FormatContent.formatContent content = [FormatContent.formatParagraph content])
  /\ (forall a b,
         content = a ++ [FormatContent.LF; FormatContent.LF] ++ b ->
         FormatContent.includes (a ++ [FormatContent.LF])
                                [FormatContent.LF; FormatContent.LF] = false ->
         FormatContent.formatContent content
         = FormatContent.formatParagraph a :: FormatContent.formatContent b).
Proof.
  unfold FormatContent.formatContent.
  split; [| split; [| split; [| split; [| split]]]].
  - pose proof (FormatFacts.split_LFLF_nonempty content) as H.
    destruct (FormatContent.split_LFLF content); [exfalso; apply H; reflexivity | discriminate].
  - apply length_map.
  - apply FormatFacts.join_split_LFLF.
  - apply FormatFacts.split_LFLF_pieces.
  - intros H. rewrite (FormatFacts.split_LFLF_single _ H). reflexivity.
  - intros a b -> H. rewrite (FormatFacts.split_LFLF_first _ b H). reflexivity.
Qed.

(** X13. A plain paragraph goes into the page as HTML, unchanged: a
    paragraph of one line that has no two stars in a row, does not begin
    with a number and a dot, and is not a rule, becomes a [<p>] whose
    inner HTML is the paragraph itself, code unit for code unit.  Nothing
    is escaped, so markup in the text of an answer is markup on the page. *)
Theorem plain_paragraph_is_inserted_as_html (p : jsstring) :
  FormatShapes.one_line p ->
  FormatContent.includes p [FormatContent.STAR; FormatContent.STAR] = false ->
  FormatContent.test_numbered p = false ->
  trim p <> lit "---" ->
  FormatContent.formatContent p = [FormatContent.HtmlParagraph p].
Proof.
  intros Hline Hstar Hnum Hrule. unfold FormatContent.formatContent.
  rewrite (ParagraphFacts.one_line_paragraph Hline). cbn [List.map].
  unfold FormatContent.formatParagraph.
  change (lit "**") with [FormatContent.STAR; FormatContent.STAR].
  rewrite (@ParagraphFacts.includes_starts p _ Hstar). cbn [andb].
  rewrite (@ParagraphFacts.includes_head p FormatContent.LF _ Hline), Hnum.
  apply JSFacts.string_eqb_neq in Hrule. rewrite Hrule.
  rewrite (BoldFacts.replace_bold_plain _ Hstar). reflexivity.
Qed.

Lemma plain_paragraph_is_inserted_as_html_witness :
  FormatContent.formatContent Examples.plain_paragraph
  = [FormatContent.HtmlParagraph (lit "Press <b>play</b> to start.")].
Proof.
  apply (@plain_paragraph_is_inserted_as_html Examples.plain_paragraph).
  - reflexivity.
  - reflexivity.
  - reflexivity.
  - vm_compute. discriminate.
Defined.

(** X14. The bold markers: in a line that begins with text without a
    star, then two stars, a non-empty text without a star, and two stars
    again, that text is wrapped in [<strong>] and the replacement goes on
    behind it; the text in front stays as it is.  A line without two stars
    in a row is not changed at all. *)
Theorem bold_markers_become_strong (a b c : jsstring) :
  FormatShapes.no_star a -> FormatShapes.no_star b -> b <> [] ->
  FormatContent.replace_bold (a ++ lit "**" ++ b ++ lit "**" ++ c)
  = a ++ lit "<strong>" ++ b ++ lit "</strong>" ++ FormatContent.replace_bold c
  /\ (FormatContent.includes c [FormatContent.STAR; FormatContent.STAR] = false ->
      FormatContent.replace_bold c = c).
Proof.
  intros Ha Hb Hne. split; [| apply BoldFacts.replace_bold_plain].
  induction a as [| x a IH].
  - cbn [app]. apply BoldFacts.replace_bold_match.
    apply (BoldFacts.match_bold_found c Hne Hb).
  - unfold FormatShapes.no_star in Ha. cbn [forallb] in Ha.
    apply andb_true_iff in Ha. destruct Ha as [Hx Ha]. apply negb_true_iff in Hx.
    cbn [app]. rewrite BoldFacts.replace_bold_keep
      by (apply BoldFacts.match_bold_not_star; exact Hx).
    rewrite (IH Ha). reflexivity.
Qed.

Lemma bold_markers_become_strong_witness :
  FormatContent.replace_bold (lit "Press **play** now")
  = lit "Press <strong>play</strong> now".
Proof.
  destruct (@bold_markers_become_strong (lit "Press ") (lit "play") (lit " now"))
    as [H _].
  - reflexivity.
  - reflexivity.
  - discriminate.
  - exact H.
Defined.

(** X15. A paragraph that begins and ends with two stars is a header,
    and the header is the text between them, whatever it is: stars and
    markup included, as a text child and not as HTML.  The two pairs may
    overlap: a paragraph that is just two or three stars is an empty
    header. *)
Theorem header_is_text_between_stars (t : jsstring) :
  FormatContent.formatParagraph (lit "**" ++ t ++ lit "**") = FormatContent.Header t
  /\ (FormatShapes.one_line t ->
      FormatContent.formatContent (lit "**" ++ t ++ lit "**") = [FormatContent.Header t])
  /\ FormatContent.formatContent (lit "**") = [FormatContent.Header []]
  /\ FormatContent.formatContent (lit "***") = [FormatContent.Header []].
Proof.
  assert (H : FormatContent.formatParagraph (lit "**" ++ t ++ lit "**")
              = FormatContent.Header t).
  { unfold FormatContent.formatParagraph.
    rewrite ParagraphFacts.startsWith_app.
    rewrite app_assoc, ParagraphFacts.endsWith_app. cbn [andb].
    rewrite <- app_assoc.
    change (lit "**" ++ t ++ lit "**")
      with (FormatContent.STAR :: FormatContent.STAR
              :: t ++ [FormatContent.STAR; FormatContent.STAR]).
    rewrite ParagraphFacts.slice_between. reflexivity. }
  split; [exact H |]. split; [| split; reflexivity].
  intros Ht. unfold FormatContent.formatContent.
  rewrite ParagraphFacts.one_line_paragraph; [cbn [List.map]; rewrite H; reflexivity |].
  apply ParagraphFacts.one_line_app. split; [reflexivity |].
  apply ParagraphFacts.one_line_app. split; [exact Ht | reflexivity].
Qed.

Module ListFacts.
Import JS JSFacts TrimFacts FormatContent FormatShapes FormatFacts BoldFacts ParagraphFacts.

Lemma existsb_weaken (f g : N -> bool) s :
  (forall c, f c = true -> g c = true) -> existsb g s = false -> existsb f s = false.
Proof.
  intros Hfg. induction s as [| c s IH]; [reflexivity |].
  cbn [existsb]. intros H. apply orb_false_iff in H. destruct H as [Hc Hs].
  rewrite (IH Hs), orb_false_r.
  destruct (f c) eqn:E; [| reflexivity]. rewrite (Hfg c E) in Hc. discriminate.
Qed.

Lemma forallb_not_existsb (f g : N -> bool) s :
  (forall c, f c = true -> g c = false) -> forallb f s = true -> existsb g s = false.
Proof.
  intros Hfg. induction s as [| c s IH]; [reflexivity |].
  cbn [forallb existsb]. intros H. apply andb_true_iff in H. destruct H as [Hc Hs].
  rewrite (Hfg c Hc), (IH Hs). reflexivity.
Qed.

Lemma digit_range c : isDigit c = true -> (0x30 <= c <= 0x39)%N.
Proof.
  unfold isDigit. intros H. apply andb_true_iff in H. destruct H as [H1 H2].
  apply N.leb_le in H1, H2. split; assumption.
Qed.

Lemma digit_not c d : isDigit c = true -> (d < 0x30)%N -> N.eqb d c = false.
Proof. intros H Hd. apply digit_range in H. apply N.eqb_neq. lia. Qed.

Lemma LF_is_terminator c : N.eqb LF c = true -> isLineTerminator c = true.
Proof. intros H. apply N.eqb_eq in H. subst c. reflexivity. Qed.

Lemma LF_is_space c : N.eqb LF c = true -> isWhiteSpace c = true.
Proof. intros H. apply N.eqb_eq in H. subst c. reflexivity. Qed.

Lemma skip_digits_dot d rest :
  forallb isDigit d = true -> skip_digits (d ++ DOT :: rest) = DOT :: rest.
Proof.
  induction d as [| c d IH]; intros H; [reflexivity |].
  cbn [forallb] in H. apply andb_true_iff in H. destruct H as [Hc Hd].
  cbn [app skip_digits]. rewrite Hc. exact (IH Hd).
Qed.

Lemma after_number_dot d rest :
  d <> [] -> forallb isDigit d = true -> after_number (d ++ DOT :: rest) = Some rest.
Proof.
  destruct d as [| c d]; intros Hne H; [exfalso; apply Hne; reflexivity |].
  cbn [forallb] in H. apply andb_true_iff in H. destruct H as [Hc Hd].
  cbn [app after_number]. rewrite Hc, (@skip_digits_dot d rest Hd). reflexivity.
Qed.

Lemma trimStart_space ws s :
  forallb isWhiteSpace ws = true -> trimStart (ws ++ s) = trimStart s.
Proof.
  induction ws as [| c ws IH]; intros H; [reflexivity |].
  cbn [forallb] in H. apply andb_true_iff in H. destruct H as [Hc Hws].
  cbn [app trimStart]. rewrite Hc. exact (IH Hws).
Qed.

Lemma well_numbered_line l : well_numbered l -> one_line (numbered_line l).
Proof.
  intros (_ & Hd & _ & Hs & Hi & _). unfold numbered_line.
  apply one_line_app. split.
  - apply (@forallb_not_existsb isDigit (N.eqb LF) _); [| exact Hd].
    intros c Hc. apply digit_not; [exact Hc | reflexivity].
  - apply one_line_app. split; [reflexivity |].
    apply one_line_app. split; [exact Hs |].
    apply (@existsb_weaken (N.eqb LF) isLineTerminator _); [exact LF_is_terminator | exact Hi].
Qed.

Lemma well_numbered_head l :
  well_numbered l -> exists c u, numbered_line l = c :: u /\ isDigit c = true.
Proof.
  intros (Hne & Hd & _). unfold numbered_line.
  destruct (number_digits l) as [| c d]; [exfalso; apply Hne; reflexivity |].
  cbn [forallb] in Hd. apply andb_true_iff in Hd.
  exists c, (d ++ [DOT] ++ number_space l ++ number_item l). split; [reflexivity | apply Hd].
Qed.

Lemma formatItem_numbered l : well_numbered l -> formatItem (numbered_line l) = number_item l.
Proof.
  intros (Hne & Hd & Hws & _ & Hi & Hfix).
  unfold formatItem, match_numbered, numbered_line. cbn [app].
  rewrite (@after_number_dot _ _ Hne Hd), (@trimStart_space _ _ Hws), Hfix, Hi. reflexivity.
Qed.

(** The first code unit of joined lines is the first code unit of the
    first line. *)
Lemma join_head c u rest : exists v, join [LF] ((c :: u) :: rest) = c :: v.
Proof.
  destruct rest as [| l rest]; [exists u; reflexivity |].
  exists (u ++ [LF] ++ join [LF] (l :: rest)). reflexivity.
Qed.

Lemma join_two l l' rest :
  join [LF] (l :: l' :: rest) = l ++ LF :: join [LF] (l' :: rest).
Proof. reflexivity. Qed.


(** No line feed before a dash where the lines have no line feed and no
    line after the first begins with a dash. *)
Lemma includes_dash_after a b :
  one_line a -> startsWith b [DASH] = false -> includes b [LF; DASH] = false ->
  includes (a ++ LF :: b) [LF; DASH] = false.
Proof.
  unfold one_line. intros Ha Hb Hin. induction a as [| c a IH].
  - cbn [app]. rewrite includes_cons. cbn [startsWith]. rewrite N.eqb_refl. cbn [andb].
    change (startsWith b [DASH]) with (startsWith b [DASH]).
    rewrite Hin, orb_false_r. exact Hb.
  - cbn [existsb] in Ha. apply orb_false_iff in Ha. destruct Ha as [Hc Ha].
    cbn [app]. rewrite includes_cons. cbn [startsWith]. rewrite Hc. cbn [andb orb].
    exact (IH Ha).
Qed.

Lemma includes_dash_found a b :
  startsWith b [DASH] = true -> includes (a ++ LF :: b) [LF; DASH] = true.
Proof.
  intros Hb. induction a as [| c a IH].
  - cbn [app]. rewrite includes_cons. cbn [startsWith]. rewrite N.eqb_refl. cbn [andb].
    cbn [startsWith] in Hb. rewrite Hb. reflexivity.
  - cbn [app]. rewrite includes_cons, IH. apply orb_true_r.
Qed.

Lemma join_starts l rest p :
  l <> [] -> startsWith (join [LF] (l :: rest)) [p] = startsWith l [p].
Proof.
  destruct l as [| c u]; intros Hne; [exfalso; apply Hne; reflexivity |].
  destruct (join_head c u rest) as (v & ->). reflexivity.
Qed.

Lemma numbered_lines_no_dash ls :
  Forall well_numbered ls ->
  includes (join [LF] (List.map numbered_line ls)) [LF; DASH] = false.
Proof.
  induction ls as [| l [| l' rest] IH]; intros Hall.
  - reflexivity.
  - inversion Hall; subst. apply includes_head. apply well_numbered_line. assumption.
  - inversion Hall as [| ? ? Hl Hrest]; subst.
    cbn [List.map]. rewrite join_two. apply includes_dash_after.
    + apply well_numbered_line. exact Hl.
    + inversion Hrest as [| ? ? Hl' _]; subst.
      destruct (well_numbered_head Hl') as (c & u & E & Hc).
      rewrite join_starts by (rewrite E; discriminate).
      rewrite E. cbn [startsWith]. rewrite (@digit_not c DASH Hc); reflexivity.
    + exact (IH Hrest).
Qed.

Lemma formatLine_list_line x : formatLine (list_line x) = ListItem x.
Proof. reflexivity. Qed.

(** A string that begins with a dash and a space is not a rule. *)
Lemma list_line_not_rule x : trim (list_line x) <> lit "---".
Proof.
  unfold trim. change (trimStart (list_line x)) with (list_line x).
  destruct (trimEnd_split (list_line x)) as (b & Hs & _).
  intros E. rewrite E in Hs. discriminate Hs.
Qed.

Lemma test_numbered_not_digit c u : isDigit c = false -> test_numbered (c :: u) = false.
Proof. intros H. unfold test_numbered, after_number. rewrite H. reflexivity. Qed.

(** Whether a paragraph begins with two stars is seen on its first
    line. *)
Lemma starts_two_stars_line a b :
  one_line a -> startsWith (a ++ LF :: b) (lit "**") = startsWith a (lit "**").
Proof.
  unfold one_line. intros Hline.
  destruct a as [| c [| d a]]; [reflexivity | | reflexivity].
  change (lit "**") with [STAR; STAR]. cbn [app startsWith].
  change (N.eqb STAR LF) with false. reflexivity.
Qed.

(** Whether a string that ends with a list line ends with two stars is
    seen on the item of that line. *)
Lemma ends_two_stars_item a x :
  endsWith (a ++ list_line x) (lit "**") = endsWith x (lit "**").
Proof.
  unfold endsWith, list_line. rewrite !rev_app_distr.
  change (rev (lit "**")) with [STAR; STAR].
  change (rev (lit "- ")) with [0x20%N; DASH].
  destruct (rev x) as [| c [| d u]]; [reflexivity | | reflexivity].
  cbn [app startsWith]. change (N.eqb STAR 32) with false. reflexivity.
Qed.

Lemma last_default (x : jsstring) l d d' : last (x :: l) d = last (x :: l) d'.
Proof.
  revert x. induction l as [| y l IH]; intros x; [reflexivity |].
  change (last (y :: l) d = last (y :: l) d'). apply IH.
Qed.

Lemma last_cons (x : jsstring) l d : last (x :: l) d = last l x.
Proof.
  destruct l as [| y l]; [reflexivity |].
  change (last (y :: l) d = last (y :: l) x). apply last_default.
Qed.

(** A paragraph of list lines after a first line ends with the list line
    of its last item. *)
Lemma join_last_item l item items :
  exists a,
    join [LF] (l :: List.map list_line (item :: items))
    = a ++ list_line (last items item).
Proof.
  revert l item. induction items as [| item' items IH]; intros l item.
  - exists (l ++ [LF]). cbn [List.map last]. rewrite join_two. cbn [join].
    rewrite <- app_assoc. reflexivity.
  - destruct (IH (list_line item) item') as (a & Ha).
    exists (l ++ LF :: a). cbn [List.map]. rewrite join_two.
    cbn [List.map] in Ha. rewrite Ha.
    rewrite (last_cons item' items item).
    rewrite <- app_assoc. reflexivity.
Qed.

End ListFacts.

(** X16. A paragraph of numbered lines becomes an ordered list of the
    items without the numbers.  Each line is digits, a dot, white space
    and an item that has no line terminator and does not begin with white
    space; whatever the digits say, the item of the list is the item of
    the line, and the list has as many items as the paragraph has lines. *)
Theorem numbered_paragraph_is_list_of_items
  (l : FormatShapes.NumberedLine) (ls : list FormatShapes.NumberedLine) :
  Forall FormatShapes.well_numbered (l :: ls) ->
  FormatContent.formatParagraph
    (FormatContent.join [FormatContent.LF] (List.map FormatShapes.numbered_line (l :: ls)))
  = FormatContent.NumberedList (List.map FormatShapes.number_item (l :: ls)).
Proof.
  intros Hall.
  assert (Hl : FormatShapes.well_numbered l) by (inversion Hall; assumption).
  assert (Hstar : FormatContent.startsWith
            (FormatContent.join [FormatContent.LF]
               (List.map FormatShapes.numbered_line (l :: ls))) (lit "**") = false).
  { destruct (ListFacts.well_numbered_head Hl) as (c & u & E & Hc).
    cbn [List.map]. rewrite E.
    destruct (@ListFacts.join_head c u (List.map FormatShapes.numbered_line ls)) as (v & Ev).
    transitivity (FormatContent.startsWith (c :: v) (lit "**")).
    { apply (f_equal (fun s => FormatContent.startsWith s (lit "**"))). exact Ev. }
    change (JS.lit "**") with [FormatContent.STAR; FormatContent.STAR].
    cbn [FormatContent.startsWith].
    rewrite (@ListFacts.digit_not c FormatContent.STAR Hc); reflexivity. }
  assert (Hnum : FormatContent.test_numbered
            (FormatContent.join [FormatContent.LF]
               (List.map FormatShapes.numbered_line (l :: ls))) = true).
  { destruct Hl as (Hne & Hd & _). unfold FormatContent.test_numbered.
    destruct ls as [| l' ls'].
    - cbn [List.map FormatContent.join]. unfold FormatShapes.numbered_line. cbn [app].
      rewrite (@ListFacts.after_number_dot _ _ Hne Hd). reflexivity.
    - cbn [List.map]. rewrite ListFacts.join_two. unfold FormatShapes.numbered_line at 1.
      rewrite <- app_assoc. cbn [app].
      rewrite (@ListFacts.after_number_dot _ _ Hne Hd). reflexivity. }
  assert (Hitems : List.map FormatContent.formatItem
            (FormatContent.split_LF
               (FormatContent.join [FormatContent.LF]
                  (List.map FormatShapes.numbered_line (l :: ls))))
            = List.map FormatShapes.number_item (l :: ls)).
  { rewrite ParagraphFacts.split_join_LF.
    - rewrite List.map_map. apply List.map_ext_in. intros x Hx.
      apply ListFacts.formatItem_numbered.
      rewrite Forall_forall in Hall. exact (Hall x Hx).
    - discriminate.
    - apply Forall_forall. intros s Hs. apply in_map_iff in Hs.
      destruct Hs as (x & <- & Hx). apply ListFacts.well_numbered_line.
      rewrite Forall_forall in Hall. exact (Hall x Hx). }
  unfold FormatContent.formatParagraph.
  rewrite Hstar. cbn [andb].
  change (FormatContent.includes ?s [FormatContent.LF; 45%N])
    with (FormatContent.includes s [FormatContent.LF; FormatShapes.DASH]).
  rewrite (ListFacts.numbered_lines_no_dash Hall), Hnum, Hitems. reflexivity.
Qed.

Lemma numbered_paragraph_is_list_of_items_witness :
  FormatContent.formatParagraph
    (FormatContent.join [FormatContent.LF]
       [FormatShapes.numbered_line Examples.first_step;
        FormatShapes.numbered_line Examples.second_step])
  = FormatContent.NumberedList [lit "Open the app"; lit "Sign in again"].
Proof.
  apply (@numbered_paragraph_is_list_of_items Examples.first_step [Examples.second_step]).
  repeat constructor; try discriminate; reflexivity.
Defined.

(** X17. A paragraph whose lines after the first are list lines (a dash,
    a space, the item) becomes one line each: every list line is a list
    item with the item as its text, and the first line, whatever it is,
    is formatted as a line, so a first list line is an item too.  There
    is one exception: when the first line begins with two stars and the
    last item ends with two stars, the whole paragraph is a header.  One
    list line alone is no list: it is a plain paragraph and keeps its
    dash. *)
Theorem dash_lines_become_list_items (first : jsstring) (item : jsstring) (items : list jsstring) :
  FormatShapes.one_line first ->
  Forall FormatShapes.one_line (item :: items) ->
  FormatContent.formatParagraph
    (FormatContent.join [FormatContent.LF]
       (first :: List.map FormatShapes.list_line (item :: items)))
  = (if (FormatContent.startsWith first (lit "**")
         && FormatContent.endsWith (last items item) (lit "**"))%bool
     then FormatContent.Header
            (FormatContent.slice_2_minus_2
               (FormatContent.join [FormatContent.LF]
                  (first :: List.map FormatShapes.list_line (item :: items))))
     else FormatContent.Lines
            (FormatContent.formatLine first
               :: List.map FormatContent.ListItem (item :: items)))
  /\ FormatContent.formatLine (FormatShapes.list_line first) = FormatContent.ListItem first
  /\ FormatContent.formatParagraph (FormatShapes.list_line first)
     = FormatContent.HtmlParagraph (FormatContent.replace_bold (FormatShapes.list_line first)).
Proof.
  intros Hfirst Hitems. split; [| split; [reflexivity |]].
  - assert (Hstart : FormatContent.startsWith
                       (FormatContent.join [FormatContent.LF]
                          (first :: List.map FormatShapes.list_line (item :: items)))
                       (lit "**")
                     = FormatContent.startsWith first (lit "**")).
    { cbn [List.map]. rewrite ListFacts.join_two.
      apply ListFacts.starts_two_stars_line. exact Hfirst. }
    assert (Hend : FormatContent.endsWith
                     (FormatContent.join [FormatContent.LF]
                        (first :: List.map FormatShapes.list_line (item :: items)))
                     (lit "**")
                   = FormatContent.endsWith (last items item) (lit "**")).
    { destruct (ListFacts.join_last_item first item items) as (a & Ha).
      transitivity (FormatContent.endsWith
                      (a ++ FormatShapes.list_line (last items item)) (lit "**")).
      - apply (f_equal (fun p => FormatContent.endsWith p (lit "**"))). exact Ha.
      - apply ListFacts.ends_two_stars_item. }
    unfold FormatContent.formatParagraph. rewrite Hstart, Hend.
    destruct (FormatContent.startsWith first (lit "**")
              && FormatContent.endsWith (last items item) (lit "**"))%bool;
      [reflexivity |].
    cbn [List.map]. rewrite ListFacts.join_two.
    change (FormatContent.includes ?s [FormatContent.LF; 45%N])
      with (FormatContent.includes s [FormatContent.LF; FormatShapes.DASH]).
    rewrite ListFacts.includes_dash_found
      by (rewrite ListFacts.join_starts; [reflexivity | discriminate]).
    rewrite <- ListFacts.join_two.
    change (first :: FormatShapes.list_line item :: List.map FormatShapes.list_line items)
      with (first :: List.map FormatShapes.list_line (item :: items)).
    rewrite ParagraphFacts.split_join_LF.
    + cbn [List.map]. rewrite List.map_map. reflexivity.
    + discriminate.
    + constructor; [exact Hfirst |].
      apply Forall_forall. intros s Hs. apply in_map_iff in Hs.
      destruct Hs as (x & <- & Hx). unfold FormatShapes.list_line.
      apply ParagraphFacts.one_line_app. split; [reflexivity |].
      rewrite Forall_forall in Hitems. exact (Hitems x Hx).
  - unfold FormatContent.formatParagraph.
    replace (FormatContent.startsWith (FormatShapes.list_line first) (lit "**"))
      with false by reflexivity.
    cbn [andb].
    change (FormatContent.includes ?s [FormatContent.LF; 45%N])
      with (FormatContent.includes s [FormatContent.LF; FormatShapes.DASH]).
    rewrite ParagraphFacts.includes_head
      by (unfold FormatShapes.list_line; apply ParagraphFacts.one_line_app;
          split; [reflexivity | exact Hfirst]).
    replace (FormatContent.test_numbered (FormatShapes.list_line first)) with false
      by (symmetry; apply (@ListFacts.test_numbered_not_digit FormatShapes.DASH); reflexivity).
    pose proof (@ListFacts.list_line_not_rule first) as Hrule.
    apply JSFacts.string_eqb_neq in Hrule. rewrite Hrule. reflexivity.
Qed.

Lemma dash_lines_become_list_items_witness :
  FormatContent.formatParagraph
    (FormatContent.join [FormatContent.LF]
       [lit "**Steps:**"; lit "- Restart the app"; lit "- Sign in again"])
  = FormatContent.Lines
      [FormatContent.HtmlLine (lit "<strong>Steps:</strong>");
       FormatContent.ListItem (lit "Restart the app");
       FormatContent.ListItem (lit "Sign in again")].
Proof.
  destruct (@dash_lines_become_list_items (lit "**Steps:**") (lit "Restart the app")
              [lit "Sign in again"]) as [H _].
  - reflexivity.
  - repeat constructor.
  - exact H.
Defined.

Module RuleFacts.
Import JS JSFacts TrimFacts FormatContent FormatShapes FormatFacts ParagraphFacts ListFacts.

Lemma space_not_dash c : isWhiteSpace c = true -> N.eqb DASH c = false.
Proof.
  intros H. destruct (N.eqb DASH c) eqn:E; [| reflexivity].
  apply N.eqb_eq in E. subst c. discriminate H.
Qed.

Lemma space_not_star c : isWhiteSpace c = true -> N.eqb STAR c = false.
Proof.
  intros H. destruct (N.eqb STAR c) eqn:E; [| reflexivity].
  apply N.eqb_eq in E. subst c. discriminate H.
Qed.

Lemma space_not_digit c : isWhiteSpace c = true -> isDigit c = false.
Proof.
  intros H. destruct (isDigit c) eqn:E; [| reflexivity].
  apply digit_range in E. unfold isWhiteSpace in H.
  repeat (apply orb_true_iff in H; destruct H as [H | H]);
    try (apply N.eqb_eq in H; lia).
  apply andb_true_iff in H. destruct H as [H _]. apply N.leb_le in H. lia.
Qed.

Lemma includes_space_dash s :
  forallb isWhiteSpace s = true -> includes s [LF; DASH] = false.
Proof.
  induction s as [| c s IH]; intros H; [reflexivity |].
  cbn [forallb] in H. apply andb_true_iff in H. destruct H as [Hc Hs].
  rewrite includes_cons, (IH Hs), orb_false_r. cbn [startsWith].
  destruct s as [| d s]; [apply andb_false_r |].
  cbn [forallb] in Hs. apply andb_true_iff in Hs. destruct Hs as [Hd _].
  rewrite (space_not_dash _ Hd). apply andb_false_r.
Qed.

Lemma endsWith_cons c d s : endsWith (c :: d :: s) [LF] = endsWith (d :: s) [LF].
Proof.
  unfold endsWith. cbn [rev].
  destruct (rev s ++ [d]) as [| x t] eqn:E; [destruct (rev s); discriminate E |].
  reflexivity.
Qed.

(** In white space, three dashes, white space, a line feed comes just
    before a dash exactly when the white space in front ends with one. *)
Lemma includes_rule a b :
  forallb isWhiteSpace a = true -> forallb isWhiteSpace b = true ->
  includes (a ++ lit "---" ++ b) [LF; DASH] = endsWith a [LF].
Proof.
  intros Ha Hb. induction a as [| c a IH].
  - cbn [app lit]. change (lit "---" ++ b) with (DASH :: DASH :: DASH :: b).
    rewrite !includes_cons, (includes_space_dash _ Hb). reflexivity.
  - cbn [forallb] in Ha. apply andb_true_iff in Ha. destruct Ha as [Hc Ha].
    cbn [app]. rewrite includes_cons, (IH Ha). destruct a as [| d a].
    + cbn [app]. change (lit "---" ++ b) with (DASH :: DASH :: DASH :: b).
      cbn [startsWith]. unfold endsWith. cbn [rev app startsWith].
      rewrite N.eqb_refl. cbn [andb]. rewrite andb_true_r, orb_false_r. reflexivity.
    + rewrite endsWith_cons. cbn [app startsWith].
      cbn [forallb] in Ha. apply andb_true_iff in Ha. destruct Ha as [Hd _].
      rewrite (space_not_dash _ Hd). cbn [andb]. rewrite andb_false_r. reflexivity.
Qed.

Lemma trim_rule a b :
  forallb isWhiteSpace a = true -> forallb isWhiteSpace b = true ->
  trim (a ++ lit "---" ++ b) = lit "---".
Proof.
  intros Ha Hb. unfold trim. rewrite (@trimStart_space a _ Ha).
  change (trimStart (lit "---" ++ b)) with (lit "---" ++ b).
  unfold trimEnd. rewrite rev_app_distr.
  rewrite trimStart_space by (rewrite forallb_rev; exact Hb). reflexivity.
Qed.

Lemma rule_head a b :
  forallb isWhiteSpace a = true ->
  exists c u, a ++ lit "---" ++ b = c :: u
              /\ N.eqb STAR c = false /\ isDigit c = false.
Proof.
  intros Ha. destruct a as [| c a].
  - exists DASH, (DASH :: DASH :: b). repeat split; reflexivity.
  - cbn [forallb] in Ha. apply andb_true_iff in Ha. destruct Ha as [Hc _].
    exists c, (a ++ lit "---" ++ b).
    split; [reflexivity |]. split; [apply space_not_star | apply space_not_digit]; exact Hc.
Qed.

End RuleFacts.

(** X18. Three dashes with white space around them are a rule, unless the
    white space in front ends with a line feed: then the paragraph has a
    line feed just before a dash, is taken for a list, and the dashes
    come out as a line of text. *)
Theorem rule_unless_line_feed_before (a b : jsstring) :
  forallb isWhiteSpace a = true -> forallb isWhiteSpace b = true ->
  FormatContent.formatParagraph (a ++ lit "---" ++ b)
  = if FormatContent.endsWith a [FormatContent.LF]
    then FormatContent.Lines
           (List.map FormatContent.formatLine
                     (FormatContent.split_LF (a ++ lit "---" ++ b)))
    else FormatContent.Divider.
Proof.
  intros Ha Hb. unfold FormatContent.formatParagraph.
  change (FormatContent.includes ?s [FormatContent.LF; 45%N])
    with (FormatContent.includes s [FormatContent.LF; FormatShapes.DASH]).
  rewrite (RuleFacts.includes_rule a b Ha Hb), (RuleFacts.trim_rule a b Ha Hb).
  destruct (@RuleFacts.rule_head a b Ha) as (c & u & E & Hstar & Hdigit).
  replace (FormatContent.startsWith (a ++ lit "---" ++ b) (lit "**")) with false
    by (rewrite E; change (JS.lit "**") with [FormatContent.STAR; FormatContent.STAR];
        cbn [FormatContent.startsWith]; rewrite Hstar; reflexivity).
  cbn [andb].
  destruct (FormatContent.endsWith a [FormatContent.LF]); [reflexivity |].
  replace (FormatContent.test_numbered (a ++ lit "---" ++ b)) with false
    by (rewrite E; symmetry; apply ListFacts.test_numbered_not_digit; exact Hdigit).
  reflexivity.
Qed.

Lemma rule_unless_line_feed_before_witness :
  FormatContent.formatParagraph (lit "--- ") = FormatContent.Divider.
Proof.
  apply (@rule_unless_line_feed_before [] (lit " ")); reflexivity.
Defined.


Module StatusFacts.
Import JS Runtime Api HealthApi StatusPanel FetchResult.

Section WithEnv.
Variable env : option jsstring.
Variable P : Type.
Variable health_of : P -> HealthResponse.
Variable message_of : P -> jsstring.

(** One health check, run to its end: the state it leaves. *)
Lemma fetchHealth_perform net now s :
  perform net now (fetchHealth env health_of) s
  = (setIsChecking false
       match failure_of "Health check failed: " (snd (net (healthRequest env))),
             read (snd (net (healthRequest env))) with
       | Some e, _ =>
           setMessage (Some {| type := error;
                               text := shown_text "Failed to check health" e |})
                      (setHealth None (setIsChecking true s))
       | None, Some data => setHealth (Some (health_of data)) (setIsChecking true s)
       | None, None => setIsChecking true s
       end,
     [healthRequest env], [], inr tt).
Proof.
  unfold fetchHealth, checkHealth. cbn -[lit Z_toString healthRequest].
  destruct (net (healthRequest env)) as [t o].
  destruct o as [e | [b st [e | data]]]; try destruct b; try destruct e; reflexivity.
Qed.

End WithEnv.

End StatusFacts.

(** X20. The dot and the text of the status panel agree, and the
    "Create Index" button follows the dot: without a health response the
    dot is "disconnected" and the text "Unable to connect"; a "healthy"
    dot always has the text "Ready"; a "warning" dot means that Redis is
    connected, with the text "Index not loaded" when the index is missing
    and the status of the server otherwise; and with a "disconnected"
    dot the button is disabled. *)
Theorem status_dot_and_text_agree (s : StatusPanel.State) :
  (StatusPanel.health s = None ->
   StatusPanel.getStatusColor (StatusPanel.health s) = "disconnected"%string
   /\ StatusPanel.getStatusText (StatusPanel.health s) = lit "Unable to connect")
  /\ (StatusPanel.getStatusColor (StatusPanel.health s) = "healthy"%string ->
      StatusPanel.getStatusText (StatusPanel.health s) = lit "Ready")
  /\ (StatusPanel.getStatusColor (StatusPanel.health s) = "warning"%string ->
      exists h, StatusPanel.health s = Some h
                /\ HealthApi.redis_connected h = true
                /\ StatusPanel.getStatusText (StatusPanel.health s)
                   = if HealthApi.index_exists h then HealthApi.status h
                     else lit "Index not loaded")
  /\ (StatusPanel.getStatusColor (StatusPanel.health s) = "disconnected"%string ->
      StatusPanel.createDisabled s = true).
Proof.
  unfold StatusPanel.createDisabled.
  destruct (StatusPanel.health s) as [h |]; cbn [StatusPanel.getStatusColor
    StatusPanel.getStatusText StatusPanel.redis_up].
  - destruct (string_eqb (HealthApi.status h) "healthy");
      destruct (HealthApi.index_exists h) eqn:Ei;
      destruct (HealthApi.redis_connected h) eqn:Er; cbn [andb negb orb];
      (split; [intros H; discriminate H |]);
      (split; [intros H; try discriminate H; reflexivity |]);
      (split; [intros H; try discriminate H; exists h; rewrite Ei, Er; repeat split |]);
      intros H; try discriminate H; apply orb_true_r.
  - split; [intros _; split; reflexivity |]. split; [discriminate |].
    split; [discriminate |]. intros _. apply orb_true_r.
Qed.

(** X21. A health check sends one GET to the health path and never
    fails: while it waits, the "Check Health" button is disabled; at the
    end the checking flag is off and the loading flag is as before.  An
    answer that was read becomes the health and leaves the message
    alone; a failure of any kind clears the health and shows an error
    message: the message of the error thrown, "Health check failed: " with
    the status for a status that is not OK, or a fixed text. *)
Theorem health_check_outcome env (P : Type) (health_of : P -> HealthApi.HealthResponse)
        net now (s : StatusPanel.State) (w : World StatusPanel.State P) :
  let out := perform net now (StatusPanel.fetchHealth env health_of) s in
  let s' := final_state out in
  let o := snd (net (HealthApi.healthRequest env)) in
  sent out = [HealthApi.healthRequest env]
  /\ outcome out = inr tt
  /\ StatusPanel.isChecking s' = false
  /\ StatusPanel.isLoading s' = StatusPanel.isLoading s
  /\ (forall data, FetchResult.read o = Some data ->
        StatusPanel.health s' = Some (health_of data)
        /\ StatusPanel.message s' = StatusPanel.message s)
  /\ (forall e, FetchResult.failure_of "Health check failed: " o = Some e ->
        StatusPanel.health s' = None
        /\ StatusPanel.message s'
           = Some {| StatusPanel.type := StatusPanel.error;
                     StatusPanel.text := StatusPanel.shown_text "Failed to check health" e |})
  /\ snd (run now (StatusPanel.fetchHealth env health_of) w) = [HealthApi.healthRequest env]
  /\ StatusPanel.refreshDisabled
       (state (fst (run now (StatusPanel.fetchHealth env health_of) w))) = true.
Proof.
  intros out s' o. subst out s' o.
  rewrite StatusFacts.fetchHealth_perform.
  unfold final_state, sent, outcome. cbn [fst snd].
  split; [reflexivity |]. split; [reflexivity |].
  destruct (snd (net (HealthApi.healthRequest env))) as [e | [b st [e | data]]];
    try destruct b; cbn -[lit Z_toString];
    (split; [reflexivity |]); (split; [reflexivity |]);
    (split; [intros d Hd; try discriminate Hd; injection Hd as <-; split; reflexivity |]);
    (split; [intros x Hx; try discriminate Hx; injection Hx as <-; split; reflexivity |]);
    split; reflexivity.
Qed.

(** X22. Creating the index: the handler never fails and ends with the
    loading flag off.  When the creation fails, one POST was sent, the
    health is not asked again and stays as it was, and the error of the
    creation is shown.  When it succeeds, the health is asked once after
    it; the success message is shown only if that check brings an answer:
    a check that fails replaces it by the error of the check and clears
    the health. *)
Theorem create_index_outcome env (P : Type) (health_of : P -> HealthApi.HealthResponse)
        (message_of : P -> jsstring) net now (s : StatusPanel.State) :
  let out := perform net now (StatusPanel.handleCreateIndex env health_of message_of) s in
  let s' := final_state out in
  let created := snd (net (HealthApi.createIndexRequest env)) in
  let checked := snd (net (HealthApi.healthRequest env)) in
  outcome out = inr tt
  /\ StatusPanel.isLoading s' = false
  /\ (forall e, FetchResult.failure_of "Create index failed: " created = Some e ->
        sent out = [HealthApi.createIndexRequest env]
        /\ StatusPanel.health s' = StatusPanel.health s
        /\ StatusPanel.isChecking s' = StatusPanel.isChecking s
        /\ StatusPanel.message s'
           = Some {| StatusPanel.type := StatusPanel.error;
                     StatusPanel.text := StatusPanel.shown_text "Failed to create index" e |})
  /\ (forall result, FetchResult.read created = Some result ->
        sent out = [HealthApi.createIndexRequest env; HealthApi.healthRequest env]
        /\ StatusPanel.isChecking s' = false
        /\ (forall data, FetchResult.read checked = Some data ->
              StatusPanel.health s' = Some (health_of data)
              /\ StatusPanel.message s'
                 = Some {| StatusPanel.type := StatusPanel.success;
                           StatusPanel.text := message_of result |})
        /\ (forall e, FetchResult.failure_of "Health check failed: " checked = Some e ->
              StatusPanel.health s' = None
              /\ StatusPanel.message s'
                 = Some {| StatusPanel.type := StatusPanel.error;
                           StatusPanel.text :=
                             StatusPanel.shown_text "Failed to check health" e |})).
Proof.
  intros out s' created checked. subst out s' created checked.
  unfold StatusPanel.handleCreateIndex, StatusPanel.fetchHealth,
    HealthApi.createIndex, HealthApi.checkHealth.
  cbn -[lit Z_toString HealthApi.healthRequest HealthApi.createIndexRequest].
  destruct (net (HealthApi.createIndexRequest env)) as [t1 o1].
  destruct o1 as [e1 | [b1 st1 [e1 | d1]]]; try destruct b1;
    cbn -[lit Z_toString HealthApi.healthRequest HealthApi.createIndexRequest];
    try (try destruct e1; unfold final_state, sent, outcome;
         cbn -[lit Z_toString HealthApi.healthRequest HealthApi.createIndexRequest];
         (split; [reflexivity |]); (split; [reflexivity |]);
         (split; [intros x Hx; injection Hx as <-; repeat split |]);
         intros x Hx; discriminate Hx).
  destruct (net (HealthApi.healthRequest env)) as [t2 o2].
  destruct o2 as [e2 | [b2 st2 [e2 | d2]]]; try destruct b2;
    cbn -[lit Z_toString HealthApi.healthRequest HealthApi.createIndexRequest];
    try destruct e2; unfold final_state, sent, outcome;
    cbn -[lit Z_toString HealthApi.healthRequest HealthApi.createIndexRequest];
    (split; [reflexivity |]); (split; [reflexivity |]);
    (split; [intros x Hx; discriminate Hx |]);
    intros x Hx; injection Hx as <-;
    (split; [reflexivity |]); (split; [reflexivity |]);
    (split; [intros y Hy; try discriminate Hy; injection Hy as <-; split; reflexivity |]);
    intros y Hy; try discriminate Hy; injection Hy as <-; split; reflexivity.
Qed.

(** X23. Loading the suggestions sends one GET and never fails.  The
    suggestions of an answer that was read are shown; the four fallback
    suggestions are shown when something was thrown ([fetch] rejected or
    the text of an OK answer did not parse); and an answer with a status
    that is not OK changes nothing: the suggestions stay as they were,
    without the fallback.  Nothing else of the page changes: the final
    state is the old one with, at most, other suggestions. *)
Theorem suggestions_fall_back_only_on_throw (P : Type)
        (suggestions_of : P -> list jsstring) net now (s : HelpCenterPage.State) :
  let out := perform net now (HelpCenterPage.fetchSuggestions suggestions_of) s in
  let s' := final_state out in
  let o := snd (net HelpCenterPage.suggestionsRequest) in
  sent out = [HelpCenterPage.suggestionsRequest]
  /\ timers_set out = []
  /\ outcome out = inr tt
  /\ s' = match FetchResult.read o with
          | Some data => HelpCenterPage.setSuggestions (suggestions_of data) s
          | None => if FetchResult.threw o
                    then HelpCenterPage.setSuggestions HelpCenterPage.fallback s
                    else s
          end
  /\ HelpCenterPage.stats s' = HelpCenterPage.stats s
  /\ HelpCenterPage.showStats s' = HelpCenterPage.showStats s
  /\ HelpCenterPage.ingesting s' = HelpCenterPage.ingesting s
  /\ HelpCenterPage.ingestMessage s' = HelpCenterPage.ingestMessage s.
Proof.
  intros out s' o. subst out s' o.
  unfold HelpCenterPage.fetchSuggestions.
  cbn -[lit HelpCenterPage.suggestionsRequest HelpCenterPage.fallback].
  destruct (net HelpCenterPage.suggestionsRequest) as [t o].
  destruct o as [e | [b st [e | data]]]; try destruct b;
    cbn -[lit HelpCenterPage.suggestionsRequest HelpCenterPage.fallback];
    repeat split.
Qed.

(** X24. Loading the statistics sends one GET and never fails, and it
    changes the page only when an answer was read: then the statistics
    are those of the answer; after a rejection, a status that is not OK
    or a text that did not parse the statistics are what they were, and
    no message is set. *)
Theorem stats_change_only_when_read (P : Type)
        (stats_of : P -> HelpCenter.HelpStats) net now (s : HelpCenterPage.State) :
  let out := perform net now (HelpCenterPage.fetchStats stats_of) s in
  let s' := final_state out in
  let o := snd (net HelpCenterPage.statsRequest) in
  sent out = [HelpCenterPage.statsRequest]
  /\ outcome out = inr tt
  /\ match FetchResult.read o with
     | Some data => s' = HelpCenterPage.setStats (Some (stats_of data)) s
     | None => s' = s
     end.
Proof.
  intros out s' o. subst out s' o.
  unfold HelpCenterPage.fetchStats.
  cbn -[lit HelpCenterPage.statsRequest].
  destruct (net HelpCenterPage.statsRequest) as [t o].
  destruct o as [e | [b st [e | data]]]; try destruct b;
    cbn -[lit HelpCenterPage.statsRequest]; repeat split.
Qed.

(** X25. What the chat shows follows what it is doing.  In every world
    the chat can reach, the typing indicator is on the page exactly while
    a request is open, and the welcome screen is shown exactly as long as
    no request has been sent.  The suggestion buttons on the page are
    those of the first four suggestions on the welcome screen and of the
    first three once the chat has started; they are disabled exactly
    while a request is open, and a click on one that is not disabled
    sends the chat request for its text, unless the text is blank. *)
Theorem chat_page_shows_open_request suggestions w reqs :
  reachable HelpChat.handler (HelpChat.permitted suggestions) HelpChat.start w reqs ->
  let area := ChatView.messagesArea suggestions (state w) in
  let buttons := ChatView.buttonsOnPage suggestions (state w) in
  (ChatView.typing area = true <-> pending w <> [])
  /\ ((exists welcome, area = ChatView.Welcome welcome) <-> reqs = [])
  /\ List.map ChatView.button_text buttons
     = firstn (match reqs with [] => 4 | _ :: _ => 3 end) suggestions
  /\ Forall (fun b => ChatView.button_disabled b = true <-> pending w <> []) buttons
  /\ (forall b now,
         In b buttons -> ChatView.button_disabled b = false ->
         trim (ChatView.button_text b) <> [] ->
         snd (step HelpChat.handler now w
                   (Event (HelpChat.ClickSuggestion (ChatView.button_text b))))
         = [HelpChat.chatRequest (ChatView.button_text b)]).
Proof.
  intros Hr area buttons. subst area buttons.
  destruct (ChatPageFacts.reachable_ok Hr) as (_ & Hps & n & Hroles & Hreqs).
  assert (Hopen : HelpChat.isLoading (state w) = true <-> pending w <> []).
  { destruct (HelpChat.isLoading (state w)).
    - destruct Hps as (k & Hp & _). rewrite Hp. split; [discriminate | reflexivity].
    - rewrite Hps. split; [discriminate | intros H; exfalso; apply H; reflexivity]. }
  assert (Hclick : forall b now k,
             In b (ChatView.suggestionButtons k suggestions (state w)) ->
             ChatView.button_disabled b = false ->
             trim (ChatView.button_text b) <> [] ->
             snd (step HelpChat.handler now w
                       (Event (HelpChat.ClickSuggestion (ChatView.button_text b))))
             = [HelpChat.chatRequest (ChatView.button_text b)]).
  { intros b now k Hb Hd Ht. unfold ChatView.suggestionButtons in Hb.
    apply in_map_iff in Hb. destruct Hb as (x & <- & _). cbn in Hd, Ht |- *.
    destruct (@ChatPageFacts.detach_sendMessage_world now (state w) x w Ht Hd)
      as (c & Hrun & _).
    unfold HelpChat.handleSuggestionClick. rewrite Hrun. reflexivity. }
  assert (Hdis : forall k,
             Forall (fun b => ChatView.button_disabled b = true <-> pending w <> [])
                    (ChatView.suggestionButtons k suggestions (state w))).
  { intros k. apply Forall_forall. intros b Hb. unfold ChatView.suggestionButtons in Hb.
    apply in_map_iff in Hb. destruct Hb as (x & <- & _). exact Hopen. }
  assert (Htext : forall k,
             List.map ChatView.button_text
                      (ChatView.suggestionButtons k suggestions (state w))
             = firstn k suggestions).
  { intros k. unfold ChatView.suggestionButtons. rewrite List.map_map.
    apply List.map_id. }
  unfold ChatView.buttonsOnPage, ChatView.messagesArea, ChatView.quickSuggestions.
  destruct (HelpChat.messages (state w)) as [| m ms] eqn:Em.
  - destruct n as [| n]; [| discriminate Hroles].
    destruct (HelpChat.isLoading (state w)) eqn:El; [discriminate Hroles |].
    cbn [ChatView.typing]. cbn [Nat.add] in Hreqs.
    assert (Hnone : reqs = []) by (destruct reqs; [reflexivity | discriminate Hreqs]).
    rewrite Hnone, app_nil_r.
    split; [rewrite <- Hopen; split; discriminate |].
    split; [split; [reflexivity | intros _; eexists; reflexivity] |].
    split; [apply Htext |]. split; [apply Hdis |].
    intros b now Hb. apply (Hclick b now 4%nat Hb).
  - cbn [ChatView.typing].
    assert (Hsome : reqs <> []).
    { intros ->. cbn [List.length] in Hreqs.
      destruct n as [| n]; [| discriminate Hreqs].
      destruct (HelpChat.isLoading (state w)); [discriminate Hreqs |].
      discriminate Hroles. }
    split; [exact Hopen |].
    split; [split; [intros (welcome & H); discriminate H | intros H; contradiction] |].
    destruct reqs as [| req reqs']; [contradiction |].
    split; [apply Htext |]. split; [apply Hdis |].
    intros b now Hb. apply (Hclick b now 3%nat Hb).
Qed.

Lemma chat_page_shows_open_request_witness :
  (ChatView.typing (ChatView.messagesArea Scenario.suggestions (state (fst Scenario.asked)))
   = true
   <-> pending (fst Scenario.asked) <> [])
  /\ Forall (fun b => ChatView.button_disabled b = true
                      <-> pending (fst Scenario.asked) <> [])
            (ChatView.buttonsOnPage Scenario.suggestions (state (fst Scenario.asked))).
Proof.
  destruct (@chat_page_shows_open_request Scenario.suggestions _ _
              RequestFacts.scenario_asked) as (H1 & _ & _ & H2 & _).
  split; [exact H1 | exact H2].
Defined.
